(** * ClauseForge-AI: retrieval, compliance and comparison core

    A shallow embedding of the algorithmic core of the backend:
    - [services/compliance.py]  (playbook schema, rule evaluation,
      aggregation),
    - [services/rag.py]         (search, MMR reranking, context window,
      citations, answer generation, RAG query),
    - [services/document_comparison.py] and
      [repositories/document_comparison.py] (text and clause changes, their
      risk and summary, stored comparisons),
    - [services/risk_assessment.py] (risk score and recommendations),
    - [services/playbook_templates.py] (the patterns of the rule
      templates).

    Modelling conventions.
    - Python [float] is IEEE-754 binary64; it is embedded bit-exactly with
      the Standard Library's [SpecFloat] operations at precision 53.  A
      decimal literal such as [0.7] is the correctly rounded quotient 7/10.
      Python [int] values that flow into float arithmetic are small and are
      converted exactly.
    - Python [str] is embedded as [string]; the alphabet is ASCII, so
      [str.lower] folds [A-Z] only.
    - Exceptions are the [Raise] case of [result]; code that awaits a
      repository reads an explicit store value. *)

From Stdlib Require Import ZArith List String Ascii Bool Lia SpecFloat.
From Stdlib Require Import DecimalString Sorting.Sorted Sorting.Permutation.
Import ListNotations.

Set Warnings "-register-all".
Local Open Scope Z_scope.

(** ** Exceptions and results *)

Inductive exn : Type :=
| ValueError (msg : string)
| TypeError (msg : string)
| ReError (msg : string)            (* re.error *)
| MultipleResultsFound              (* sqlalchemy.exc.MultipleResultsFound *)
| KeyError (msg : string)
| OverflowError (msg : string)
| AttributeError (msg : string)
| UpstreamError (msg : string)      (* failure of an external service *)
| OutsideFragment (msg : string).   (* input that the model does not cover *)

Inductive result (A : Type) : Type :=
| Ok (a : A)
| Raise (e : exn).

Arguments Ok {A} a.
Arguments Raise {A} e.

Definition bind {A B : Type} (m : result A) (k : A -> result B) : result B :=
  match m with
  | Ok a => k a
  | Raise e => Raise e
  end.

Declare Scope result_scope.
Delimit Scope result_scope with result.
Notation "'let*' x ':=' m 'in' k" := (bind m (fun x => k))
  (at level 10, x name, m at level 100, k at level 200) : result_scope.

(** [for x in xs: acc = f(acc, x)] where the body may raise. *)
Fixpoint foldM {A B : Type} (f : B -> A -> result B) (xs : list A) (acc : B)
  : result B :=
  match xs with
  | [] => Ok acc
  | x :: xs' => bind (f acc x) (foldM f xs')
  end.

(** ** Python floats: IEEE-754 binary64 *)

Module F64.

Definition prec : Z := 53.
Definition emax : Z := 1024.

Definition float : Type := spec_float.

Definition of_Z (z : Z) : float := binary_normalize prec emax z 0 false.

Definition add : float -> float -> float := SFadd prec emax.
Definition sub : float -> float -> float := SFsub prec emax.
Definition mul : float -> float -> float := SFmul prec emax.
(** Every division below has a non-zero divisor (on a zero divisor Python
    raises [ZeroDivisionError]). *)
Definition div : float -> float -> float := SFdiv prec emax.
Definition sqrt : float -> float := SFsqrt prec emax.

(** Not below zero: a zero of either sign, a positive number, positive
    infinity, or not a number. *)
Definition nonneg (x : float) : bool :=
  match x with
  | S754_finite s _ _ | S754_infinity s => negb s
  | S754_zero _ | S754_nan => true
  end.

(** The same, without the negative zero. *)
Definition sign_clear (x : float) : bool :=
  match x with
  | S754_finite s _ _ | S754_infinity s | S754_zero s => negb s
  | S754_nan => true
  end.

(** The literal [n/d] written in decimal in the source. *)
Definition dec (n d : Z) : float := div (of_Z n) (of_Z d).

Definition ltb : float -> float -> bool := SFltb.
Definition leb : float -> float -> bool := SFleb.
Definition eqb : float -> float -> bool := SFeqb.
(** [a >= b] and [a > b] as Python evaluates them. *)
Definition geb (a b : float) : bool := SFleb b a.
Definition gtb (a b : float) : bool := SFltb b a.

(** Python's two-argument [min(a, b)]: [b] replaces [a] only if [b < a]. *)
Definition min (a b : float) : float := if ltb b a then b else a.
(** Python's two-argument [max(a, b)]: [b] replaces [a] only if [b > a]. *)
Definition max (a b : float) : float := if gtb b a then b else a.

(** [int(x)]: truncation toward zero; raises on NaN and infinities. *)
Definition to_int (x : float) : result Z :=
  match x with
  | S754_zero _ => Ok 0
  | S754_finite s m e =>
      let mag := if 0 <=? e then Zpos m * 2 ^ e else Zpos m / 2 ^ (- e) in
      Ok (if s then - mag else mag)
  | S754_infinity _ =>
      Raise (OverflowError "cannot convert float infinity to integer")
  | S754_nan => Raise (ValueError "cannot convert float NaN to integer")
  end.

(** [round(x)]: to the nearest integer, ties to the even one. *)
Definition round_int (x : float) : result Z :=
  match x with
  | S754_zero _ => Ok 0
  | S754_finite s m e =>
      let mag :=
        if 0 <=? e then Zpos m * 2 ^ e
        else
          let q := Zpos m / 2 ^ (- e) in
          let r := Zpos m mod 2 ^ (- e) in
          if 2 * r <? 2 ^ (- e) then q
          else if 2 ^ (- e) <? 2 * r then q + 1
          else if Z.even q then q else q + 1 in
      Ok (if s then - mag else mag)
  | S754_infinity _ =>
      Raise (OverflowError "cannot convert float infinity to integer")
  | S754_nan => Raise (ValueError "cannot convert float NaN to integer")
  end.

(** [sum(xs)]: starts from the integer 0 and adds left to right.  (From
    version 3.12 on CPython also compensates the rounding of the partial
    sums, which can change the last bits of a sum that is not exact.) *)
Definition sum (xs : list float) : float := fold_left add xs (of_Z 0).

End F64.

(** ** Python strings *)

Module Str.

Local Open Scope string_scope.

Definition chars : string -> list ascii := list_ascii_of_string.
Definition of_chars : list ascii -> string := string_of_list_ascii.

Definition len (s : string) : Z := Z.of_nat (String.length s).

(** [str.lower] on the ASCII alphabet. *)
Definition lower_char (c : ascii) : ascii :=
  let n := nat_of_ascii c in
  if (Nat.leb 65 n && Nat.leb n 90)%bool then ascii_of_nat (n + 32) else c.

Fixpoint lower (s : string) : string :=
  match s with
  | EmptyString => EmptyString
  | String c s' => String (lower_char c) (lower s')
  end.

(** [str.isspace] for one ASCII character. *)
Definition is_space (c : ascii) : bool :=
  let n := nat_of_ascii c in
  ((Nat.leb 9 n && Nat.leb n 13) || (Nat.leb 28 n && Nat.leb n 32))%bool.

Fixpoint lstrip (s : string) : string :=
  match s with
  | EmptyString => EmptyString
  | String c s' => if is_space c then lstrip s' else s
  end.

(** Drop trailing white space: a character is kept if it is not white
    space or if something is kept after it. *)
Fixpoint rstrip (s : string) : string :=
  match s with
  | EmptyString => EmptyString
  | String c s' =>
      match rstrip s' with
      | EmptyString => if is_space c then EmptyString else String c EmptyString
      | r => String c r
      end
  end.

(** [str.strip()] *)
Definition strip (s : string) : string := rstrip (lstrip s).

Fixpoint take (n : nat) (s : string) : string :=
  match n, s with
  | S n', String c s' => String c (take n' s')
  | _, _ => EmptyString
  end.

Fixpoint drop (n : nat) (s : string) : string :=
  match n, s with
  | S n', String _ s' => drop n' s'
  | _, _ => s
  end.

(** [s[i:j]] for any integers [i], [j] (negative indices count from the
    end, out-of-range indices are clipped). *)
Definition clip (s : string) (i : Z) : nat :=
  let n := len s in
  Z.to_nat (if (i <? 0)%Z then Z.max 0 (n + i) else Z.min n i).

Definition slice (s : string) (i j : Z) : string :=
  let a := clip s i in
  let b := clip s j in
  take (b - a) (drop a s).

(** [s[:j]] *)
Definition slice_to (s : string) (j : Z) : string := slice s 0 j.

(** [s.startswith(p)] *)
Fixpoint startswith (p s : string) : bool :=
  match p, s with
  | EmptyString, _ => true
  | String a p', String b s' => (Ascii.eqb a b && startswith p' s')%bool
  | String _ _, EmptyString => false
  end.

(** [p in s] *)
Fixpoint contains (p s : string) : bool :=
  (startswith p s ||
   match s with
   | EmptyString => false
   | String _ s' => contains p s'
   end)%bool.

(** [sep.join(parts)] *)
Fixpoint join (sep : string) (parts : list string) : string :=
  match parts with
  | [] => EmptyString
  | [p] => p
  | p :: rest => p ++ sep ++ join sep rest
  end.

(** [str(n)] for an integer. *)
Definition of_int (z : Z) : string := NilZero.string_of_int (Z.to_int z).

End Str.

(** ** The [re] module, as far as the compliance engine uses it

    [re.compile(pattern, re.IGNORECASE)] and [regex.finditer(text)].  A match
    is its span [(match.start(), match.end())]; [match.group()] is the slice
    of the searched text at that span. *)

Module Re.

Definition span : Type := (nat * nat)%type.

Definition group (text : string) (m : span) : string :=
  Str.slice text (Z.of_nat (fst m)) (Z.of_nat (snd m)).

(** What rule evaluation needs from a regular-expression engine. *)
Class Engine : Type := {
  pattern_obj : Type;
  compile : string -> result pattern_obj;
  finditer : pattern_obj -> string -> list span
}.

(** *** A concrete engine

    The pattern syntax covered: literal characters and escaped punctuation,
    [.], the classes [\d \s \w] and their complements, bracket sets with
    ranges, the anchors [^ $ \b \B], groups (capturing, [(?:...)], and the
    scoped flags [(?i:...)] and [(?-i:...)]), alternation, and the greedy
    quantifiers [* + ?] on an element that cannot match the empty string.
    Every pattern of [services/playbook_templates.py] is of this form.
    Other syntax that Python accepts (counted, lazy and possessive
    repetition, look-around, back-references, named groups, global inline
    flags, and so on) is reported as [OutsideFragment].  Matching is
    Python's: backtracking with the alternatives in order, greedy
    repetition, leftmost match first; [.] does not match a newline; [^] and
    [$] are those of a pattern compiled without [re.MULTILINE].  The
    alphabet is ASCII. *)

Definition newline : ascii := ascii_of_nat 10.

(** An ASCII letter or digit: after a backslash these have meanings of
    their own. *)
Definition is_alnum (c : ascii) : bool :=
  let n := nat_of_ascii c in
  ((Nat.leb 48 n && Nat.leb n 57) || (Nat.leb 65 n && Nat.leb n 90)
   || (Nat.leb 97 n && Nat.leb n 122))%bool.

Definition is_digit (c : ascii) : bool :=
  let n := nat_of_ascii c in (Nat.leb 48 n && Nat.leb n 57)%bool.

(** [\w] *)
Definition is_word (c : ascii) : bool :=
  (is_alnum c || Ascii.eqb c "_")%bool.

(** The other case of a letter. *)
Definition swapcase (c : ascii) : ascii :=
  let n := nat_of_ascii c in
  if (Nat.leb 65 n && Nat.leb n 90)%bool then ascii_of_nat (n + 32)
  else if (Nat.leb 97 n && Nat.leb n 122)%bool then ascii_of_nat (n - 32)
  else c.

Definition in_range (lo hi c : ascii) : bool :=
  (Nat.leb (nat_of_ascii lo) (nat_of_ascii c)
   && Nat.leb (nat_of_ascii c) (nat_of_ascii hi))%bool.

(** A member of a bracket set. *)
Inductive class_item : Type :=
| Single (c : ascii)
| Range (lo hi : ascii)
| Digit (negated : bool)
| Space (negated : bool)
| Word (negated : bool).

(** What matches one character. *)
Inductive atom : Type :=
| Lit (c : ascii)
| AnyChar
| Class (negated : bool) (items : list class_item).

(** A parsed pattern; [Char a ignore_case] carries the setting of
    [re.IGNORECASE] at its place in the pattern. *)
Inductive regex : Type :=
| Empty
| Char (a : atom) (ignore_case : bool)
| Bol
| Eol
| Boundary (negated : bool)
| Seq (r1 r2 : regex)
| Alt (r1 r2 : regex)
| Star (r : regex).

(** *** Matching *)

Definition item_match (ignore_case : bool) (c : ascii) (i : class_item)
  : bool :=
  match i with
  | Single p =>
      if ignore_case then Ascii.eqb (Str.lower_char p) (Str.lower_char c)
      else Ascii.eqb p c
  | Range lo hi =>
      (in_range lo hi c || (ignore_case && in_range lo hi (swapcase c)))%bool
  | Digit negated => xorb negated (is_digit c)
  | Space negated => xorb negated (Str.is_space c)
  | Word negated => xorb negated (is_word c)
  end.

(** One character against one atom. *)
Definition atom_match (a : atom) (ignore_case : bool) (c : ascii) : bool :=
  match a with
  | Lit p =>
      if ignore_case then Ascii.eqb (Str.lower_char p) (Str.lower_char c)
      else Ascii.eqb p c
  | AnyChar => negb (Ascii.eqb c newline)
  | Class negated items =>
      xorb negated (existsb (item_match ignore_case c) items)
  end.

(** Where the matcher stands: the character before the position (none at
    the start of the text) and the text from the position on. *)
Definition state : Type := (option ascii * list ascii)%type.

(** [$]: at the end of the text, or before a newline that ends it. *)
Definition at_end (st : state) : bool :=
  match snd st with
  | [] => true
  | [c] => Ascii.eqb c newline
  | _ => false
  end.

(** [\b]: exactly one of the characters around the position is a word
    character. *)
Definition at_boundary (st : state) : bool :=
  xorb (match fst st with Some c => is_word c | None => false end)
       (match snd st with c :: _ => is_word c | [] => false end).

(** In an empty text neither [\b] nor [\B] matches (CPython up to 3.13). *)
Definition in_empty_text (st : state) : bool :=
  match st with
  | (None, []) => true
  | _ => false
  end.

(** Greedy repetition with backtracking: one more round of [body] if it
    consumes something and the rest succeeds, otherwise continue from
    here. *)
Fixpoint star_loop
  (body : (state -> option (list ascii)) -> state -> option (list ascii))
  (k : state -> option (list ascii)) (fuel : nat) (st : state)
  : option (list ascii) :=
  match fuel with
  | O => k st
  | S fuel' =>
      match body (fun st' =>
                    if Nat.ltb (List.length (snd st')) (List.length (snd st))
                    then star_loop body k fuel' st' else None) st with
      | Some rest => Some rest
      | None => k st
      end
  end.

(** The first way (in backtracking order) to match [r] from [st] on and
    then to satisfy [k]; the result is what [k] returns, the text left
    over. *)
Fixpoint m (r : regex) (k : state -> option (list ascii)) (st : state)
  : option (list ascii) :=
  match r with
  | Empty => k st
  | Char a ignore_case =>
      match snd st with
      | c :: s' => if atom_match a ignore_case c then k (Some c, s') else None
      | [] => None
      end
  | Bol => match fst st with None => k st | Some _ => None end
  | Eol => if at_end st then k st else None
  | Boundary negated =>
      if (negb (in_empty_text st) && xorb negated (at_boundary st))%bool
      then k st else None
  | Seq r1 r2 => m r1 (m r2 k) st
  | Alt r1 r2 =>
      match m r1 k st with
      | Some rest => Some rest
      | None => m r2 k st
      end
  | Star r' => star_loop (m r') k (S (List.length (snd st))) st
  end.

(** Length of the first match (in backtracking order) starting at the
    position of [st].  With [must_advance] an empty match is rejected, as
    the scanner does right after an empty match at the same position. *)
Definition match_at (r : regex) (must_advance : bool) (st : state)
  : option nat :=
  let accept st' :=
    if (must_advance
        && Nat.eqb (List.length (snd st')) (List.length (snd st)))%bool
    then None else Some (snd st') in
  match m r accept st with
  | Some rest => Some (List.length (snd st) - List.length rest)%nat
  | None => None
  end.

(** The matches that start at position [pos], and how many of the following
    characters the last of them covers. *)
Definition attempts (r : regex) (st : state) (pos : nat) : list span * nat :=
  match match_at r false st with
  | None => ([], 0%nat)
  | Some (S l) => ([(pos, pos + S l)%nat], l)
  | Some O =>
      match match_at r true st with
      | Some (S l) => ([(pos, pos); (pos, pos + S l)%nat], l)
      | _ => ([(pos, pos)], 0%nat)
      end
  end.

(** Non-overlapping matches from left to right; [skip] characters are still
    covered by the previous match. *)
Fixpoint scan (r : regex) (prev : option ascii) (s : list ascii)
  (pos skip : nat) : list span :=
  match skip with
  | S k =>
      match s with
      | [] => []
      | c :: s' => scan r (Some c) s' (S pos) k
      end
  | O =>
      let found := attempts r (prev, s) pos in
      fst found ++
      match s with
      | [] => []
      | c :: s' => scan r (Some c) s' (S pos) (snd found)
      end
  end.

(** *** Parsing *)

(** Whether [r] can match the empty string. *)
Fixpoint nullable (r : regex) : bool :=
  match r with
  | Empty | Bol | Eol | Boundary _ | Star _ => true
  | Char _ _ => false
  | Seq r1 r2 => (nullable r1 && nullable r2)%bool
  | Alt r1 r2 => (nullable r1 || nullable r2)%bool
  end.

Fixpoint seq_of (items : list regex) : regex :=
  match items with
  | [] => Empty
  | [r] => r
  | r :: rest => Seq r (seq_of rest)
  end.

Definition outside {A : Type} : result A :=
  Raise (OutsideFragment "unsupported syntax").

(** A backslash followed by [d], outside and inside a set: a class, a
    control character, or the character itself. *)
Definition escape_item (d : ascii) : result class_item :=
  if Ascii.eqb d "d" then Ok (Digit false)
  else if Ascii.eqb d "D" then Ok (Digit true)
  else if Ascii.eqb d "s" then Ok (Space false)
  else if Ascii.eqb d "S" then Ok (Space true)
  else if Ascii.eqb d "w" then Ok (Word false)
  else if Ascii.eqb d "W" then Ok (Word true)
  else if Ascii.eqb d "n" then Ok (Single newline)
  else if Ascii.eqb d "t" then Ok (Single (ascii_of_nat 9))
  else if Ascii.eqb d "r" then Ok (Single (ascii_of_nat 13))
  else if Ascii.eqb d "f" then Ok (Single (ascii_of_nat 12))
  else if Ascii.eqb d "v" then Ok (Single (ascii_of_nat 11))
  else if is_alnum d then outside
  else Ok (Single d).

Fixpoint starts_with (p s : list ascii) : bool :=
  match p, s with
  | [], _ => true
  | a :: p', b :: s' => (Ascii.eqb a b && starts_with p' s')%bool
  | _ :: _, [] => false
  end.

(** The members of a bracket set, after [[] or [[^]. *)
Fixpoint parse_set (cs : list ascii) (items : list class_item)
  : result (list class_item * list ascii) :=
  match cs with
  | [] => Raise (ReError "unterminated character set")
  | c :: cs' =>
      if Ascii.eqb c "]" then
        match items with
        | [] => outside
        | _ :: _ => Ok (rev items, cs')
        end
      else if Ascii.eqb c "[" then outside
      else if Ascii.eqb c "\" then
        match cs' with
        | [] => Raise (ReError "unterminated character set")
        | d :: cs'' =>
            match escape_item d with
            | Raise e => Raise e
            | Ok i =>
                if (starts_with ["-"%char] cs''
                    && negb (starts_with ["-"; "]"]%char cs''))%bool
                then outside
                else parse_set cs'' (i :: items)
            end
        end
      else
        match cs' with
        | dash :: d :: cs'' =>
            if negb (Ascii.eqb dash "-") then
              parse_set cs' (Single c :: items)
            else if Ascii.eqb d "]" then parse_set cs' (Single c :: items)
            else if (Ascii.eqb d "\" || Ascii.eqb d "[")%bool then outside
            else if Nat.leb (nat_of_ascii c) (nat_of_ascii d)
                 then parse_set cs'' (Range c d :: items)
                 else Raise (ReError "bad character range")
        | _ => parse_set cs' (Single c :: items)
        end
  end.

(** What the last element of a sequence is, for a quantifier that
    follows. *)
Inductive last_kind : Type := NoElement | Plain | Anchor | Repeated.

(** A sequence of alternatives up to the end of the pattern or of the
    enclosing group.  [fuel] bounds the number of steps by the length of
    the pattern; [ignore_case] is the flag in force; [alts] are the
    finished alternatives and [items] the elements of the current one, both
    in reverse order. *)
Fixpoint parse_alt (fuel : nat) (ignore_case : bool) (cs : list ascii)
  (alts : list regex) (items : list regex) (last : last_kind)
  : result (regex * list ascii) :=
  let finish :=
    fold_left (fun later earlier => Alt earlier later) alts
      (seq_of (rev items)) in
  match fuel with
  | O => outside
  | S fuel' =>
      match cs with
      | [] => Ok (finish, [])
      | c :: cs' =>
          if Ascii.eqb c ")" then Ok (finish, cs)
          else if Ascii.eqb c "|" then
            parse_alt fuel' ignore_case cs' (seq_of (rev items) :: alts) []
              NoElement
          else if (Ascii.eqb c "*" || Ascii.eqb c "+" || Ascii.eqb c "?")%bool
          then
            match last, items with
            | Plain, r :: items' =>
                if nullable r then outside
                else
                  let repeated :=
                    if Ascii.eqb c "*" then Star r
                    else if Ascii.eqb c "+" then Seq r (Star r)
                    else Alt r Empty in
                  parse_alt fuel' ignore_case cs' alts (repeated :: items')
                    Repeated
            | Repeated, _ =>
                if Ascii.eqb c "*" then Raise (ReError "multiple repeat")
                else outside
            | _, _ => Raise (ReError "nothing to repeat")
            end
          else if Ascii.eqb c "(" then
            let group flag body :=
              match parse_alt fuel' flag body [] [] NoElement with
              | Raise e => Raise e
              | Ok (r, rest) =>
                  if starts_with [")"%char] rest then
                    parse_alt fuel' ignore_case (tl rest) alts (r :: items)
                      Plain
                  else Raise (ReError "missing ), unterminated subpattern")
              end in
            if starts_with (Str.chars "(?:") cs then
              group ignore_case (skipn 3 cs)
            else if starts_with (Str.chars "(?i:") cs then
              group true (skipn 4 cs)
            else if starts_with (Str.chars "(?-i:") cs then
              group false (skipn 5 cs)
            else if starts_with (Str.chars "(?") cs then outside
            else group ignore_case cs'
          else if Ascii.eqb c "[" then
            let negated := starts_with ["^"%char] cs' in
            match parse_set (if negated then tl cs' else cs') [] with
            | Raise e => Raise e
            | Ok (members, rest) =>
                parse_alt fuel' ignore_case rest alts
                  (Char (Class negated members) ignore_case :: items) Plain
            end
          else if Ascii.eqb c "." then
            parse_alt fuel' ignore_case cs' alts
              (Char AnyChar ignore_case :: items) Plain
          else if Ascii.eqb c "^" then
            parse_alt fuel' ignore_case cs' alts (Bol :: items) Anchor
          else if Ascii.eqb c "$" then
            parse_alt fuel' ignore_case cs' alts (Eol :: items) Anchor
          else if Ascii.eqb c "\" then
            match cs' with
            | [] => Raise (ReError "bad escape (end of pattern)")
            | d :: cs'' =>
                if Ascii.eqb d "b" then
                  parse_alt fuel' ignore_case cs'' alts
                    (Boundary false :: items) Anchor
                else if Ascii.eqb d "B" then
                  parse_alt fuel' ignore_case cs'' alts
                    (Boundary true :: items) Anchor
                else
                  match escape_item d with
                  | Raise e => Raise e
                  | Ok (Single p) =>
                      parse_alt fuel' ignore_case cs'' alts
                        (Char (Lit p) ignore_case :: items) Plain
                  | Ok i =>
                      parse_alt fuel' ignore_case cs'' alts
                        (Char (Class false [i]) ignore_case :: items) Plain
                  end
            end
          else if (Ascii.eqb c "{" || Ascii.eqb c "}" || Ascii.eqb c "]")%bool
          then outside
          else
            parse_alt fuel' ignore_case cs' alts
              (Char (Lit c) ignore_case :: items) Plain
      end
  end.

(** [re.compile(pattern, re.IGNORECASE)] *)
Definition parse (cs : list ascii) : result regex :=
  match parse_alt (S (List.length cs)) true cs [] [] NoElement with
  | Raise e => Raise e
  | Ok (r, []) => Ok r
  | Ok (_, _ :: _) => Raise (ReError "unbalanced parenthesis")
  end.

#[export] Instance Fragment : Engine := {
  pattern_obj := regex;
  compile := fun pattern => parse (Str.chars pattern);
  finditer := fun r text => scan r None (Str.chars text) 0 0
}.

(** *** Patterns by what they can observe *)


(** The pattern looks at no position but those of the characters it
    consumes: it has no [^], [$], [\b] or [\B]. *)
Fixpoint context_free (r : regex) : bool :=
  match r with
  | Bol | Eol | Boundary _ => false
  | Seq r1 r2 | Alt r1 r2 => (context_free r1 && context_free r2)%bool
  | Star r' => context_free r'
  | Empty | Char _ _ => true
  end.




End Re.

(** ** Persistent entities read by the services

    Modelled from the spec: [models/database.py] is not part of the sources;
    the records carry the columns the services read (TextChunk, Clause and
    ComparisonResult of the data model, and the columns of the migration
    [0f417e0e7d90]). *)

Definition UUID : Type := N.

Record DocumentChunk : Type := mkChunk {
  chunk_id : UUID;
  chunk_document_id : UUID;
  chunk_no : Z;
  chunk_text : string;
  chunk_page : option Z;
  chunk_embedding : option (list F64.float)
}.

Record Document : Type := mkDocument {
  doc_id : UUID;
  doc_title : string
}.

(** JSON values as Python's [json] module decodes them. *)
Inductive json : Type :=
| JNull
| JBool (b : bool)
| JInt (z : Z)
| JFloat (f : F64.float)
| JStr (s : string)
| JArr (l : list json)
| JDict (l : list (string * json)).

Definition jdict : Type := list (string * json).

(** [d.get(key)] / [key in d] *)
Fixpoint jget (key : string) (d : jdict) : option json :=
  match d with
  | [] => None
  | (k, v) :: d' => if String.eqb k key then Some v else jget key d'
  end.

Definition jhas (key : string) (d : jdict) : bool :=
  match jget key d with
  | Some _ => true
  | None => false
  end.

(** A playbook row; [rules_json] is a dictionary whose ["rules"] entries,
    when it is an array, are dictionaries. *)
Record Playbook : Type := mkPlaybook {
  playbook_id : UUID;
  rules_json : jdict
}.

(** ** [services/compliance.py] *)

Module Compliance.

Local Open Scope string_scope.
Local Open Scope Z_scope.
Local Open Scope result_scope.

Inductive RiskLevel : Type := LOW | MEDIUM | HIGH | CRITICAL.

Inductive ComplianceStatus : Type :=
| COMPLIANT
| NON_COMPLIANT
| REVIEW_REQUIRED.

Definition status_eqb (a b : ComplianceStatus) : bool :=
  match a, b with
  | COMPLIANT, COMPLIANT => true
  | NON_COMPLIANT, NON_COMPLIANT => true
  | REVIEW_REQUIRED, REVIEW_REQUIRED => true
  | _, _ => false
  end.

Record ClauseMatch : Type := mkClauseMatch {
  cm_clause_type : string;
  cm_text : string;
  cm_confidence : F64.float;
  cm_page : Z;
  cm_risk_level : RiskLevel;
  cm_matched_rule : option string
}.

Record ComplianceRule : Type := mkRule {
  rule_id : string;
  rule_name : string;
  rule_description : json;
  rule_clause_type : string;
  rule_required : bool;
  rule_patterns : list string;
  rule_risk_weight : F64.float;
  rule_recommendations : list json
}.

Record ComplianceResult : Type := mkResult {
  res_rule_id : string;
  res_rule_name : string;
  res_status : ComplianceStatus;
  res_matched_clauses : list ClauseMatch;
  res_missing_clause : bool;
  res_risk_score : F64.float;
  res_recommendations : list json
}.

Record Summary : Type := mkSummary {
  total_rules_evaluated : Z;
  compliant_rules : Z;
  non_compliant_rules : Z;
  review_required_rules : Z;
  compliance_percentage : Z;
  summary_overall_risk_score : Z;
  risk_category : string;
  analysis_timestamp : string
}.

Record AnalysisResult : Type := mkAnalysis {
  an_document_id : UUID;
  an_playbook_id : UUID;
  overall_risk_score : Z;
  compliance_status : ComplianceStatus;
  compliance_results : list ComplianceResult;
  missing_clauses : list string;
  an_recommendations : list json;
  summary : Summary
}.

(** The dictionary built for each regex match. *)
Record PatternMatch : Type := mkPatternMatch {
  pm_text : string;
  pm_matched_text : string;
  pm_confidence : F64.float;
  pm_page : Z;
  pm_chunk_id : UUID
}.

(** *** Playbook schema *)

Definition is_number (v : json) : bool :=
  match v with
  | JInt _ | JFloat _ | JBool _ => true
  | _ => false
  end.

(** The numeric value of a JSON number ([True] is 1, [False] is 0). *)
Definition number_value (v : json) : F64.float :=
  match v with
  | JInt z => F64.of_Z z
  | JFloat f => f
  | JBool true => F64.of_Z 1
  | _ => F64.of_Z 0
  end.

Definition is_str (v : json) : bool :=
  match v with JStr _ => true | _ => false end.

Definition is_list (v : json) : bool :=
  match v with JArr _ => true | _ => false end.

Definition is_bool (v : json) : bool :=
  match v with JBool _ => true | _ => false end.

(** [errors.append(msg)] when [field] is present and fails [ok]. *)
Definition check_field (rule : jdict) (field : string) (ok : json -> bool)
  (msg : string) : list string :=
  match jget field rule with
  | Some v => if ok v then [] else [msg]
  | None => []
  end.

Definition _validate_rule_schema (rule : jdict) (index : nat) : list string :=
  let prefix := "Rule " ++ Str.of_int (Z.of_nat index) in
  let required_fields :=
    ["id"; "name"; "clause_type"; "required"; "patterns"; "risk_weight"] in
  (flat_map (fun field =>
       if jhas field rule then []
       else [(prefix ++ ": Missing required field '" ++ field ++ "'")%string])
     required_fields
   ++ check_field rule "id" is_str (prefix ++ ": 'id' must be a string")%string
   ++ check_field rule "name" is_str (prefix ++ ": 'name' must be a string")%string
   ++ check_field rule "clause_type" is_str
        (prefix ++ ": 'clause_type' must be a string")%string
   ++ check_field rule "required" is_bool
        (prefix ++ ": 'required' must be a boolean")%string
   ++ match jget "patterns" rule with
      | Some (JArr ps) =>
          if forallb is_str ps then []
          else [(prefix ++ ": All patterns must be strings")%string]
      | Some _ => [(prefix ++ ": 'patterns' must be an array")%string]
      | None => []
      end
   ++ match jget "risk_weight" rule with
      | Some v =>
          if negb (is_number v) then
            [(prefix ++ ": 'risk_weight' must be a number")%string]
          else if (F64.leb (F64.of_Z 0) (number_value v)
                   && F64.leb (number_value v) (F64.of_Z 1))%bool then []
          else [(prefix ++ ": 'risk_weight' must be between 0 and 1")%string]
      | None => []
      end
   ++ check_field rule "recommendations" is_list
        (prefix ++ ": 'recommendations' must be an array")%string)%list.

(** The entries of the ["rules"] array. *)
Definition rule_dicts (rules : list json) : list jdict :=
  map (fun v => match v with JDict d => d | _ => [] end) rules.

Fixpoint validate_rules (rules : list jdict) (index : nat) : list string :=
  match rules with
  | [] => []
  | rule :: rest =>
      (_validate_rule_schema rule index ++ validate_rules rest (S index))%list
  end.

Definition validate_playbook_schema (rules_json : jdict)
  : bool * list string :=
  let errors :=
    (flat_map (fun field =>
         if jhas field rules_json then []
         else [("Missing required field: " ++ field)%string])
       ["version"; "name"; "rules"]
     ++ match jget "rules" rules_json with
        | Some (JArr rules) => validate_rules (rule_dicts rules) 0
        | Some _ => ["'rules' must be an array"]
        | None => []
        end)%list in
  (match errors with [] => true | _ => false end, errors).

(** [rule_data[key]] with the type the schema guarantees. *)
Definition get_str (key : string) (d : jdict) : result string :=
  match jget key d with
  | Some (JStr s) => Ok s
  | Some _ => Raise (TypeError key)
  | None => Raise (KeyError key)
  end.

Definition parse_rule (rule_data : jdict) : result ComplianceRule :=
  let* id := get_str "id" rule_data in
  let* name := get_str "name" rule_data in
  let* clause_type := get_str "clause_type" rule_data in
  let* required :=
    match jget "required" rule_data with
    | Some (JBool b) => Ok b
    | Some _ => Raise (TypeError "required")
    | None => Raise (KeyError "required")
    end in
  let* patterns :=
    match jget "patterns" rule_data with
    | Some (JArr ps) =>
        foldM (fun acc p =>
                 match p with
                 | JStr s => Ok (acc ++ [s])%list
                 | _ => Raise (TypeError "patterns")
                 end) ps []
    | Some _ => Raise (TypeError "patterns")
    | None => Raise (KeyError "patterns")
    end in
  let* risk_weight :=
    match jget "risk_weight" rule_data with
    | Some v => if is_number v then Ok (number_value v)
                else Raise (TypeError "risk_weight")
    | None => Raise (KeyError "risk_weight")
    end in
  Ok {| rule_id := id;
        rule_name := name;
        rule_description :=
          match jget "description" rule_data with
          | Some v => v
          | None => JStr ""
          end;
        rule_clause_type := clause_type;
        rule_required := required;
        rule_patterns := patterns;
        rule_risk_weight := risk_weight;
        rule_recommendations :=
          match jget "recommendations" rule_data with
          | Some (JArr l) => l
          | _ => []
          end |}.

Definition parse_playbook_rules (rules_json : jdict)
  : result (list ComplianceRule) :=
  match jget "rules" rules_json with
  | Some (JArr rules) =>
      foldM (fun acc rule_data =>
               let* rule := parse_rule rule_data in Ok (acc ++ [rule])%list)
        (rule_dicts rules) []
  | _ => Ok []
  end.

(** *** Rule evaluation *)

Section Evaluation.

Context {E : Re.Engine}.

Definition legal_keywords : list string :=
  ["shall"; "agreement"; "contract"; "party"; "parties";
   "liability"; "damages"; "breach"; "termination"; "clause"].

Definition _calculate_match_confidence (pattern context matched_text : string)
  : F64.float :=
  let base_confidence := F64.dec 7 10 in
  let base_confidence :=
    if String.eqb (Str.lower pattern) (Str.lower matched_text)
    then F64.add base_confidence (F64.dec 2 10)
    else base_confidence in
  let context_lower := Str.lower context in
  let keyword_matches :=
    List.length
      (filter (fun keyword => Str.contains keyword context_lower)
         legal_keywords) in
  let confidence_boost :=
    F64.min (F64.dec 1 10)
      (F64.mul (F64.of_Z (Z.of_nat keyword_matches)) (F64.dec 2 100)) in
  F64.min (F64.of_Z 1) (F64.add base_confidence confidence_boost).

Definition _determine_clause_risk_level (confidence : F64.float) : RiskLevel :=
  if F64.geb confidence (F64.dec 9 10) then LOW
  else if F64.geb confidence (F64.dec 7 10) then MEDIUM
  else if F64.geb confidence (F64.dec 5 10) then HIGH
  else CRITICAL.

(** [chunk.page or 1] *)
Definition page_or_1 (page : option Z) : Z :=
  match page with
  | Some p => if p =? 0 then 1 else p
  | None => 1
  end.

(** The body of the loop over the matches of one chunk. *)
Definition match_entry (pattern : string) (chunk : DocumentChunk)
  (m : Re.span) : PatternMatch :=
  let text := chunk_text chunk in
  let start := Z.max 0 (Z.of_nat (fst m) - 100) in
  let end_ := Z.min (Str.len text) (Z.of_nat (snd m) + 100) in
  let context := Str.strip (Str.slice text start end_) in
  let confidence :=
    _calculate_match_confidence pattern context (Re.group text m) in
  {| pm_text := context;
     pm_matched_text := Re.group text m;
     pm_confidence := confidence;
     pm_page := page_or_1 (chunk_page chunk);
     pm_chunk_id := chunk_id chunk |}.

(** The pattern is compiled before any chunk is read; [document_text] is
    received but not searched. *)
Definition _find_pattern_matches (pattern document_text : string)
  (chunks : list DocumentChunk) : result (list PatternMatch) :=
  let* regex_pattern := Re.compile pattern in
  Ok (flat_map
        (fun chunk =>
           map (match_entry pattern chunk)
             (Re.finditer regex_pattern (chunk_text chunk)))
        chunks).

Definition clause_of_match (rule : ComplianceRule) (m : PatternMatch)
  : ClauseMatch :=
  {| cm_clause_type := rule_clause_type rule;
     cm_text := pm_text m;
     cm_confidence := pm_confidence m;
     cm_page := pm_page m;
     cm_risk_level := _determine_clause_risk_level (pm_confidence m);
     cm_matched_rule := Some (rule_id rule) |}.

(** The first loop of [_evaluate_rule]: all patterns, in order. *)
Definition collect_matches (rule : ComplianceRule) (document_text : string)
  (chunks : list DocumentChunk) : result (list ClauseMatch) :=
  foldM (fun matched_clauses pattern =>
           let* matches := _find_pattern_matches pattern document_text chunks in
           Ok (matched_clauses ++ map (clause_of_match rule) matches)%list)
    (rule_patterns rule) [].

(** [sum(m.confidence for m in matched_clauses) / len(matched_clauses)] *)
Definition avg_confidence (matched_clauses : list ClauseMatch) : F64.float :=
  F64.div (F64.sum (map cm_confidence matched_clauses))
    (F64.of_Z (Z.of_nat (List.length matched_clauses))).

(** The status decision: status, missing_clause, risk_score. *)
Definition decide (rule : ComplianceRule) (matched_clauses : list ClauseMatch)
  : ComplianceStatus * bool * F64.float :=
  match matched_clauses with
  | [] =>
      if rule_required rule then
        (NON_COMPLIANT, true, F64.mul (rule_risk_weight rule) (F64.of_Z 100))
      else (COMPLIANT, false, F64.of_Z 0)
  | _ :: _ =>
      let avg := avg_confidence matched_clauses in
      if F64.geb avg (F64.dec 8 10) then (COMPLIANT, false, F64.of_Z 0)
      else if F64.geb avg (F64.dec 5 10) then
        (REVIEW_REQUIRED, false,
         F64.mul (rule_risk_weight rule) (F64.of_Z 30))
      else
        (NON_COMPLIANT, false,
         F64.mul (rule_risk_weight rule) (F64.of_Z 70))
  end.

Definition _evaluate_rule (rule : ComplianceRule) (document_text : string)
  (chunks : list DocumentChunk) : result ComplianceResult :=
  let* matched_clauses := collect_matches rule document_text chunks in
  let '(status, missing_clause, risk_score) := decide rule matched_clauses in
  Ok {| res_rule_id := rule_id rule;
        res_rule_name := rule_name rule;
        res_status := status;
        res_matched_clauses := matched_clauses;
        res_missing_clause := missing_clause;
        res_risk_score := risk_score;
        res_recommendations :=
          if status_eqb status COMPLIANT then []
          else rule_recommendations rule |}.

(** *** Aggregation *)

Definition _calculate_overall_risk_score
  (compliance_results : list ComplianceResult) : result Z :=
  match compliance_results with
  | [] => Ok 0
  | _ :: _ =>
      let total_risk := F64.sum (map res_risk_score compliance_results) in
      let max_possible_risk :=
        Z.of_nat (List.length compliance_results) * 100 in
      let* normalized_score :=
        if 0 <? max_possible_risk then
          F64.to_int
            (F64.mul (F64.div total_risk (F64.of_Z max_possible_risk))
               (F64.of_Z 100))
        else Ok 0 in
      Ok (Z.min 100 normalized_score)
  end.

(** The aggregation as the specification words it:
    [round(100 * sum / (100 * rule_count))], clamped to [0, 100]. *)
Definition spec_overall_risk_score
  (compliance_results : list ComplianceResult) : result Z :=
  let total_risk := F64.sum (map res_risk_score compliance_results) in
  let rule_count := Z.of_nat (List.length compliance_results) in
  let* rounded :=
    F64.round_int
      (F64.div (F64.mul (F64.of_Z 100) total_risk)
         (F64.of_Z (100 * rule_count))) in
  Ok (Z.max 0 (Z.min 100 rounded)).

Definition count_status (s : ComplianceStatus)
  (compliance_results : list ComplianceResult) : Z :=
  Z.of_nat
    (List.length
       (filter (fun r => status_eqb (res_status r) s) compliance_results)).

Definition _determine_compliance_status
  (compliance_results : list ComplianceResult) : ComplianceStatus :=
  match compliance_results with
  | [] => COMPLIANT
  | _ :: _ =>
      if 0 <? count_status NON_COMPLIANT compliance_results then NON_COMPLIANT
      else if 0 <? count_status REVIEW_REQUIRED compliance_results
           then REVIEW_REQUIRED
      else COMPLIANT
  end.

Definition _get_risk_category (risk_score : Z) : string :=
  if 80 <=? risk_score then "Critical"
  else if 60 <=? risk_score then "High"
  else if 30 <=? risk_score then "Medium"
  else "Low".

(** [now] is [datetime.utcnow().isoformat()]. *)
Definition _create_analysis_summary
  (compliance_results : list ComplianceResult) (overall_risk_score : Z)
  (now : string) : result Summary :=
  let total_rules := Z.of_nat (List.length compliance_results) in
  let compliant := count_status COMPLIANT compliance_results in
  let* percentage :=
    if 0 <? total_rules then
      F64.to_int
        (F64.mul (F64.div (F64.of_Z compliant) (F64.of_Z total_rules))
           (F64.of_Z 100))
    else Ok 100 in
  Ok {| total_rules_evaluated := total_rules;
        compliant_rules := compliant;
        non_compliant_rules := count_status NON_COMPLIANT compliance_results;
        review_required_rules :=
          count_status REVIEW_REQUIRED compliance_results;
        compliance_percentage := percentage;
        summary_overall_risk_score := overall_risk_score;
        risk_category := _get_risk_category overall_risk_score;
        analysis_timestamp := now |}.

(** *** The analysis run *)

(** The repositories [analyze_document] awaits. *)
Record Repos : Type := mkRepos {
  document_get_by_id : UUID -> string -> result (option Document);
  playbook_get_by_id : UUID -> string -> result (option Playbook);
  playbook_get_default : string -> result (option Playbook);
  chunk_get_by_document : UUID -> string -> result (list DocumentChunk)
}.

(** The loop over the rules: no handler surrounds [_evaluate_rule]. *)
Definition evaluate_rules (rules : list ComplianceRule)
  (document_text : string) (chunks : list DocumentChunk)
  : result (list ComplianceResult) :=
  foldM (fun compliance_results rule =>
           let* result := _evaluate_rule rule document_text chunks in
           Ok (compliance_results ++ [result])%list)
    rules [].

Definition analyze_document (repos : Repos) (now : string)
  (document_id : UUID) (org_id : string) (requested_playbook : option UUID)
  : result AnalysisResult :=
  let* document := document_get_by_id repos document_id org_id in
  match document with
  | None => Raise (ValueError "Document not found")
  | Some _ =>
      let* playbook :=
        match requested_playbook with
        | Some pid => playbook_get_by_id repos pid org_id
        | None => playbook_get_default repos org_id
        end in
      match playbook with
      | None => Raise (ValueError "No playbook found for analysis")
      | Some playbook =>
          let '(is_valid, errors) :=
            validate_playbook_schema (rules_json playbook) in
          if negb is_valid then
            Raise (ValueError
                     ("Invalid playbook schema: " ++ Str.join ", " errors))
          else
            let* rules := parse_playbook_rules (rules_json playbook) in
            let* chunks := chunk_get_by_document repos document_id org_id in
            let document_text := Str.join " " (map chunk_text chunks) in
            let* compliance_results :=
              evaluate_rules rules document_text chunks in
            let* overall := _calculate_overall_risk_score compliance_results in
            let status := _determine_compliance_status compliance_results in
            let missing :=
              map res_rule_name
                (filter (fun r =>
                           (res_missing_clause r
                            && status_eqb (res_status r) NON_COMPLIANT)%bool)
                   compliance_results) in
            let recommendations :=
              flat_map res_recommendations compliance_results in
            let* summary :=
              _create_analysis_summary compliance_results overall now in
            Ok {| an_document_id := document_id;
                  an_playbook_id := playbook_id playbook;
                  overall_risk_score := overall;
                  compliance_status := status;
                  compliance_results := compliance_results;
                  missing_clauses := missing;
                  an_recommendations := recommendations;
                  summary := summary |}
      end
  end.

End Evaluation.


(** What a match contributes to the verdict on its rule. *)
Definition evidence (m : ClauseMatch) : F64.float * Z * RiskLevel :=
  (cm_confidence m, cm_page m, cm_risk_level m).

(** The verdict on a rule: everything but the matched text itself. *)
Definition verdict (r : ComplianceResult)
  : ComplianceStatus * bool * F64.float * list (F64.float * Z * RiskLevel) :=
  (res_status r, res_missing_clause r, res_risk_score r,
   map evidence (res_matched_clauses r)).

Definition map_result {A B : Type} (f : A -> B) (r : result A) : result B :=
  match r with
  | Ok a => Ok (f a)
  | Raise e => Raise e
  end.

End Compliance.

(** [sorted(chunks, key=lambda c: c.chunk_no)]: stable, ascending. *)
Fixpoint insert_by_chunk_no (c : DocumentChunk) (sorted : list DocumentChunk)
  : list DocumentChunk :=
  match sorted with
  | [] => [c]
  | d :: rest =>
      if chunk_no d <=? chunk_no c then d :: insert_by_chunk_no c rest
      else c :: sorted
  end.


Definition sorted_by_chunk_no (chunks : list DocumentChunk)
  : list DocumentChunk :=
  fold_left (fun acc c => insert_by_chunk_no c acc) chunks [].

(** ** [services/rag.py] *)

Module Rag.

Local Open Scope string_scope.
Local Open Scope Z_scope.
Local Open Scope result_scope.

Definition nl : string := String Re.newline EmptyString.

Record SearchResult : Type := mkSearchResult {
  sr_chunk : DocumentChunk;
  sr_similarity_score : F64.float;
  sr_document : option Document;
  sr_context_chunks : option (list DocumentChunk)
}.

Record Citation : Type := mkCitation {
  cit_document_id : UUID;
  cit_document_title : string;
  cit_page : option Z;
  cit_chunk_id : UUID;
  cit_text : string;
  cit_relevance_score : F64.float
}.

Record RAGResponse : Type := mkResponse {
  answer : string;
  citations : list Citation;
  confidence : F64.float;
  model_used : string;
  processing_time : F64.float;
  context_used : string
}.

(** *** MMR reranking *)

Section MMR.

(** [sklearn.metrics.pairwise.cosine_similarity] on two row vectors. *)
Variable cosine_similarity : list F64.float -> list F64.float -> F64.float.

(** [max(mmr_scores, key=lambda x: x[1])]: the first entry whose score no
    later entry exceeds. *)
Fixpoint max_by_score (best : nat * F64.float)
  (rest : list (nat * F64.float)) : nat * F64.float :=
  match rest with
  | [] => best
  | x :: rest' =>
      max_by_score (if F64.gtb (snd x) (snd best) then x else best) rest'
  end.

(** [np.max] of a non-empty row. *)
Definition np_max (xs : list F64.float) : F64.float :=
  match xs with
  | [] => F64.of_Z 0
  | x :: xs' => fold_left F64.max xs' x
  end.

(** [list.remove(x)]: drops the first occurrence. *)
Fixpoint remove_first (x : nat) (l : list nat) : list nat :=
  match l with
  | [] => []
  | y :: l' => if Nat.eqb x y then l' else y :: remove_first x l'
  end.

Definition zero_vector (n : nat) : list F64.float := repeat (F64.of_Z 0) n.

(** The embedding row of a candidate: a zero vector if it has none. *)
Definition embedding_row (query_embedding : list F64.float)
  (c : DocumentChunk) : list F64.float :=
  match chunk_embedding c with
  | Some (x :: v) => x :: v
  | _ => zero_vector (List.length query_embedding)
  end.

Definition mmr_score (lambda_param : F64.float)
  (query_vec : list F64.float) (chunk_vecs : list (list F64.float))
  (selected_indices : list nat) (idx : nat) : F64.float :=
  let vec := nth idx chunk_vecs [] in
  let relevance := cosine_similarity query_vec vec in
  let max_similarity :=
    match selected_indices with
    | [] => F64.of_Z 0
    | _ :: _ =>
        np_max (map (fun j => cosine_similarity vec (nth j chunk_vecs []))
                  selected_indices)
    end in
  F64.sub (F64.mul lambda_param relevance)
    (F64.mul (F64.sub (F64.of_Z 1) lambda_param) max_similarity).

(** The [while] loop; it runs at most once per remaining index, which is
    what [fuel] counts. *)
Fixpoint mmr_loop (fuel : nat) (lambda_param : F64.float)
  (query_vec : list F64.float) (chunk_vecs : list (list F64.float))
  (limit : Z) (selected_indices remaining_indices : list nat) : list nat :=
  match fuel with
  | O => selected_indices
  | S fuel' =>
      if Z.of_nat (List.length selected_indices) <? limit then
        match remaining_indices with
        | [] => selected_indices
        | first :: others =>
            let score :=
              mmr_score lambda_param query_vec chunk_vecs selected_indices in
            let best_idx :=
              fst (max_by_score (first, score first)
                     (map (fun idx => (idx, score idx)) others)) in
            mmr_loop fuel' lambda_param query_vec chunk_vecs limit
              (selected_indices ++ [best_idx])%list
              (remove_first best_idx remaining_indices)
        end
      else selected_indices
  end.

Definition _apply_mmr_reranking
  (chunk_results : list (DocumentChunk * F64.float))
  (query_embedding : list F64.float) (limit : Z) (lambda_param : F64.float)
  : result (list (DocumentChunk * F64.float)) :=
  if Z.of_nat (List.length chunk_results) <=? limit then Ok chunk_results
  else
    match chunk_results with
    | [] => Raise (ValueError "list.remove(x): x not in list")
    | first :: _ =>
        let chunk_vecs :=
          map (fun r => embedding_row query_embedding (fst r)) chunk_results in
        let remaining_indices := seq 1 (List.length chunk_results - 1) in
        let selected_indices :=
          mmr_loop (List.length remaining_indices) lambda_param
            query_embedding chunk_vecs limit [0%nat] remaining_indices in
        Ok (map (fun i => nth i chunk_results first) selected_indices)
    end.

End MMR.

(** The default [lambda_param=0.7]. *)
Definition default_lambda : F64.float := F64.dec 7 10.

(** A reference cosine similarity of two rows, for the examples only: the
    dot product of the rows scaled to unit Euclidean norm (a zero row is
    left as it is), with sums running left to right.  It is the quantity
    that [sklearn.metrics.pairwise.cosine_similarity] computes, not its
    code: [sklearn] may differ from it in the last bits, and raises
    [ValueError] for rows of different dimension where [combine] drops the
    surplus.  The statements about re-ranking take the similarity as a
    parameter; this one is used at inputs on which both agree. *)
Definition dot (x y : list F64.float) : F64.float :=
  fold_left F64.add (map (fun p => F64.mul (fst p) (snd p)) (combine x y))
    (F64.of_Z 0).

Definition normalize (x : list F64.float) : list F64.float :=
  let norm := F64.sqrt (dot x x) in
  let norm := if F64.eqb norm (F64.of_Z 0) then F64.of_Z 1 else norm in
  map (fun v => F64.div v norm) x.

Definition cosine_similarity_rows (x y : list F64.float) : F64.float :=
  dot (normalize x) (normalize y).

(** *** Context window *)

Definition section_line (chunk : DocumentChunk) : string :=
  let chunk_text := Str.strip (chunk_text chunk) in
  let page_info :=
    match chunk_page chunk with
    | Some p => if p =? 0 then "" else " (Page " ++ Str.of_int p ++ ")"
    | None => ""
    end in
  chunk_text ++ page_info ++ nl.

Definition chunks_to_include (result : SearchResult) : list DocumentChunk :=
  match sr_context_chunks result with
  | Some (c :: cs) => sorted_by_chunk_no (c :: cs)
  | _ => [sr_chunk result]
  end.

Definition section_text (result : SearchResult) : string :=
  let document_title :=
    match sr_document result with
    | Some d => doc_title d
    | None => "Unknown Document"
    end in
  fold_left (fun text chunk => text ++ section_line chunk)
    (chunks_to_include result)
    (nl ++ "--- From: " ++ document_title ++ " ---" ++ nl).

Definition truncation_notice : string := nl ++ "[... truncated ...]".

(** The loop of [get_context_window], with its [break]. *)
Fixpoint context_parts (search_results : list SearchResult)
  (max_context_length : Z) (parts : list string) (current_length : Z)
  : list string :=
  match search_results with
  | [] => parts
  | result :: rest =>
      let text := section_text result in
      if max_context_length <? current_length + Str.len text then
        if current_length =? 0 then
          let remaining_space := max_context_length - 100 in
          (parts ++
           [(Str.slice_to text remaining_space ++ truncation_notice)%string])
            %list
        else parts
      else
        context_parts rest max_context_length (parts ++ [text])%list
          (current_length + Str.len text)
  end.

(** The sum of the section lengths of some results. *)
Definition sections_length (search_results : list SearchResult) : Z :=
  fold_right (fun result total => Str.len (section_text result) + total) 0
    search_results.

Definition get_context_window (search_results : list SearchResult)
  (max_context_length : Z) : string :=
  Str.join nl (context_parts search_results max_context_length [] 0).

(** *** Citations *)

Definition citation_of (result : SearchResult) (d : Document) : Citation :=
  let text := chunk_text (sr_chunk result) in
  {| cit_document_id := chunk_document_id (sr_chunk result);
     cit_document_title := doc_title d;
     cit_page := chunk_page (sr_chunk result);
     cit_chunk_id := chunk_id (sr_chunk result);
     cit_text :=
       if 200 <? Str.len text then Str.slice_to text 200 ++ "..." else text;
     cit_relevance_score := sr_similarity_score result |}.

(** [citations.sort(key=..., reverse=True)]: stable, descending. *)
Fixpoint insert_citation (c : Citation) (sorted : list Citation)
  : list Citation :=
  match sorted with
  | [] => [c]
  | d :: rest =>
      if F64.ltb (cit_relevance_score d) (cit_relevance_score c)
      then c :: sorted
      else d :: insert_citation c rest
  end.

Definition extract_citations (search_results : list SearchResult)
  (response_text : string) : list Citation :=
  let citations :=
    flat_map (fun result =>
                match sr_document result with
                | Some d => [citation_of result d]
                | None => []
                end) search_results in
  fold_left (fun acc c => insert_citation c acc) citations [].

(** *** The services behind a query

    Calls that leave the process are recorded, in order, in a log that the
    computation threads; a call may raise. *)

Inductive event : Type :=
| EmbeddingCall (text : string)
| LLMCall (model : string).

Definition is_llm_call (e : event) : bool :=
  match e with
  | LLMCall _ => true
  | EmbeddingCall _ => false
  end.

Definition M (A : Type) : Type := list event -> result A * list event.

Definition ret {A : Type} (a : A) : M A := fun log => (Ok a, log).

Definition raise {A : Type} (e : exn) : M A := fun log => (Raise e, log).

Definition mbind {A B : Type} (m : M A) (k : A -> M B) : M B :=
  fun log =>
    match m log with
    | (Ok a, log') => k a log'
    | (Raise e, log') => (Raise e, log')
    end.

(** [try: m except Exception as e: handler(e)] *)
Definition try_except {A : Type} (m : M A) (handler : exn -> M A) : M A :=
  fun log =>
    match m log with
    | (Ok a, log') => (Ok a, log')
    | (Raise e, log') => handler e log'
    end.

Definition lift {A : Type} (r : result A) : M A := fun log => (r, log).

Definition emit (e : event) : M unit := fun log => (Ok tt, (log ++ [e])%list).

Declare Scope rag_scope.
Delimit Scope rag_scope with rag.
Notation "'do' x '<-' m ';' k" := (mbind m (fun x => k))
  (at level 10, x name, m at level 100, k at level 200) : rag_scope.

Local Open Scope rag_scope.

Fixpoint mapM {A B : Type} (f : A -> M B) (xs : list A) : M (list B) :=
  match xs with
  | [] => ret []
  | x :: xs' =>
      do y <- f x;
      do ys <- mapM f xs';
      ret (y :: ys)
  end.

(** The collaborators of the RAG pipeline: the embedding provider, the
    repositories and the Anthropic client. *)
Record Services : Type := mkServices {
  embed_query : string -> result (list F64.float);
  chunk_similarity_search :
    list F64.float -> string -> option (list UUID) -> Z -> F64.float ->
    result (list (DocumentChunk * F64.float));
  rag_document_get_by_id : UUID -> string -> result (option Document);
  chunk_get_nearby_chunks :
    UUID -> string -> Z -> result (list DocumentChunk);
  messages_create : string -> string -> string -> result string;
  cosine : list F64.float -> list F64.float -> F64.float
}.

Section Query.

Variable svc : Services.

Definition generate_query_embedding (query : string)
  : M (list F64.float) :=
  do _ <- emit (EmbeddingCall query);
  lift (embed_query svc query).

Definition search (query org_id : string) (document_ids : option (list UUID))
  (limit : Z) (similarity_threshold : F64.float) (include_context : bool)
  (context_size : Z) : M (list SearchResult) :=
  do query_embedding <- generate_query_embedding query;
  do chunk_results <-
    lift (chunk_similarity_search svc query_embedding org_id document_ids
            (limit * 2) similarity_threshold);
  match chunk_results with
  | [] => ret []
  | _ :: _ =>
      do reranked_chunks <-
        lift (_apply_mmr_reranking (cosine svc) chunk_results query_embedding
                limit default_lambda);
      mapM (fun r =>
              let '(chunk, similarity_score) := r in
              do document <-
                lift (rag_document_get_by_id svc (chunk_document_id chunk)
                        org_id);
              do context_chunks <-
                (if include_context then
                   do cs <-
                     lift (chunk_get_nearby_chunks svc (chunk_id chunk) org_id
                             context_size);
                   ret (Some cs)
                 else ret None);
              ret {| sr_chunk := chunk;
                     sr_similarity_score := similarity_score;
                     sr_document := document;
                     sr_context_chunks := context_chunks |})
        reranked_chunks
  end.

(** [ClaudeAPIService] *)

Definition fallback_model : string := "claude-3-sonnet-20240229".

Definition _get_model_for_plan (plan : string) : string :=
  let p := Str.lower plan in
  if String.eqb p "free" then "claude-3-haiku-20240307"
  else if String.eqb p "pro" then "claude-3-sonnet-20240229"
  else if String.eqb p "enterprise" then "claude-3-opus-20240229"
  else fallback_model.

Definition _make_api_call (model system_prompt user_prompt : string)
  : M string :=
  do _ <- emit (LLMCall model);
  lift (messages_create svc model system_prompt user_prompt).

Definition uncertainty_phrases : list string :=
  ["not clear"; "unclear"; "insufficient information";
   "cannot determine"; "may be"; "might be"; "possibly"].

Definition _calculate_confidence (response context : string) : F64.float :=
  let confidence := F64.dec 5 10 in
  let low := Str.lower response in
  let confidence :=
    if (Str.contains "page" low || Str.contains "section" low)%bool
    then F64.add confidence (F64.dec 2 10) else confidence in
  let confidence :=
    if 200 <? Str.len response
    then F64.add confidence (F64.dec 1 10) else confidence in
  let confidence :=
    if existsb (fun phrase => Str.contains phrase low) uncertainty_phrases
    then F64.sub confidence (F64.dec 1 10) else confidence in
  F64.max (F64.of_Z 0) (F64.min (F64.of_Z 1) confidence).

Definition system_prompt : string :=
  "You are an expert legal AI assistant specializing in contract analysis. Your role is to:

1. Provide accurate, precise answers based solely on the provided document context
2. Include specific citations with page numbers when available
3. Highlight potential risks, missing clauses, or important legal considerations
4. Use clear, professional language appropriate for legal professionals
5. If information is not in the provided context, clearly state this limitation

Always structure your responses with:
- Direct answer to the question
- Supporting evidence from the documents with citations
- Any relevant legal considerations or risks
- Confidence level in your analysis".

Definition user_prompt (query context : string) : string :=
  "Based on the following contract documents, please answer this question:

QUESTION: " ++ query ++ "

DOCUMENT CONTEXT:
" ++ context ++ "

Please provide a comprehensive answer with specific citations to page numbers where available. If the documents don't contain sufficient information to fully answer the question, please indicate what information is missing.".

Definition generate_response (query context plan : string)
  : M (string * string * F64.float) :=
  let primary_model := _get_model_for_plan plan in
  let prompt := user_prompt query context in
  try_except
    (do response <- _make_api_call primary_model system_prompt prompt;
     ret (response, primary_model, _calculate_confidence response context))
    (fun e =>
       if negb (String.eqb primary_model fallback_model) then
         do response <- _make_api_call fallback_model system_prompt prompt;
         ret (response, fallback_model,
              _calculate_confidence response context)
       else raise e).

(** [RAGService.query] *)

Definition no_results_answer : string :=
  "I couldn't find any relevant information in the uploaded documents to answer your question. Please make sure the documents contain information related to your query, or try rephrasing your question.".

Definition exn_message (e : exn) : string :=
  match e with
  | ValueError m | TypeError m | ReError m | KeyError m | OverflowError m
  | AttributeError m | UpstreamError m | OutsideFragment m => m
  | MultipleResultsFound =>
      "Multiple rows were found when one or none was required"
  end.

(** [elapsed] is the reading [time.time() - start_time] at the return. *)
Definition query (elapsed : F64.float) (query org_id plan : string)
  (document_ids : option (list UUID)) (max_results : Z)
  (similarity_threshold : F64.float) (max_context_length : Z)
  : M RAGResponse :=
  try_except
    (do search_results <-
       search query org_id document_ids max_results similarity_threshold
         true 2;
     match search_results with
     | [] =>
         ret {| answer := no_results_answer;
                citations := [];
                confidence := F64.of_Z 0;
                model_used := "none";
                processing_time := elapsed;
                context_used := "" |}
     | _ :: _ =>
         let context := get_context_window search_results max_context_length in
         do generated <- generate_response query context plan;
         let '(answer, model_used, confidence) := generated in
         ret {| answer := answer;
                citations := extract_citations search_results answer;
                confidence := confidence;
                model_used := model_used;
                processing_time := elapsed;
                context_used :=
                  if 500 <? Str.len context
                  then Str.slice_to context 500 ++ "..." else context |}
     end)
    (fun e =>
       ret {| answer :=
                "I encountered an error while processing your question: "
                ++ exn_message e
                ++ ". Please try again or contact support if the issue persists.";
              citations := [];
              confidence := F64.of_Z 0;
              model_used := "error";
              processing_time := elapsed;
              context_used := "" |}).

End Query.

End Rag.

(** ** [repositories/document_comparison.py] and
       [services/document_comparison.py] *)

Module Comparison.

Local Open Scope string_scope.
Local Open Scope Z_scope.
Local Open Scope result_scope.

Inductive ChangeType : Type := ADDED | REMOVED | MODIFIED | UNCHANGED.

Record TextChange : Type := mkTextChange {
  tc_change_type : ChangeType;
  tc_text : string;
  tc_line_number : option Z;
  tc_page_number : option Z;
  tc_confidence : F64.float
}.

Record ClauseChange : Type := mkClauseChange {
  cc_change_type : ChangeType;
  cc_clause_type : string;
  cc_old_text : option string;
  cc_new_text : option string;
  cc_risk_impact : string;
  cc_page_number : option Z
}.

Record ComparisonResult : Type := mkComparison {
  document_a_id : UUID;
  document_b_id : UUID;
  text_changes : list TextChange;
  clause_changes : list ClauseChange;
  similarity_score : F64.float;
  risk_assessment : jdict;
  comparison_summary : string
}.

(** A row of [document_comparisons].  The migration declares
    [comparison_result], [risk_assessment] (both JSONB) and [summary]
    nullable: such a column holds [None] or, for JSONB, any JSON value. *)
Record DocumentComparison : Type := mkRow {
  dc_id : UUID;
  dc_org_id : string;
  dc_document_a_id : UUID;
  dc_document_b_id : UUID;
  dc_comparison_result : option json;
  dc_risk_assessment : option json;
  dc_summary : option string;
  dc_created_by : UUID;
  dc_created_at : Z
}.

Definition table : Type := list DocumentComparison.

(** *** The repository *)

(** The row-level-security policy: rows of the current organization. *)
Definition visible (org_id : string) (t : table) : table :=
  filter (fun row => String.eqb (dc_org_id row) org_id) t.

(** The [where] clause of [get_by_documents]. *)
Definition pair_matches (a b : UUID) (row : DocumentComparison) : bool :=
  ((N.eqb (dc_document_a_id row) a && N.eqb (dc_document_b_id row) b)
   || (N.eqb (dc_document_a_id row) b && N.eqb (dc_document_b_id row) a))%bool.

(** [result.scalar_one_or_none()]; the [order_by] does not change which of
    the three cases applies. *)
Definition scalar_one_or_none {A : Type} (rows : list A) : result (option A) :=
  match rows with
  | [] => Ok None
  | [row] => Ok (Some row)
  | _ :: _ :: _ => Raise MultipleResultsFound
  end.

Definition get_by_documents (t : table) (a b : UUID) (org_id : string)
  : result (option DocumentComparison) :=
  scalar_one_or_none (filter (pair_matches a b) (visible org_id t)).

(** *** The service *)

Definition _calculate_similarity_score (text_changes : list TextChange)
  : F64.float :=
  match text_changes with
  | [] => F64.of_Z 1
  | _ :: _ =>
      let total_changes := Z.of_nat (List.length text_changes) in
      if total_changes <? 10 then F64.dec 9 10
      else if total_changes <? 50 then F64.dec 7 10
      else if total_changes <? 100 then F64.dec 5 10
      else F64.dec 3 10
  end.

(** The score as a function of the number of changes alone. *)
Definition score_of_count (n : Z) : F64.float :=
  if n =? 0 then F64.of_Z 1
  else if n <? 10 then F64.dec 9 10
  else if n <? 50 then F64.dec 7 10
  else if n <? 100 then F64.dec 5 10
  else F64.dec 3 10.

(** *** Stored comparisons: writing and reading the JSON columns *)

(** [change_type.value] *)
Definition change_type_value (c : ChangeType) : string :=
  match c with
  | ADDED => "added"
  | REMOVED => "removed"
  | MODIFIED => "modified"
  | UNCHANGED => "unchanged"
  end.

Definition json_of_int (v : option Z) : json :=
  match v with
  | Some z => JInt z
  | None => JNull
  end.

Definition json_of_str (v : option string) : json :=
  match v with
  | Some s => JStr s
  | None => JNull
  end.

(** The dictionaries that [_store_comparison_result] builds for the
    [comparison_result] column. *)
Definition text_change_json (change : TextChange) : json :=
  JDict [("change_type", JStr (change_type_value (tc_change_type change)));
         ("text", JStr (tc_text change));
         ("line_number", json_of_int (tc_line_number change));
         ("page_number", json_of_int (tc_page_number change));
         ("confidence", JFloat (tc_confidence change))].

Definition clause_change_json (change : ClauseChange) : json :=
  JDict [("change_type", JStr (change_type_value (cc_change_type change)));
         ("clause_type", JStr (cc_clause_type change));
         ("old_text", json_of_str (cc_old_text change));
         ("new_text", json_of_str (cc_new_text change));
         ("risk_impact", JStr (cc_risk_impact change));
         ("page_number", json_of_int (cc_page_number change))].

Definition comparison_result_json (result : ComparisonResult) : json :=
  JDict [("text_changes", JArr (map text_change_json (text_changes result)));
         ("clause_changes",
          JArr (map clause_change_json (clause_changes result)));
         ("similarity_score", JFloat (similarity_score result))].

(** The row holds what [_store_comparison_result] puts into
    [comparison_data] for [result]. *)
Definition stores (row : DocumentComparison) (result : ComparisonResult)
  : Prop :=
  dc_document_a_id row = document_a_id result /\
  dc_document_b_id row = document_b_id result /\
  dc_comparison_result row = Some (comparison_result_json result) /\
  dc_risk_assessment row = Some (JDict (risk_assessment result)) /\
  dc_summary row = Some (comparison_summary result).

(** A stored value of a type that the annotations of the dataclasses
    exclude.  Python carries such a value along unchecked; the records of
    the model cannot hold it. *)
Definition ill_typed {A : Type} : result A :=
  Raise (OutsideFragment "stored value of an unexpected type").

(** [value.get]: only a dictionary has the method. *)
Definition as_dict (v : option json) : result jdict :=
  match v with
  | Some (JDict d) => Ok d
  | _ => Raise (AttributeError "object has no attribute 'get'")
  end.

(** [for change in value]: the elements of a list, the keys of a
    dictionary, the characters of a string. *)
Definition iterate (v : json) : result (list json) :=
  match v with
  | JArr l => Ok l
  | JDict d => Ok (map (fun entry => JStr (fst entry)) d)
  | JStr s => Ok (map (fun c => JStr (String c EmptyString)) (Str.chars s))
  | JNull | JBool _ | JInt _ | JFloat _ =>
      Raise (TypeError "object is not iterable")
  end.

(** [change[key]] *)
Definition subscript (change : json) (key : string) : result json :=
  match change with
  | JDict d =>
      match jget key d with
      | Some v => Ok v
      | None => Raise (KeyError key)
      end
  | JStr _ => Raise (TypeError "string indices must be integers")
  | JArr _ => Raise (TypeError "list indices must be integers or slices")
  | JNull | JBool _ | JInt _ | JFloat _ =>
      Raise (TypeError "object is not subscriptable")
  end.

(** [ChangeType(value)]; the message of the error names the value. *)
Definition change_type_of (v : json) : result ChangeType :=
  let invalid := Raise (ValueError "is not a valid ChangeType") in
  match v with
  | JStr s =>
      if String.eqb s "added" then Ok ADDED
      else if String.eqb s "removed" then Ok REMOVED
      else if String.eqb s "modified" then Ok MODIFIED
      else if String.eqb s "unchanged" then Ok UNCHANGED
      else invalid
  | _ => invalid
  end.

Definition as_str (v : json) : result string :=
  match v with
  | JStr s => Ok s
  | _ => ill_typed
  end.

(** [change.get(key)] where an [Optional[int]] is expected. *)
Definition optional_int (v : option json) : result (option Z) :=
  match v with
  | None | Some JNull => Ok None
  | Some (JInt z) => Ok (Some z)
  | Some _ => ill_typed
  end.

(** [change.get(key)] where an [Optional[str]] is expected. *)
Definition optional_str (v : option json) : result (option string) :=
  match v with
  | None | Some JNull => Ok None
  | Some (JStr s) => Ok (Some s)
  | Some _ => ill_typed
  end.

(** [d.get(key, default)] where a [float] is expected. *)
Definition float_or (default : F64.float) (v : option json)
  : result F64.float :=
  match v with
  | None => Ok default
  | Some (JFloat f) => Ok f
  | Some _ => ill_typed
  end.

(** [d.get(key, default)] where a [str] is expected. *)
Definition str_or (default : string) (v : option json) : result string :=
  match v with
  | None => Ok default
  | Some (JStr s) => Ok s
  | Some _ => ill_typed
  end.

(** A list comprehension whose element expression may raise. *)
Fixpoint comprehension {A : Type} (f : json -> result A) (l : list json)
  : result (list A) :=
  match l with
  | [] => Ok []
  | x :: l' =>
      let* a := f x in
      let* rest := comprehension f l' in
      Ok (a :: rest)
  end.

(** The arguments of [TextChange(...)], in the order of evaluation. *)
Definition parse_text_change (change : json) : result TextChange :=
  let* change_type := subscript change "change_type" in
  let* change_type := change_type_of change_type in
  let* text := subscript change "text" in
  let* text := as_str text in
  let* fields := as_dict (Some change) in
  let* line_number := optional_int (jget "line_number" fields) in
  let* page_number := optional_int (jget "page_number" fields) in
  let* confidence := float_or (F64.of_Z 1) (jget "confidence" fields) in
  Ok {| tc_change_type := change_type;
        tc_text := text;
        tc_line_number := line_number;
        tc_page_number := page_number;
        tc_confidence := confidence |}.

(** The arguments of [ClauseChange(...)], in the order of evaluation. *)
Definition parse_clause_change (change : json) : result ClauseChange :=
  let* change_type := subscript change "change_type" in
  let* change_type := change_type_of change_type in
  let* clause_type := subscript change "clause_type" in
  let* clause_type := as_str clause_type in
  let* fields := as_dict (Some change) in
  let* old_text := optional_str (jget "old_text" fields) in
  let* new_text := optional_str (jget "new_text" fields) in
  let* risk_impact := str_or "low" (jget "risk_impact" fields) in
  let* page_number := optional_int (jget "page_number" fields) in
  Ok {| cc_change_type := change_type;
        cc_clause_type := clause_type;
        cc_old_text := old_text;
        cc_new_text := new_text;
        cc_risk_impact := risk_impact;
        cc_page_number := page_number |}.

(** [comparison_data.get(key, [])] *)
Definition get_or_empty_list (key : string) (d : jdict) : json :=
  match jget key d with
  | Some v => v
  | None => JArr []
  end.

(** [stored_comparison.risk_assessment or {}]: the value unless it is
    [None] or another false value. *)
Definition risk_assessment_or_empty (v : option json) : result jdict :=
  match v with
  | None | Some JNull | Some (JBool false) | Some (JArr [])
  | Some (JStr EmptyString) => Ok []
  | Some (JDict d) => Ok d
  | Some (JInt z) => if z =? 0 then Ok [] else ill_typed
  | Some (JFloat f) => if F64.eqb f (F64.of_Z 0) then Ok [] else ill_typed
  | Some _ => ill_typed
  end.

(** [stored_comparison.summary or ""] *)
Definition summary_or_empty (v : option string) : string :=
  match v with
  | Some s => s
  | None => ""
  end.

Definition _parse_stored_comparison (stored : DocumentComparison)
  : result ComparisonResult :=
  let* comparison_data := as_dict (dc_comparison_result stored) in
  let* changes := iterate (get_or_empty_list "text_changes" comparison_data) in
  let* text_changes := comprehension parse_text_change changes in
  let* changes :=
    iterate (get_or_empty_list "clause_changes" comparison_data) in
  let* clause_changes := comprehension parse_clause_change changes in
  let* similarity_score :=
    float_or (F64.of_Z 0) (jget "similarity_score" comparison_data) in
  let* risk_assessment :=
    risk_assessment_or_empty (dc_risk_assessment stored) in
  Ok {| document_a_id := dc_document_a_id stored;
        document_b_id := dc_document_b_id stored;
        text_changes := text_changes;
        clause_changes := clause_changes;
        similarity_score := similarity_score;
        risk_assessment := risk_assessment;
        comparison_summary := summary_or_empty (dc_summary stored) |}.

(** [text.split(sep)] for the one-character separator [sep]. *)
Fixpoint split_on (sep : ascii) (s : string) : list string :=
  match s with
  | EmptyString => [EmptyString]
  | String c s' =>
      if Ascii.eqb c sep then EmptyString :: split_on sep s'
      else
        match split_on sep s' with
        | [] => [String c EmptyString]
        | first :: rest => String c first :: rest
        end
  end.

Definition _combine_chunks_to_text (chunks : list DocumentChunk) : string :=
  match chunks with
  | [] => ""
  | _ :: _ => Str.join Rag.nl (map chunk_text (sorted_by_chunk_no chunks))
  end.

(** The loop over the lines of the unified diff. *)
Fixpoint diff_changes (diff : list string) (line_num : Z) : list TextChange :=
  match diff with
  | [] => []
  | line :: rest =>
      if (Str.startswith "+++" line || Str.startswith "---" line
          || Str.startswith "@@" line)%bool
      then diff_changes rest line_num
      else
        let line_num := line_num + 1 in
        let change kind :=
          {| tc_change_type := kind;
             tc_text := Str.drop 1 line;
             tc_line_number := Some line_num;
             tc_page_number := None;
             tc_confidence := F64.of_Z 1 |} in
        if Str.startswith "+" line then
          change ADDED :: diff_changes rest line_num
        else if Str.startswith "-" line then
          change REMOVED :: diff_changes rest line_num
        else diff_changes rest line_num
  end.

(** A stored clause, as the clause repository returns it. *)
Record Clause : Type := mkClause {
  clause_type : option string;
  clause_text : string;
  clause_page : option Z
}.

(** What [compare_documents] awaits or calls besides the comparison
    repository's lookup: the other repositories, [difflib], the clause-level
    comparison and risk assessment (which no statement below depends on),
    and the insertion of the new row. *)
Record Env : Type := mkEnv {
  get_with_chunks : UUID -> string -> result (option (list DocumentChunk));
  clauses_by_document : UUID -> string -> result (list Clause);
  unified_diff : list string -> list string -> list string;
  _compare_clauses : list Clause -> list Clause -> list ClauseChange;
  _assess_change_risks : list ClauseChange -> list TextChange -> jdict;
  _generate_comparison_summary :
    list TextChange -> list ClauseChange -> F64.float -> string;
  _store_comparison_result :
    table -> ComparisonResult -> string -> UUID -> result unit * table
}.

Section Service.

Variable env : Env.

Definition _compare_text_content (chunks_a chunks_b : list DocumentChunk)
  : list TextChange :=
  let lines_a := split_on Re.newline (_combine_chunks_to_text chunks_a) in
  let lines_b := split_on Re.newline (_combine_chunks_to_text chunks_b) in
  diff_changes (unified_diff env lines_a lines_b) 0.

(** The part of [compare_documents] after the lookup found nothing. *)
Definition compare_fresh (t : table) (a b : UUID) (org_id : string)
  (user_id : UUID) : result ComparisonResult * table :=
  match get_with_chunks env a org_id, get_with_chunks env b org_id with
  | Raise e, _ => (Raise e, t)
  | Ok _, Raise e => (Raise e, t)
  | Ok (Some doc_a), Ok (Some doc_b) =>
      match clauses_by_document env a org_id,
            clauses_by_document env b org_id with
      | Raise e, _ => (Raise e, t)
      | Ok _, Raise e => (Raise e, t)
      | Ok clauses_a, Ok clauses_b =>
          let text_changes := _compare_text_content doc_a doc_b in
          let clause_changes := _compare_clauses env clauses_a clauses_b in
          let similarity_score := _calculate_similarity_score text_changes in
          let result :=
            {| document_a_id := a;
               document_b_id := b;
               text_changes := text_changes;
               clause_changes := clause_changes;
               similarity_score := similarity_score;
               risk_assessment :=
                 _assess_change_risks env clause_changes text_changes;
               comparison_summary :=
                 _generate_comparison_summary env text_changes clause_changes
                   similarity_score |} in
          match _store_comparison_result env t result org_id user_id with
          | (Ok _, t') => (Ok result, t')
          | (Raise e, t') => (Raise e, t')
          end
      end
  | _, _ => (Raise (ValueError "One or both documents not found"), t)
  end.

Definition compare_documents (t : table) (a b : UUID) (org_id : string)
  (user_id : UUID) : result ComparisonResult * table :=
  match get_by_documents t a b org_id with
  | Raise e => (Raise e, t)
  | Ok (Some existing_comparison) =>
      (_parse_stored_comparison existing_comparison, t)
  | Ok None => compare_fresh t a b org_id user_id
  end.

End Service.

End Comparison.

(** ** [services/playbook_templates.py]: the patterns of the rule
    templates *)

Module PlaybookTemplates.

Local Open Scope string_scope.






End PlaybookTemplates.

(** ** Concrete inputs used in the examples below *)

Module Examples.

Import Compliance.
Local Open Scope string_scope.
Local Open Scope Z_scope.

Definition chunk_of (no : Z) (text : string) : DocumentChunk :=
  {| chunk_id := Z.to_N (no + 100);
     chunk_document_id := 1%N;
     chunk_no := no;
     chunk_text := text;
     chunk_page := Some 1;
     chunk_embedding := None |}.

(** The rule of the example scenario: required, one pattern, weight 0.9. *)
Definition indemnity_rule : ComplianceRule :=
  {| rule_id := "indemnity_clause";
     rule_name := "Indemnity Clause";
     rule_description := JStr "";
     rule_clause_type := "indemnity";
     rule_required := true;
     rule_patterns := ["indemnify"];
     rule_risk_weight := F64.dec 9 10;
     rule_recommendations := [JStr "Add mutual indemnity clause"] |}.

Definition silent_chunks : list DocumentChunk :=
  [chunk_of 0 "This Agreement is governed by the laws of Ohio."].

(** The same rule with a pattern anchored at the start of the searched
    text. *)
Definition anchored_rule : ComplianceRule :=
  {| rule_id := "indemnity_clause";
     rule_name := "Indemnity Clause";
     rule_description := JStr "";
     rule_clause_type := "indemnity";
     rule_required := true;
     rule_patterns := ["^indemnify"];
     rule_risk_weight := F64.dec 9 10;
     rule_recommendations := [JStr "Add mutual indemnity clause"] |}.

(** A document whose second chunk starts with the clause. *)
Definition payment_then_indemnity : list DocumentChunk :=
  [chunk_of 0 "Payment is due in 30 days.";
   chunk_of 1 "Indemnify the Customer against all claims."].



Definition upper_case_chunks : list DocumentChunk :=
  [chunk_of 0 "THE SUPPLIER SHALL INDEMNIFY THE CUSTOMER."].

(** A playbook that passes schema validation and whose first rule carries
    a pattern that [re.compile] rejects. *)
Definition broken_rule_json : jdict :=
  [("id", JStr "late_fees"); ("name", JStr "Late Fees");
   ("clause_type", JStr "payment"); ("required", JBool false);
   ("patterns", JArr [JStr "*late fee"]); ("risk_weight", JFloat (F64.dec 5 10))].

Definition broken_rule : ComplianceRule :=
  {| rule_id := "late_fees";
     rule_name := "Late Fees";
     rule_description := JStr "";
     rule_clause_type := "payment";
     rule_required := false;
     rule_patterns := ["*late fee"];
     rule_risk_weight := F64.dec 5 10;
     rule_recommendations := [] |}.

Definition indemnity_rule_json : jdict :=
  [("id", JStr "indemnity_clause"); ("name", JStr "Indemnity Clause");
   ("clause_type", JStr "indemnity"); ("required", JBool true);
   ("patterns", JArr [JStr "indemnify"]);
   ("risk_weight", JFloat (F64.dec 9 10));
   ("recommendations", JArr [JStr "Add mutual indemnity clause"])].

Definition broken_playbook : Playbook :=
  {| playbook_id := 7%N;
     rules_json :=
       [("version", JStr "1.0"); ("name", JStr "House Playbook");
        ("rules", JArr [JDict broken_rule_json; JDict indemnity_rule_json])] |}.

Definition supplier_chunks : list DocumentChunk :=
  [chunk_of 0 "The Supplier shall indemnify and hold harmless the Customer."].

Definition broken_repos : Repos :=
  {| document_get_by_id := fun id _ => Ok (Some (mkDocument id "Supply Contract"));
     playbook_get_by_id := fun _ _ => Ok (Some broken_playbook);
     playbook_get_default := fun _ => Ok (Some broken_playbook);
     chunk_get_by_document := fun _ _ => Ok supplier_chunks |}.

(** A contract whose first chunk holds the phrase of the example scenario
    and whose second chunk uses the verb again, away from any legal
    keyword. *)
Definition two_clause_chunks : list DocumentChunk :=
  [chunk_of 0 "The Supplier shall indemnify and hold harmless the Customer.";
   chunk_of 1 "Each side will indemnify the other."].

(** The result of a rule, reduced to what the aggregation reads. *)
Definition result_with (id : string) (status : ComplianceStatus)
  (missing : bool) (risk : F64.float) : ComplianceResult :=
  {| res_rule_id := id;
     res_rule_name := id;
     res_status := status;
     res_matched_clauses := [];
     res_missing_clause := missing;
     res_risk_score := risk;
     res_recommendations := [] |}.

(** One missing required rule of weight 0.95 and two satisfied rules:
    risk scores 95, 0 and 0. *)
Definition three_results : list ComplianceResult :=
  [result_with "liability_cap" NON_COMPLIANT true
     (F64.mul (F64.dec 95 100) (F64.of_Z 100));
   result_with "governing_law" COMPLIANT false (F64.of_Z 0);
   result_with "force_majeure" COMPLIANT false (F64.of_Z 0)].

(** Three near-duplicate chunks and one distinct chunk, with the query they
    were retrieved for; the similarity scores are those of the retrieval. *)
Definition embedded_chunk (no : Z) (text : string) (v : list Z)
  : DocumentChunk :=
  {| chunk_id := Z.to_N (no + 100);
     chunk_document_id := 1%N;
     chunk_no := no;
     chunk_text := text;
     chunk_page := Some 1;
     chunk_embedding := Some (map F64.of_Z v) |}.

Definition mmr_query : list F64.float := [F64.of_Z 1; F64.of_Z 0].

Definition duplicate_1 : DocumentChunk :=
  embedded_chunk 0 "Supplier shall indemnify Customer." [1; 0].
Definition duplicate_2 : DocumentChunk :=
  embedded_chunk 1 "The Supplier shall indemnify the Customer." [10; 1].
Definition duplicate_3 : DocumentChunk :=
  embedded_chunk 2 "Supplier shall indemnify the Customer." [10; -1].
Definition distinct_chunk : DocumentChunk :=
  embedded_chunk 3 "Liability is capped at the fees paid." [4; 3].

Definition similarity_to_query (c : DocumentChunk) : F64.float :=
  Rag.cosine_similarity_rows mmr_query (Rag.embedding_row mmr_query c).

Definition mmr_pool : list (DocumentChunk * F64.float) :=
  map (fun c => (c, similarity_to_query c))
    [duplicate_1; duplicate_2; duplicate_3; distinct_chunk].

(** Two near-duplicates and a chunk that points away from them while
    staying relevant to the query. *)
Definition diverse_pool : list (DocumentChunk * F64.float) :=
  map (fun c => (c, similarity_to_query c))
    [embedded_chunk 0 "Supplier shall indemnify Customer." [10; 3];
     embedded_chunk 1 "The Supplier shall indemnify the Customer." [20; 7];
     embedded_chunk 2 "Liability is capped at the fees paid." [10; -4]].



(** An index without chunks: every similarity search comes back empty. *)
Definition empty_index : Rag.Services :=
  {| Rag.embed_query := fun _ => Ok [F64.of_Z 1; F64.of_Z 0];
     Rag.chunk_similarity_search := fun _ _ _ _ _ => Ok [];
     Rag.rag_document_get_by_id := fun _ _ => Ok None;
     Rag.chunk_get_nearby_chunks := fun _ _ _ => Ok [];
     Rag.messages_create := fun _ _ _ => Ok "An answer.";
     Rag.cosine := Rag.cosine_similarity_rows |}.

(** A comparison of documents 2 and 1, in that order. *)
Definition stored_result : Comparison.ComparisonResult :=
  {| Comparison.document_a_id := 2%N;
     Comparison.document_b_id := 1%N;
     Comparison.text_changes :=
       [{| Comparison.tc_change_type := Comparison.ADDED;
           Comparison.tc_text := "Either party may terminate.";
           Comparison.tc_line_number := Some 1;
           Comparison.tc_page_number := None;
           Comparison.tc_confidence := F64.of_Z 1 |}];
     Comparison.clause_changes :=
       [{| Comparison.cc_change_type := Comparison.REMOVED;
           Comparison.cc_clause_type := "liability";
           Comparison.cc_old_text := Some "Liability is capped.";
           Comparison.cc_new_text := None;
           Comparison.cc_risk_impact := "high";
           Comparison.cc_page_number := Some 3 |}];
     Comparison.similarity_score := F64.dec 9 10;
     Comparison.risk_assessment := [("overall_risk", JStr "high")];
     Comparison.comparison_summary := "The documents are very similar." |}.

(** The row that holds it, for organization [org-1]. *)
Definition stored_row : Comparison.DocumentComparison :=
  {| Comparison.dc_id := 77%N;
     Comparison.dc_org_id := "org-1";
     Comparison.dc_document_a_id := 2%N;
     Comparison.dc_document_b_id := 1%N;
     Comparison.dc_comparison_result :=
       Some (JDict
         [("text_changes",
           JArr [JDict [("change_type", JStr "added");
                        ("text", JStr "Either party may terminate.");
                        ("line_number", JInt 1);
                        ("page_number", JNull);
                        ("confidence", JFloat (F64.of_Z 1))]]);
          ("clause_changes",
           JArr [JDict [("change_type", JStr "removed");
                        ("clause_type", JStr "liability");
                        ("old_text", JStr "Liability is capped.");
                        ("new_text", JNull);
                        ("risk_impact", JStr "high");
                        ("page_number", JInt 3)]]);
          ("similarity_score", JFloat (F64.dec 9 10))]);
     Comparison.dc_risk_assessment :=
       Some (JDict [("overall_risk", JStr "high")]);
     Comparison.dc_summary := Some "The documents are very similar.";
     Comparison.dc_created_by := 5%N;
     Comparison.dc_created_at := 1000 |}.

(** A comparison of the same two documents that another organization
    holds. *)
Definition foreign_row : Comparison.DocumentComparison :=
  {| Comparison.dc_id := 78%N;
     Comparison.dc_org_id := "org-2";
     Comparison.dc_document_a_id := 1%N;
     Comparison.dc_document_b_id := 2%N;
     Comparison.dc_comparison_result := None;
     Comparison.dc_risk_assessment := None;
     Comparison.dc_summary := None;
     Comparison.dc_created_by := 6%N;
     Comparison.dc_created_at := 900 |}.

(** A row of [org-1] whose [comparison_result] is NULL. *)
Definition empty_row : Comparison.DocumentComparison :=
  {| Comparison.dc_id := 79%N;
     Comparison.dc_org_id := "org-1";
     Comparison.dc_document_a_id := 3%N;
     Comparison.dc_document_b_id := 4%N;
     Comparison.dc_comparison_result := None;
     Comparison.dc_risk_assessment := None;
     Comparison.dc_summary := None;
     Comparison.dc_created_by := 5%N;
     Comparison.dc_created_at := 1100 |}.

(** Collaborators every one of which fails when it is called. *)
Definition failing_env : Comparison.Env :=
  {| Comparison.get_with_chunks :=
       fun _ _ => Raise (UpstreamError "documents");
     Comparison.clauses_by_document :=
       fun _ _ => Raise (UpstreamError "clauses");
     Comparison.unified_diff := fun _ _ => [];
     Comparison._compare_clauses := fun _ _ => [];
     Comparison._assess_change_risks := fun _ _ => [];
     Comparison._generate_comparison_summary := fun _ _ _ => "";
     Comparison._store_comparison_result :=
       fun t _ _ _ => (Raise (UpstreamError "insert"), t) |}.

Definition one_change : Comparison.TextChange :=
  {| Comparison.tc_change_type := Comparison.ADDED;
     Comparison.tc_text := "Either party may terminate.";
     Comparison.tc_line_number := Some 1;
     Comparison.tc_page_number := None;
     Comparison.tc_confidence := F64.of_Z 1 |}.

End Examples.

(** ** [services/document_comparison.py]: clauses, risks, summary, storage *)

Module ComparisonDetail.

Import Comparison.
Local Open Scope string_scope.
Local Open Scope Z_scope.

Definition change_type_eqb (a b : ChangeType) : bool :=
  match a, b with
  | ADDED, ADDED | REMOVED, REMOVED | MODIFIED, MODIFIED
  | UNCHANGED, UNCHANGED => true
  | _, _ => false
  end.

(** [x in {...}] for a set of strings. *)
Definition str_in (x : string) (set : list string) : bool :=
  existsb (String.eqb x) set.

(** Two text changes whose line numbers increase. *)
Definition line_before (c d : TextChange) : Prop :=
  match tc_line_number c, tc_line_number d with
  | Some i, Some j => i < j
  | _, _ => False
  end.

(** *** Clause-level comparison *)

Definition _assess_clause_risk_impact (clause_type : string)
  (change_type : ChangeType) : string :=
  let high_risk_types := ["liability"; "indemnity"; "termination"; "payment"] in
  let medium_risk_types :=
    ["warranty"; "confidentiality"; "intellectual_property"] in
  let clause_type_lower := Str.lower clause_type in
  if str_in clause_type_lower high_risk_types then
    if change_type_eqb change_type REMOVED then "high" else "medium"
  else if str_in clause_type_lower medium_risk_types then "medium"
  else "low".

(** A dictionary from clause type to clauses, in insertion order. *)
Definition groups : Type := list (string * list Clause).

(** [grouped[key].append(clause)], creating the entry if needed. *)
Fixpoint group_append (key : string) (clause : Clause) (grouped : groups)
  : groups :=
  match grouped with
  | [] => [(key, [clause])]
  | (k, clauses) :: rest =>
      if String.eqb k key then (k, clauses ++ [clause])%list :: rest
      else (k, clauses) :: group_append key clause rest
  end.

(** [clause.clause_type or "unknown"] *)
Definition type_or_unknown (clause : Clause) : string :=
  match clause_type clause with
  | Some "" | None => "unknown"
  | Some t => t
  end.

Definition _group_clauses_by_type (clauses : list Clause) : groups :=
  fold_left
    (fun grouped clause => group_append (type_or_unknown clause) clause grouped)
    clauses [].

(** [grouped.get(key, [])] *)
Fixpoint group_get (key : string) (grouped : groups) : list Clause :=
  match grouped with
  | [] => []
  | (k, clauses) :: rest =>
      if String.eqb k key then clauses else group_get key rest
  end.

(** [set(a.keys()) | set(b.keys())] as a list without repetition; the order
    in which Python iterates over the set is [iteration_order] of it. *)
Definition all_clause_types (a b : groups) : list string :=
  nodup string_dec (map fst a ++ map fst b).

Section Clauses.

(** [difflib.SequenceMatcher(None, a, b).ratio()] *)
Variable ratio : string -> string -> F64.float.

(** The iteration order of a set of strings: some arrangement of it. *)
Variable iteration_order : list string -> list string.

Definition _compare_clause_texts (clauses_a clauses_b : list Clause)
  (clause_type : string) : list ClauseChange :=
  match clauses_a, clauses_b with
  | clause_a :: _, clause_b :: _ =>
      let similarity := ratio (clause_text clause_a) (clause_text clause_b) in
      if F64.ltb similarity (F64.dec 8 10) then
        [{| cc_change_type := MODIFIED;
            cc_clause_type := clause_type;
            cc_old_text := Some (clause_text clause_a);
            cc_new_text := Some (clause_text clause_b);
            cc_risk_impact := _assess_clause_risk_impact clause_type MODIFIED;
            cc_page_number := clause_page clause_b |}]
      else []
  | _, _ => []
  end.

(** The body of the loop over the clause types. *)
Definition changes_for_type (clauses_a_by_type clauses_b_by_type : groups)
  (clause_type : string) : list ClauseChange :=
  let clauses_a_type := group_get clause_type clauses_a_by_type in
  let clauses_b_type := group_get clause_type clauses_b_by_type in
  match clauses_a_type, clauses_b_type with
  | [], _ :: _ =>
      map (fun clause =>
             {| cc_change_type := ADDED;
                cc_clause_type := clause_type;
                cc_old_text := None;
                cc_new_text := Some (clause_text clause);
                cc_risk_impact := _assess_clause_risk_impact clause_type ADDED;
                cc_page_number := clause_page clause |})
        clauses_b_type
  | _ :: _, [] =>
      map (fun clause =>
             {| cc_change_type := REMOVED;
                cc_clause_type := clause_type;
                cc_old_text := Some (clause_text clause);
                cc_new_text := None;
                cc_risk_impact :=
                  _assess_clause_risk_impact clause_type REMOVED;
                cc_page_number := clause_page clause |})
        clauses_a_type
  | _ :: _, _ :: _ =>
      _compare_clause_texts clauses_a_type clauses_b_type clause_type
  | [], [] => []
  end.

Definition _compare_clauses (clauses_a clauses_b : list Clause)
  : list ClauseChange :=
  let clauses_a_by_type := _group_clauses_by_type clauses_a in
  let clauses_b_by_type := _group_clauses_by_type clauses_b in
  let all_types :=
    iteration_order (all_clause_types clauses_a_by_type clauses_b_by_type) in
  flat_map (changes_for_type clauses_a_by_type clauses_b_by_type) all_types.

End Clauses.

(** *** Risk of the changes *)

Definition high_risk_clause_types : list string :=
  ["liability"; "indemnity"; "termination"; "payment";
   "intellectual_property"; "confidentiality"; "warranty";
   "limitation_of_liability"].

(** The state of the loop over the clause changes. *)
Record RiskTally : Type := mkTally {
  clauses_added : Z;
  clauses_removed : Z;
  clauses_modified : Z;
  high_risk_changes : list json
}.

Definition tally_change (tally : RiskTally) (change : ClauseChange)
  : RiskTally :=
  let is_high_risk :=
    str_in (Str.lower (cc_clause_type change)) high_risk_clause_types in
  match cc_change_type change with
  | ADDED =>
      {| clauses_added := clauses_added tally + 1;
         clauses_removed := clauses_removed tally;
         clauses_modified := clauses_modified tally;
         high_risk_changes := high_risk_changes tally |}
  | REMOVED =>
      {| clauses_added := clauses_added tally;
         clauses_removed := clauses_removed tally + 1;
         clauses_modified := clauses_modified tally;
         high_risk_changes :=
           if is_high_risk then
             (high_risk_changes tally ++
              [JDict [("type", JStr "clause_removed");
                      ("clause_type", JStr (cc_clause_type change));
                      ("risk", JStr "high");
                      ("description",
                       JStr ("Critical " ++ cc_clause_type change
                             ++ " clause was removed")%string)]])%list
           else high_risk_changes tally |}
  | MODIFIED =>
      {| clauses_added := clauses_added tally;
         clauses_removed := clauses_removed tally;
         clauses_modified := clauses_modified tally + 1;
         high_risk_changes :=
           if is_high_risk then
             (high_risk_changes tally ++
              [JDict [("type", JStr "clause_modified");
                      ("clause_type", JStr (cc_clause_type change));
                      ("risk", JStr "medium");
                      ("description",
                       JStr ("Important " ++ cc_clause_type change
                             ++ " clause was modified")%string)]])%list
           else high_risk_changes tally |}
  | UNCHANGED => tally
  end.

Definition _assess_change_risks (clause_changes : list ClauseChange)
  (text_changes : list TextChange) : jdict :=
  let tally :=
    fold_left tally_change clause_changes
      {| clauses_added := 0; clauses_removed := 0; clauses_modified := 0;
         high_risk_changes := [] |} in
  let high_count := Z.of_nat (List.length (high_risk_changes tally)) in
  let overall_risk :=
    if 3 <? high_count then "high"
    else if 0 <? high_count then "medium"
    else "low" in
  let recommendations :=
    ((if 0 <? clauses_removed tally then
        [JStr "Review removed clauses carefully to ensure no critical protections were lost"]
      else [])
     ++ (if 2 <? clauses_modified tally then
           [JStr "Have legal counsel review modified clauses for potential impact"]
         else [])
     ++ (if 0 <? high_count then
           [JStr "Pay special attention to changes in liability, indemnity, and termination clauses"]
         else []))%list in
  [("overall_risk", JStr overall_risk);
   ("high_risk_changes", JArr (high_risk_changes tally));
   ("recommendations", JArr recommendations);
   ("change_summary",
    JDict [("clauses_added", JInt (clauses_added tally));
           ("clauses_removed", JInt (clauses_removed tally));
           ("clauses_modified", JInt (clauses_modified tally));
           ("text_changes", JInt (Z.of_nat (List.length text_changes)))])].

(** *** Summary *)

Definition _generate_comparison_summary (text_changes : list TextChange)
  (clause_changes : list ClauseChange) (similarity_score : F64.float)
  : string :=
  let count_text kind :=
    Z.of_nat (List.length
                (filter (fun c => change_type_eqb (tc_change_type c) kind)
                   text_changes)) in
  let count_clause kind :=
    Z.of_nat (List.length
                (filter (fun c => change_type_eqb (cc_change_type c) kind)
                   clause_changes)) in
  let added_changes := count_text ADDED in
  let removed_changes := count_text REMOVED in
  let clause_added := count_clause ADDED in
  let clause_removed := count_clause REMOVED in
  let clause_modified := count_clause MODIFIED in
  let summary_parts :=
    ([if F64.gtb similarity_score (F64.dec 9 10) then
        "The documents are very similar with minimal changes."
      else if F64.gtb similarity_score (F64.dec 7 10) then
        "The documents have moderate differences."
      else "The documents have significant differences."]
     ++ (if ((0 <? added_changes) || (0 <? removed_changes))%bool then
           [("Text changes: " ++ Str.of_int added_changes ++ " additions, "
             ++ Str.of_int removed_changes ++ " removals.")%string]
         else [])
     ++ (if ((0 <? clause_added) || (0 <? clause_removed)
             || (0 <? clause_modified))%bool then
           [("Clause changes: " ++ Str.of_int clause_added ++ " added, "
             ++ Str.of_int clause_removed ++ " removed, "
             ++ Str.of_int clause_modified ++ " modified.")%string]
         else []))%list in
  Str.join " " summary_parts.

(** *** Notions used to state properties of the comparison *)

(** The clauses of one type, in document order. *)
Definition of_type (key : string) (clauses : list Clause) : list Clause :=
  filter (fun clause => String.eqb (type_or_unknown clause) key) clauses.

(** A removal or modification of a clause of a high-risk type. *)
Definition is_high_risk_change (change : ClauseChange) : bool :=
  ((change_type_eqb (cc_change_type change) REMOVED
    || change_type_eqb (cc_change_type change) MODIFIED)
   && str_in (Str.lower (cc_clause_type change)) high_risk_clause_types)%bool.

Definition count_kind (kind : ChangeType) (changes : list ClauseChange) : Z :=
  Z.of_nat
    (List.length
       (filter (fun c => change_type_eqb (cc_change_type c) kind) changes)).

End ComparisonDetail.

(** ** [repositories/document_comparison.py]: the listing queries, and
       [_store_comparison_result] *)

Module ComparisonStore.

Import Comparison ComparisonDetail.
Local Open Scope string_scope.
Local Open Scope Z_scope.

(** [order_by(created_at.desc())]; rows created at the same instant keep
    the order of the table. *)
Fixpoint insert_by_created_at (row : DocumentComparison)
  (sorted : list DocumentComparison) : list DocumentComparison :=
  match sorted with
  | [] => [row]
  | other :: rest =>
      if dc_created_at other <? dc_created_at row then row :: sorted
      else other :: insert_by_created_at row rest
  end.

Definition newest_first (rows : list DocumentComparison)
  : list DocumentComparison :=
  fold_left (fun sorted row => insert_by_created_at row sorted) rows [].


Definition get_by_document (t : table) (document_id : UUID) (org_id : string)
  : list DocumentComparison :=
  newest_first
    (filter (fun row => (N.eqb (dc_document_a_id row) document_id
                         || N.eqb (dc_document_b_id row) document_id)%bool)
       (visible org_id t)).




Definition get_document_comparisons (t : table) (document_id : UUID)
  (org_id : string) : list DocumentComparison :=
  get_by_document t document_id org_id.

(** *** Storing a comparison *)

(** An argument of a Python call. *)
Inductive argument : Type :=
| ArgDict (d : jdict)
| ArgStr (s : string).

(** Identifiers are written as their integer value. *)
Definition json_of_uuid (id : UUID) : json := JInt (Z.of_N id).

Section Store.

(** [uuid.UUID(s)]: raises [ValueError] unless [s] is a well-formed UUID. *)
Variable uuid_of_string : string -> result UUID.

(** What [BaseRepository.create] does with its keyword arguments. *)
Variable insert_row : jdict -> table -> result unit * table.

(** [BaseRepository.create(self, **kwargs)]: keyword arguments only. *)
Definition create (positional : list argument) (kwargs : jdict) (t : table)
  : result unit * table :=
  match positional with
  | [] => insert_row kwargs t
  | _ :: _ =>
      (Raise (TypeError
                ("BaseRepository.create() takes 1 positional argument but "
                 ++ Str.of_int (1 + Z.of_nat (List.length positional))
                 ++ " were given")), t)
  end.

Definition _store_comparison_result (t : table) (comparison : ComparisonResult)
  (org_id : string) (user_id : UUID) : result unit * table :=
  match uuid_of_string org_id with
  | Raise e => (Raise e, t)
  | Ok org =>
      let comparison_data :=
        [("org_id", json_of_uuid org);
         ("document_a_id", json_of_uuid (document_a_id comparison));
         ("document_b_id", json_of_uuid (document_b_id comparison));
         ("comparison_result", comparison_result_json comparison);
         ("risk_assessment", JDict (risk_assessment comparison));
         ("summary", JStr (comparison_summary comparison));
         ("created_by", json_of_uuid user_id)] in
      create [ArgDict comparison_data; ArgStr org_id] [] t
  end.

(** The collaborators of the service that live outside this file: the
    document and clause repositories and [difflib]. *)
Variable get_with_chunks :
  UUID -> string -> result (option (list DocumentChunk)).
Variable clauses_by_document : UUID -> string -> result (list Clause).
Variable unified_diff : list string -> list string -> list string.
Variable ratio : string -> string -> F64.float.
Variable iteration_order : list string -> list string.

(** The service with its own methods in place. *)
Definition service_env : Env :=
  {| Comparison.get_with_chunks := get_with_chunks;
     Comparison.clauses_by_document := clauses_by_document;
     Comparison.unified_diff := unified_diff;
     Comparison._compare_clauses :=
       ComparisonDetail._compare_clauses ratio iteration_order;
     Comparison._assess_change_risks := ComparisonDetail._assess_change_risks;
     Comparison._generate_comparison_summary :=
       ComparisonDetail._generate_comparison_summary;
     Comparison._store_comparison_result := _store_comparison_result |}.

End Store.

End ComparisonStore.

(** ** [services/risk_assessment.py]: the scoring engine *)

Module RiskCategory.
Inductive t : Type := CRITICAL | HIGH | MEDIUM | LOW.
End RiskCategory.

Module RecommendationPriority.
Inductive t : Type := URGENT | HIGH | MEDIUM | LOW.
End RecommendationPriority.

Module RiskScoring.

Import Compliance.
Local Open Scope string_scope.
Local Open Scope Z_scope.
Local Open Scope result_scope.

Record RiskFactor : Type := mkRiskFactor {
  factor_id : string;
  factor_name : string;
  factor_description : string;
  factor_weight : F64.float;
  factor_score : F64.float;
  factor_category : string;
  factor_recommendations : list json
}.

Record RiskScore : Type := mkRiskScore {
  overall_score : Z;
  category : RiskCategory.t;
  confidence : F64.float;
  factors : list RiskFactor;
  trend : option string
}.

Record Recommendation : Type := mkRecommendation {
  rec_id : string;
  rec_title : string;
  rec_description : json;
  rec_priority : RecommendationPriority.t;
  rec_category : string;
  rec_impact : string;
  rec_effort : string;
  rec_clause_types : list string;
  rec_suggested_language : option string
}.

(** [status.value] *)
Definition status_value (s : ComplianceStatus) : string :=
  match s with
  | COMPLIANT => "compliant"
  | NON_COMPLIANT => "non_compliant"
  | REVIEW_REQUIRED => "review_required"
  end.

(** [d.get(key, default)] for a dictionary literal with string keys. *)
Fixpoint lookup {A : Type} (key : string) (d : list (string * A)) (default : A)
  : A :=
  match d with
  | [] => default
  | (k, v) :: d' => if String.eqb k key then v else lookup key d' default
  end.

Definition _get_factor_weight (rule_id : string) : F64.float :=
  let weights :=
    [("indemnity_clause", F64.of_Z 1);
     ("liability_cap", F64.dec 9 10);
     ("intellectual_property", F64.dec 9 10);
     ("data_security", F64.dec 9 10);
     ("data_ownership", F64.dec 9 10);
     ("termination_clause", F64.dec 8 10);
     ("confidentiality_clause", F64.dec 8 10);
     ("service_level_agreement", F64.dec 8 10);
     ("uptime_guarantee", F64.dec 8 10);
     ("governing_law", F64.dec 7 10);
     ("payment_terms", F64.dec 7 10);
     ("insurance_requirements", F64.dec 7 10);
     ("force_majeure", F64.dec 5 10);
     ("non_compete", F64.dec 6 10);
     ("at_will_employment", F64.dec 6 10)] in
  lookup rule_id weights (F64.dec 5 10).

Definition _categorize_risk_factor (rule_id : string) : string :=
  let categories :=
    [("indemnity_clause", "Legal Protection");
     ("liability_cap", "Legal Protection");
     ("intellectual_property", "IP & Data");
     ("data_security", "IP & Data");
     ("data_ownership", "IP & Data");
     ("confidentiality_clause", "IP & Data");
     ("termination_clause", "Operational");
     ("service_level_agreement", "Operational");
     ("uptime_guarantee", "Operational");
     ("payment_terms", "Financial");
     ("insurance_requirements", "Financial");
     ("governing_law", "Legal Framework");
     ("force_majeure", "Risk Management");
     ("non_compete", "Employment");
     ("at_will_employment", "Employment")] in
  lookup rule_id categories "General".

Definition _create_risk_factor (compliance_result : ComplianceResult)
  : RiskFactor :=
  {| factor_id := res_rule_id compliance_result;
     factor_name := res_rule_name compliance_result;
     factor_description :=
       "Compliance status: " ++ status_value (res_status compliance_result);
     factor_weight := _get_factor_weight (res_rule_id compliance_result);
     factor_score := res_risk_score compliance_result;
     factor_category :=
       _categorize_risk_factor (res_rule_id compliance_result);
     factor_recommendations := res_recommendations compliance_result |}.

(** [x in [...]] for a list of strings. *)
Definition str_in (x : string) (l : list string) : bool :=
  existsb (String.eqb x) l.

(** The three lists that [_apply_risk_multipliers] builds. *)
Definition critical_missing (compliance_results : list ComplianceResult)
  : list ComplianceResult :=
  filter (fun r =>
            (res_missing_clause r
             && str_in (res_rule_id r)
                  ["indemnity_clause"; "liability_cap"; "data_security"])%bool)
    compliance_results.

Definition low_confidence_matches (compliance_results : list ComplianceResult)
  : list ComplianceResult :=
  filter (fun r =>
            match res_matched_clauses r with
            | [] => false
            | _ :: _ =>
                existsb (fun m => F64.ltb (cm_confidence m) (F64.dec 6 10))
                  (res_matched_clauses r)
            end)
    compliance_results.

Definition _apply_risk_multipliers (base_score : F64.float)
  (compliance_results : list ComplianceResult) : F64.float :=
  let multiplier := F64.of_Z 1 in
  let multiplier :=
    match critical_missing compliance_results with
    | [] => multiplier
    | _ :: _ =>
        F64.add multiplier
          (F64.mul (F64.dec 2 10)
             (F64.of_Z
                (Z.of_nat
                   (List.length (critical_missing compliance_results)))))
    end in
  let non_compliant_count := count_status NON_COMPLIANT compliance_results in
  let multiplier :=
    if 3 <=? non_compliant_count then F64.add multiplier (F64.dec 15 100)
    else multiplier in
  let multiplier :=
    match low_confidence_matches compliance_results with
    | [] => multiplier
    | _ :: _ => F64.add multiplier (F64.dec 1 10)
    end in
  F64.mul base_score multiplier.

Definition _get_risk_category (score : Z) : RiskCategory.t :=
  if 80 <=? score then RiskCategory.CRITICAL
  else if 60 <=? score then RiskCategory.HIGH
  else if 30 <=? score then RiskCategory.MEDIUM
  else RiskCategory.LOW.

Definition _calculate_confidence (compliance_results : list ComplianceResult)
  : F64.float :=
  match compliance_results with
  | [] => F64.of_Z 0
  | _ :: _ =>
      let confidence := F64.dec 8 10 in
      let rule_count_boost :=
        F64.min (F64.dec 15 100)
          (F64.mul (F64.of_Z (Z.of_nat (List.length compliance_results)))
             (F64.dec 2 100)) in
      let confidence := F64.add confidence rule_count_boost in
      let total_matches :=
        fold_left
          (fun total r =>
             total + Z.of_nat (List.length (res_matched_clauses r)))
          compliance_results 0 in
      let confidence :=
        if 0 <? total_matches then
          let avg_match_confidence :=
            F64.div
              (F64.sum
                 (map (fun r => F64.sum (map cm_confidence
                                           (res_matched_clauses r)))
                    (filter (fun r =>
                               match res_matched_clauses r with
                               | [] => false
                               | _ :: _ => true
                               end) compliance_results)))
              (F64.of_Z total_matches) in
          let confidence_adjustment :=
            F64.mul (F64.sub avg_match_confidence (F64.dec 7 10))
              (F64.dec 2 10) in
          F64.add confidence confidence_adjustment
        else confidence in
      F64.min (F64.of_Z 1) (F64.max (F64.of_Z 0) confidence)
  end.

(** The loop of [calculate_risk_score]: factors and the two running
    totals, which start from the integer 0. *)
Definition accumulate_factors (compliance_results : list ComplianceResult)
  : list RiskFactor * F64.float * F64.float :=
  fold_left
    (fun state result =>
       let '(risk_factors, total_weighted_score, total_weight) := state in
       let factor := _create_risk_factor result in
       ((risk_factors ++ [factor])%list,
        F64.add total_weighted_score
          (F64.mul (factor_score factor) (factor_weight factor)),
        F64.add total_weight (factor_weight factor)))
    compliance_results ([], F64.of_Z 0, F64.of_Z 0).

Definition calculate_risk_score (compliance_results : list ComplianceResult)
  : result RiskScore :=
  match compliance_results with
  | [] =>
      Ok {| overall_score := 0;
            category := RiskCategory.LOW;
            confidence := F64.of_Z 1;
            factors := [];
            trend := None |}
  | _ :: _ =>
      let '(risk_factors, total_weighted_score, total_weight) :=
        accumulate_factors compliance_results in
      let base_score :=
        if F64.gtb total_weight (F64.of_Z 0)
        then F64.div total_weighted_score total_weight
        else F64.of_Z 0 in
      let multiplied_score :=
        _apply_risk_multipliers base_score compliance_results in
      let* truncated := F64.to_int multiplied_score in
      let overall_score := Z.min 100 (Z.max 0 truncated) in
      Ok {| overall_score := overall_score;
            category := _get_risk_category overall_score;
            confidence := _calculate_confidence compliance_results;
            factors := risk_factors;
            trend := None |}
  end.

(** *** Recommendations *)

Definition _determine_recommendation_priority (rule_id : string)
  (status : ComplianceStatus) (risk_category : RiskCategory.t)
  : RecommendationPriority.t :=
  let critical_rules :=
    ["indemnity_clause"; "liability_cap"; "data_security";
     "intellectual_property"] in
  if (str_in rule_id critical_rules && status_eqb status NON_COMPLIANT)%bool
  then RecommendationPriority.URGENT
  else
    match risk_category, status with
    | RiskCategory.CRITICAL, NON_COMPLIANT => RecommendationPriority.URGENT
    | RiskCategory.CRITICAL, REVIEW_REQUIRED => RecommendationPriority.HIGH
    | _, NON_COMPLIANT => RecommendationPriority.HIGH
    | _, REVIEW_REQUIRED => RecommendationPriority.MEDIUM
    | _, COMPLIANT => RecommendationPriority.LOW
    end.

(** The details on record for a recommendation text. *)
Record Details : Type := mkDetails {
  impact : string;
  effort : string;
  suggested_language : string
}.

Definition _get_rule_recommendations (rule_id : string)
  : list (string * Details) :=
  let recommendations :=
    [("indemnity_clause",
      [("Add mutual indemnity clause to protect both parties",
        {| impact := "high";
           effort := "medium";
           suggested_language :=
             "Each party shall indemnify, defend, and hold harmless the other party from and against any and all claims, damages, losses, and expenses arising out of or resulting from the indemnifying party's breach of this Agreement or negligent or wrongful acts." |})]);
     ("liability_cap",
      [("Include reasonable liability caps to limit exposure",
        {| impact := "high";
           effort := "low";
           suggested_language :=
             "In no event shall either party's total liability under this Agreement exceed the total amount paid or payable by Customer under this Agreement in the twelve (12) months preceding the event giving rise to liability." |})]);
     ("termination_clause",
      [("Include termination for cause provisions",
        {| impact := "medium";
           effort := "low";
           suggested_language :=
             "Either party may terminate this Agreement immediately upon written notice if the other party materially breaches this Agreement and fails to cure such breach within thirty (30) days after written notice." |})])] in
  lookup rule_id recommendations [].

(** [rule_recommendations.get(rec_text, {})]: a list or a dictionary is not
    hashable; any other value that is not one of the keys gives [{}]. *)
Definition details_of (rule_recommendations : list (string * Details))
  (rec_text : json) : result (option Details) :=
  match rec_text with
  | JStr s => Ok (lookup s (map (fun kv => (fst kv, Some (snd kv)))
                              rule_recommendations) None)
  | JArr _ => Raise (TypeError "unhashable type: 'list'")
  | JDict _ => Raise (TypeError "unhashable type: 'dict'")
  | _ => Ok None
  end.

(** The loop over [enumerate(compliance_result.recommendations)]. *)
Fixpoint recommendations_from (compliance_result : ComplianceResult)
  (priority : RecommendationPriority.t)
  (rule_recommendations : list (string * Details))
  (i : Z) (texts : list json) : result (list Recommendation) :=
  match texts with
  | [] => Ok []
  | rec_text :: rest =>
      let* details := details_of rule_recommendations rec_text in
      let recommendation :=
        {| rec_id :=
             res_rule_id compliance_result ++ "_" ++ Str.of_int i;
           rec_title := "Address " ++ res_rule_name compliance_result;
           rec_description := rec_text;
           rec_priority := priority;
           rec_category :=
             _categorize_risk_factor (res_rule_id compliance_result);
           rec_impact :=
             match details with Some d => impact d | None => "medium" end;
           rec_effort :=
             match details with Some d => effort d | None => "medium" end;
           rec_clause_types := [res_rule_id compliance_result];
           rec_suggested_language :=
             match details with
             | Some d => Some (suggested_language d)
             | None => None
             end |} in
      let* others :=
        recommendations_from compliance_result priority rule_recommendations
          (i + 1) rest in
      Ok (recommendation :: others)
  end.

Definition _create_recommendations_for_rule
  (compliance_result : ComplianceResult) (risk_score : RiskScore)
  : result (list Recommendation) :=
  let priority :=
    _determine_recommendation_priority (res_rule_id compliance_result)
      (res_status compliance_result) (category risk_score) in
  let rule_recommendations :=
    _get_rule_recommendations (res_rule_id compliance_result) in
  recommendations_from compliance_result priority rule_recommendations 0
    (res_recommendations compliance_result).

Definition _generate_strategic_recommendations (risk_score : RiskScore)
  : list Recommendation :=
  (match category risk_score with
   | RiskCategory.CRITICAL =>
       [{| rec_id := "strategic_legal_review";
           rec_title := "Immediate Legal Review Required";
           rec_description :=
             JStr "This contract presents critical risks that require immediate attention from legal counsel before execution.";
           rec_priority := RecommendationPriority.URGENT;
           rec_category := "Strategic";
           rec_impact := "high";
           rec_effort := "high";
           rec_clause_types := [];
           rec_suggested_language := None |}]
   | RiskCategory.HIGH =>
       [{| rec_id := "strategic_risk_mitigation";
           rec_title := "Comprehensive Risk Mitigation";
           rec_description :=
             JStr "Consider implementing additional risk mitigation strategies and obtaining appropriate insurance coverage.";
           rec_priority := RecommendationPriority.HIGH;
           rec_category := "Strategic";
           rec_impact := "medium";
           rec_effort := "medium";
           rec_clause_types := [];
           rec_suggested_language := None |}]
   | _ => []
   end
   ++ (if F64.ltb (confidence risk_score) (F64.dec 7 10) then
         [{| rec_id := "strategic_manual_review";
             rec_title := "Manual Review Recommended";
             rec_description :=
               JStr "The automated analysis has low confidence. Manual review by legal experts is recommended to validate findings.";
             rec_priority := RecommendationPriority.HIGH;
             rec_category := "Process";
             rec_impact := "medium";
             rec_effort := "high";
             rec_clause_types := [];
             rec_suggested_language := None |}]
       else []))%list.

Definition _get_priority_weight (priority : RecommendationPriority.t) : Z :=
  match priority with
  | RecommendationPriority.URGENT => 4
  | RecommendationPriority.HIGH => 3
  | RecommendationPriority.MEDIUM => 2
  | RecommendationPriority.LOW => 1
  end.

Definition _get_impact_weight (impact : string) : Z :=
  lookup impact [("high", 3); ("medium", 2); ("low", 1)] 1.

(** The sort key of a recommendation, and the order of two keys. *)
Definition sort_key (r : Recommendation) : Z * Z :=
  (_get_priority_weight (rec_priority r), _get_impact_weight (rec_impact r)).

Definition key_ltb (a b : Z * Z) : bool :=
  ((fst a <? fst b) || ((fst a =? fst b) && (snd a <? snd b)))%bool.

(** [recommendations.sort(key=..., reverse=True)]: stable, descending. *)
Fixpoint insert_recommendation (r : Recommendation)
  (sorted : list Recommendation) : list Recommendation :=
  match sorted with
  | [] => [r]
  | other :: rest =>
      if key_ltb (sort_key other) (sort_key r) then r :: sorted
      else other :: insert_recommendation r rest
  end.

Definition sort_recommendations (recommendations : list Recommendation)
  : list Recommendation :=
  fold_left (fun sorted r => insert_recommendation r sorted)
    recommendations [].

Definition generate_recommendations
  (compliance_results : list ComplianceResult) (risk_score : RiskScore)
  : result (list Recommendation) :=
  let* recommendations :=
    foldM (fun recommendations result =>
             if negb (status_eqb (res_status result) COMPLIANT) then
               let* recs :=
                 _create_recommendations_for_rule result risk_score in
               Ok (recommendations ++ recs)%list
             else Ok recommendations)
      compliance_results [] in
  let strategic_recs := _generate_strategic_recommendations risk_score in
  Ok (sort_recommendations (recommendations ++ strategic_recs)%list).

(** The order that the sort establishes: [r] is not ranked below [other]. *)
Definition ranked_before (r other : Recommendation) : Prop :=
  key_ltb (sort_key r) (sort_key other) = false.

(** What a recommendation made for a compliance result carries. *)
Definition made_for (risk_score : RiskScore) (r : ComplianceResult)
  (recommendation : Recommendation) : Prop :=
  rec_title recommendation = "Address " ++ res_rule_name r /\
  rec_priority recommendation
  = _determine_recommendation_priority (res_rule_id r) (res_status r)
      (category risk_score) /\
  rec_category recommendation = _categorize_risk_factor (res_rule_id r) /\
  rec_clause_types recommendation = [res_rule_id r] /\
  In (rec_description recommendation) (res_recommendations r).

End RiskScoring.

(** ** Notions used to state properties of the RAG pipeline *)

Module RagNotions.

Import Rag.
Local Open Scope Z_scope.

(** [c] may stand before [d] in a descending order of relevance: [c] is
    not below [d]. *)
Definition not_below (c d : Citation) : Prop :=
  F64.ltb (cit_relevance_score c) (cit_relevance_score d) = false.

(** The total length of some strings. *)
Definition total_length (parts : list string) : Z :=
  fold_right (fun part total => Str.len part + total) 0 parts.

End RagNotions.

(** ** Further concrete inputs *)

Module Scenarios.

Import Compliance.
Local Open Scope string_scope.
Local Open Scope Z_scope.

(** A playbook with the indemnity rule of the example scenario only. *)
Definition indemnity_playbook : Playbook :=
  {| playbook_id := 8%N;
     rules_json :=
       [("version", JStr "1.0"); ("name", JStr "Indemnity Playbook");
        ("rules", JArr [JDict Examples.indemnity_rule_json])] |}.

Definition supplier_repos : Repos :=
  {| document_get_by_id :=
       fun id _ => Ok (Some (mkDocument id "Supply Contract"));
     playbook_get_by_id := fun _ _ => Ok (Some indemnity_playbook);
     playbook_get_default := fun _ => Ok (Some indemnity_playbook);
     chunk_get_by_document := fun _ _ => Ok Examples.supplier_chunks |}.




(** An index with two candidates for every query. *)
Definition two_candidates : list (DocumentChunk * F64.float) :=
  [(Examples.duplicate_1, F64.dec 9 10);
   (Examples.distinct_chunk, F64.dec 8 10)].

Definition small_index : Rag.Services :=
  {| Rag.embed_query := fun _ => Ok Examples.mmr_query;
     Rag.chunk_similarity_search := fun _ _ _ _ _ => Ok two_candidates;
     Rag.rag_document_get_by_id :=
       fun id _ => Ok (Some (mkDocument id "Supply Contract"));
     Rag.chunk_get_nearby_chunks := fun _ _ _ => Ok [];
     Rag.messages_create := fun _ _ _ => Ok "See page 1.";
     Rag.cosine := Rag.cosine_similarity_rows |}.

(** Two results of one document, the less relevant one first. *)
Definition cited_result (no : Z) (text : string) (score : F64.float)
  : Rag.SearchResult :=
  {| Rag.sr_chunk := Examples.chunk_of no text;
     Rag.sr_similarity_score := score;
     Rag.sr_document := Some (mkDocument 1%N "Supply Contract");
     Rag.sr_context_chunks := None |}.

Definition cited_results : list Rag.SearchResult :=
  [cited_result 0 "Liability is capped at the fees paid." (F64.dec 6 10);
   cited_result 1 "The Supplier shall indemnify the Customer." (F64.dec 9 10)].

(** Clauses of two versions of a contract: the second version drops the
    liability clause, rewords the payment clause and adds a warranty. *)
Definition clause_of (type text : string) : Comparison.Clause :=
  {| Comparison.clause_type := Some type;
     Comparison.clause_text := text;
     Comparison.clause_page := Some 1 |}.

Definition clauses_v1 : list Comparison.Clause :=
  [clause_of "liability" "Liability is capped at the fees paid.";
   clause_of "payment" "Invoices are due within 30 days."].

Definition clauses_v2 : list Comparison.Clause :=
  [clause_of "payment" "Payment is due on receipt.";
   clause_of "warranty" "The Supplier warrants the goods for one year."].

(** A similarity that finds equal texts identical and any others
    unrelated, and a set iteration that keeps the order of the elements. *)
Definition all_or_nothing (a b : string) : F64.float :=
  if String.eqb a b then F64.of_Z 1 else F64.of_Z 0.

Definition in_order (types : list string) : list string := types.

Definition removed_liability : Comparison.ClauseChange :=
  {| Comparison.cc_change_type := Comparison.REMOVED;
     Comparison.cc_clause_type := "liability";
     Comparison.cc_old_text := Some "Liability is capped at the fees paid.";
     Comparison.cc_new_text := None;
     Comparison.cc_risk_impact := "high";
     Comparison.cc_page_number := Some 1 |}.

Definition added_warranty : Comparison.ClauseChange :=
  {| Comparison.cc_change_type := Comparison.ADDED;
     Comparison.cc_clause_type := "warranty";
     Comparison.cc_old_text := None;
     Comparison.cc_new_text :=
       Some "The Supplier warrants the goods for one year.";
     Comparison.cc_risk_impact := "medium";
     Comparison.cc_page_number := Some 1 |}.

(** A unified diff of one hunk. *)
Definition sample_diff : list string :=
  ["--- "; "+++ "; "@@ -1,2 +1,2 @@"; " Supply Agreement";
   "-Invoices are due within 30 days."; "+Payment is due on receipt."].

(** Collaborators of the comparison service: both documents exist. *)
Definition known_documents (id : UUID) (org_id : string)
  : result (option (list DocumentChunk)) :=
  Ok (Some [Examples.chunk_of 0 "Supply Agreement"]).

Definition no_clauses (id : UUID) (org_id : string)
  : result (list Comparison.Clause) := Ok [].

Definition any_uuid (s : string) : result UUID := Ok 1%N.

Definition append_row (kwargs : jdict) (t : Comparison.table)
  : result unit * Comparison.table := (Ok tt, t).

(** A second stored comparison of the same organization, and one of
    another organization. *)
Definition later_row : Comparison.DocumentComparison :=
  {| Comparison.dc_id := 78%N;
     Comparison.dc_org_id := "org-1";
     Comparison.dc_document_a_id := 2%N;
     Comparison.dc_document_b_id := 3%N;
     Comparison.dc_comparison_result :=
       Some (JDict [("text_changes", JArr []); ("clause_changes", JArr []);
                    ("similarity_score", JFloat (F64.of_Z 1))]);
     Comparison.dc_risk_assessment := None;
     Comparison.dc_summary := None;
     Comparison.dc_created_by := 5%N;
     Comparison.dc_created_at := 2000 |}.

Definition foreign_row : Comparison.DocumentComparison :=
  {| Comparison.dc_id := 79%N;
     Comparison.dc_org_id := "org-2";
     Comparison.dc_document_a_id := 2%N;
     Comparison.dc_document_b_id := 1%N;
     Comparison.dc_comparison_result :=
       Some (JDict [("text_changes", JArr []); ("clause_changes", JArr []);
                    ("similarity_score", JFloat (F64.of_Z 1))]);
     Comparison.dc_risk_assessment := None;
     Comparison.dc_summary := None;
     Comparison.dc_created_by := 6%N;
     Comparison.dc_created_at := 3000 |}.

Definition comparisons : Comparison.table :=
  [Examples.stored_row; foreign_row; later_row].

(** Results that carry recommendations: a missing indemnity clause and a
    governing-law clause to review. *)
Definition advised_results : list ComplianceResult :=
  [{| res_rule_id := "indemnity_clause";
      res_rule_name := "Indemnity Clause";
      res_status := NON_COMPLIANT;
      res_matched_clauses := [];
      res_missing_clause := true;
      res_risk_score := F64.of_Z 90;
      res_recommendations :=
        [JStr "Add mutual indemnity clause to protect both parties"] |};
   {| res_rule_id := "governing_law";
      res_rule_name := "Governing Law";
      res_status := REVIEW_REQUIRED;
      res_matched_clauses := [];
      res_missing_clause := false;
      res_risk_score := F64.of_Z 21;
      res_recommendations := [JStr "Name the governing law"] |}].

Definition critical_score : RiskScoring.RiskScore :=
  {| RiskScoring.overall_score := 85;
     RiskScoring.category := RiskCategory.CRITICAL;
     RiskScoring.confidence := F64.dec 84 100;
     RiskScoring.factors := [];
     RiskScoring.trend := None |}.

End Scenarios.

(** * Properties *)

(** ** General facts about the result monad and lists *)

Lemma bind_ok {A B : Type} (a : A) (k : A -> result B) : bind (Ok a) k = k a.
Proof. reflexivity. Qed.

Lemma bind_raise {A B : Type} (e : exn) (k : A -> result B) :
  bind (Raise e) k = Raise e.
Proof. reflexivity. Qed.

Lemma flat_map_nil_all {A B : Type} (f : A -> list B) (l : list A) :
  (forall x, In x l -> f x = []) -> flat_map f l = [].
Proof.
  induction l as [|x l IH]; intros H; simpl.
  - reflexivity.
  - rewrite (H x (or_introl eq_refl)), IH; [reflexivity|].
    intros y Hy. apply H. right. exact Hy.
Qed.

(** ** Signs in binary64 arithmetic *)

Module F64Facts.

Lemma round_aux_sign_clear (m e : Z) (l : location) :
  F64.sign_clear (binary_round_aux F64.prec F64.emax false m e l) = true.
Proof.
  unfold binary_round_aux.
  destruct (shr_fexp F64.prec F64.emax m e l) as [mrs1 e1].
  destruct (shr_fexp F64.prec F64.emax _ e1 loc_Exact) as [mrs2 e2].
  destruct (shr_m mrs2); [reflexivity| |reflexivity].
  destruct (e2 <=? F64.emax - F64.prec); reflexivity.
Qed.

Lemma round_sign_clear (m : positive) (e : Z) :
  F64.sign_clear (binary_round F64.prec F64.emax false m e) = true.
Proof.
  unfold binary_round. destruct (shl_align m e _) as [mz ez].
  apply round_aux_sign_clear.
Qed.

Lemma sign_clear_nonneg (x : F64.float) :
  F64.sign_clear x = true -> F64.nonneg x = true.
Proof. destruct x as [s|s| |s m e]; simpl; trivial. Qed.

Lemma of_Z_sign_clear (z : Z) :
  0 <= z -> F64.sign_clear (F64.of_Z z) = true.
Proof.
  intros Hz. unfold F64.of_Z, binary_normalize.
  destruct z as [|p|p]; [reflexivity|apply round_sign_clear|lia].
Qed.

(** Adding a value that is not below zero to an accumulator whose sign is
    clear leaves the sign clear. *)
Lemma add_sign_clear (acc x : F64.float) :
  F64.sign_clear acc = true -> F64.nonneg x = true ->
  F64.sign_clear (F64.add acc x) = true.
Proof.
  unfold F64.add.
  destruct acc as [sx|sx| |sx mx ex], x as [sy|sy| |sy my ey];
    try (destruct sx; try discriminate);
    try (destruct sy; try discriminate);
    intros _ _; try reflexivity.
  unfold SFadd, cond_Zopp, binary_normalize.
  match goal with
  | |- context [Z.pos ?a + Z.pos ?b] =>
      change (Z.pos a + Z.pos b) with (Z.pos (a + b))
  end.
  apply round_sign_clear.
Qed.

Lemma mul_nonneg (x y : F64.float) :
  F64.nonneg x = true -> F64.nonneg y = true ->
  F64.nonneg (F64.mul x y) = true.
Proof.
  unfold F64.mul.
  destruct x as [sx|sx| |sx mx ex], y as [sy|sy| |sy my ey];
    try (destruct sx; try discriminate);
    try (destruct sy; try discriminate);
    intros _ _; try reflexivity.
  apply sign_clear_nonneg, round_aux_sign_clear.
Qed.

Lemma mul_sign_clear (x y : F64.float) :
  F64.sign_clear x = true -> F64.sign_clear y = true ->
  F64.sign_clear (F64.mul x y) = true.
Proof.
  unfold F64.mul.
  destruct x as [sx|sx| |sx mx ex], y as [sy|sy| |sy my ey];
    try (destruct sx; try discriminate);
    try (destruct sy; try discriminate);
    intros _ _; try reflexivity.
  apply round_aux_sign_clear.
Qed.

Lemma div_sign_clear (x y : F64.float) :
  F64.sign_clear x = true -> F64.sign_clear y = true ->
  F64.sign_clear (F64.div x y) = true.
Proof.
  unfold F64.div.
  destruct x as [sx|sx| |sx mx ex], y as [sy|sy| |sy my ey];
    try (destruct sx; try discriminate);
    try (destruct sy; try discriminate);
    intros _ _; try reflexivity.
  unfold SFdiv.
  match goal with
  | |- context [SFdiv_core_binary ?p ?x ?a ?b ?c ?d] =>
      destruct (SFdiv_core_binary p x a b c d) as [[mz ez] lz]
  end.
  apply round_aux_sign_clear.
Qed.

Lemma sum_sign_clear (xs : list F64.float) :
  (forall x, In x xs -> F64.nonneg x = true) ->
  F64.sign_clear (F64.sum xs) = true.
Proof.
  unfold F64.sum.
  assert (H : forall acc,
             F64.sign_clear acc = true ->
             (forall x, In x xs -> F64.nonneg x = true) ->
             F64.sign_clear (fold_left F64.add xs acc) = true).
  { induction xs as [|x xs IH]; intros acc Hacc Hxs; simpl; [exact Hacc|].
    apply IH.
    - apply add_sign_clear; [exact Hacc|apply Hxs; left; reflexivity].
    - intros y Hy. apply Hxs. right. exact Hy. }
  apply H. reflexivity.
Qed.

Lemma magnitude_nonneg (m : positive) (e : Z) :
  0 <= (if 0 <=? e then Z.pos m * 2 ^ e else Z.pos m / 2 ^ (- e)).
Proof.
  destruct (Z.leb_spec 0 e).
  - apply Z.mul_nonneg_nonneg; [lia|]. apply Z.pow_nonneg. lia.
  - apply Z.div_pos; [lia|]. apply Z.pow_pos_nonneg; lia.
Qed.

Lemma to_int_nonneg (x : F64.float) (v : Z) :
  F64.nonneg x = true -> F64.to_int x = Ok v -> 0 <= v.
Proof.
  destruct x as [s|s| |s m e]; unfold F64.to_int, F64.nonneg;
    try discriminate.
  - intros _ H. injection H as <-. lia.
  - destruct s; [discriminate|]. intros _ H.
    pose proof (magnitude_nonneg m e) as Hm.
    injection H as <-. exact Hm.
Qed.

(** A weight that passes [0 <= risk_weight] is not below zero. *)
Lemma leb_zero_nonneg (x : F64.float) :
  F64.leb (F64.of_Z 0) x = true -> F64.nonneg x = true.
Proof.
  destruct x as [s|s| |s m e]; try reflexivity; destruct s;
    try reflexivity; vm_compute; discriminate.
Qed.

End F64Facts.

(** ** Compliance: rule evaluation *)

Module ComplianceFacts.

Import Compliance.
Local Open Scope string_scope.
Local Open Scope Z_scope.

Section Generic.

Context {E : Re.Engine}.

(** A pattern that compiles and finds nothing in any chunk contributes no
    match. *)
Lemma find_pattern_matches_none (pattern document_text : string)
  (chunks : list DocumentChunk) (r : Re.pattern_obj) :
  Re.compile pattern = Ok r ->
  (forall chunk, In chunk chunks -> Re.finditer r (chunk_text chunk) = []) ->
  _find_pattern_matches pattern document_text chunks = Ok [].
Proof.
  intros Hc Hnone. unfold _find_pattern_matches. rewrite Hc. simpl.
  f_equal. apply flat_map_nil_all. intros chunk Hin.
  rewrite (Hnone chunk Hin). reflexivity.
Qed.

Lemma collect_matches_none_from (rule : ComplianceRule)
  (document_text : string) (chunks : list DocumentChunk)
  (patterns : list string) (acc : list ClauseMatch) :
  (forall pattern, In pattern patterns ->
     _find_pattern_matches pattern document_text chunks = Ok []) ->
  foldM (fun matched_clauses pattern =>
           bind (_find_pattern_matches pattern document_text chunks)
             (fun matches =>
                Ok (matched_clauses ++ map (clause_of_match rule) matches)%list))
    patterns acc = Ok acc.
Proof.
  revert acc. induction patterns as [|p ps IH]; intros acc H; simpl.
  - reflexivity.
  - rewrite (H p (or_introl eq_refl)). simpl. rewrite app_nil_r.
    apply IH. intros q Hq. apply H. right. exact Hq.
Qed.

(** The evaluation of a required rule none of whose patterns finds a
    match. *)
Lemma evaluate_required_rule_without_match
  (rule : ComplianceRule) (document_text : string)
  (chunks : list DocumentChunk) :
  rule_required rule = true ->
  (forall pattern, In pattern (rule_patterns rule) ->
     exists r, Re.compile pattern = Ok r /\
       forall chunk, In chunk chunks ->
         Re.finditer r (chunk_text chunk) = []) ->
  _evaluate_rule rule document_text chunks =
    Ok {| res_rule_id := rule_id rule;
          res_rule_name := rule_name rule;
          res_status := NON_COMPLIANT;
          res_matched_clauses := [];
          res_missing_clause := true;
          res_risk_score := F64.mul (rule_risk_weight rule) (F64.of_Z 100);
          res_recommendations := rule_recommendations rule |}.
Proof.
  intros Hreq Hnone.
  assert (Hcollect : collect_matches rule document_text chunks = Ok []).
  { unfold collect_matches. apply collect_matches_none_from.
    intros pattern Hin. destruct (Hnone pattern Hin) as [r [Hc Hr]].
    exact (find_pattern_matches_none pattern document_text chunks r Hc Hr). }
  unfold _evaluate_rule. rewrite Hcollect. simpl. rewrite Hreq. reflexivity.
Qed.

(** C1 (amended): a rule with [required=true] each of whose patterns
    compiles and finds nothing in any chunk of the document is evaluated to
    NON_COMPLIANT with [missing_clause=True], no matched clause and a risk
    score of [risk_weight * 100], whatever the regular-expression engine
    and whatever the document text passed along: the chunks are what rule
    evaluation searches. *)
Theorem required_rule_without_match_is_non_compliant
  (rule : ComplianceRule) (document_text : string)
  (chunks : list DocumentChunk) :
  rule_required rule = true ->
  (forall pattern, In pattern (rule_patterns rule) ->
     exists r, Re.compile pattern = Ok r /\
       forall chunk, In chunk chunks ->
         Re.finditer r (chunk_text chunk) = []) ->
  exists result,
    _evaluate_rule rule document_text chunks = Ok result /\
    res_status result = NON_COMPLIANT /\
    res_missing_clause result = true /\
    res_risk_score result = F64.mul (rule_risk_weight rule) (F64.of_Z 100) /\
    res_matched_clauses result = [].
Proof.
  intros Hreq Hnone. eexists. split.
  - apply evaluate_required_rule_without_match; assumption.
  - repeat split.
Qed.

End Generic.

Lemma required_rule_without_match_witness :
  rule_required Examples.indemnity_rule = true /\
  exists result,
    _evaluate_rule (E := Re.Fragment) Examples.indemnity_rule
      "This Agreement is governed by the laws of Ohio."
      Examples.silent_chunks = Ok result /\
    res_status result = NON_COMPLIANT /\
    res_missing_clause result = true /\
    res_risk_score result = F64.mul (F64.dec 9 10) (F64.of_Z 100) /\
    res_matched_clauses result = [].
Proof.
  split; [reflexivity|].
  apply (required_rule_without_match_is_non_compliant (E := Re.Fragment)
           Examples.indemnity_rule); [reflexivity|].
  intros pattern [<-|[]].
  eexists. split; [reflexivity|].
  intros chunk [<-|[]]. vm_compute. reflexivity.
Defined.

(** ** Compliance: aggregation *)

(** C2, as stated, fails: for risk scores 95, 0 and 0 the quotient is
    31.67, which the code truncates to 31 where rounding gives 32; and the
    category of the score 90 is the capitalised string. *)
Lemma overall_risk_score_is_truncated_not_rounded :
  _calculate_overall_risk_score Examples.three_results = Ok 31 /\
  spec_overall_risk_score Examples.three_results = Ok 32 /\
  _get_risk_category 90 = "Critical" /\
  String.eqb (_get_risk_category 90) "critical" = false.
Proof. repeat split; vm_compute; reflexivity. Qed.

Lemma overall_risk_score_unfold (rs : list ComplianceResult) :
  rs <> [] ->
  _calculate_overall_risk_score rs =
    bind (F64.to_int
            (F64.mul
               (F64.div (F64.sum (map res_risk_score rs))
                  (F64.of_Z (Z.of_nat (List.length rs) * 100)))
               (F64.of_Z 100)))
      (fun truncated => Ok (Z.min 100 truncated)).
Proof.
  intros Hne. destruct rs as [|r rs]; [contradiction|].
  unfold _calculate_overall_risk_score.
  replace (0 <? Z.of_nat (List.length (r :: rs)) * 100) with true;
    [reflexivity|].
  symmetry. apply Z.ltb_lt. simpl List.length. lia.
Qed.

Lemma overall_risk_score_at_most_100 (rs : list ComplianceResult) (v : Z) :
  _calculate_overall_risk_score rs = Ok v -> v <= 100.
Proof.
  destruct rs as [|r rs]; [intros H; injection H as <-; lia|].
  rewrite (overall_risk_score_unfold (r :: rs)) by discriminate.
  destruct (F64.to_int _) as [t|e]; simpl; intros Hv; [|discriminate].
  injection Hv as <-. apply Z.le_min_l.
Qed.

Lemma overall_risk_score_nonneg (rs : list ComplianceResult) (v : Z) :
  (forall r, In r rs -> F64.nonneg (res_risk_score r) = true) ->
  _calculate_overall_risk_score rs = Ok v -> 0 <= v.
Proof.
  intros Hrs. destruct rs as [|r rs]; [intros H; injection H as <-; lia|].
  rewrite (overall_risk_score_unfold (r :: rs)) by discriminate.
  destruct (F64.to_int _) as [t|e] eqn:Ht; simpl; intros Hv; [|discriminate].
  injection Hv as <-. apply Z.min_glb; [lia|].
  eapply F64Facts.to_int_nonneg; [|exact Ht].
  apply F64Facts.sign_clear_nonneg, F64Facts.mul_sign_clear;
    [|apply F64Facts.of_Z_sign_clear; lia].
  apply F64Facts.div_sign_clear; [|apply F64Facts.of_Z_sign_clear; lia].
  apply F64Facts.sum_sign_clear. intros x Hx.
  apply in_map_iff in Hx. destruct Hx as [r' [<- Hr']]. apply Hrs. exact Hr'.
Qed.

Section Bounds.

Context {E : Re.Engine}.

(** A rule whose weight is not below zero gets a risk score that is not
    below zero. *)
Lemma evaluate_rule_risk_nonneg (rule : ComplianceRule)
  (document_text : string) (chunks : list DocumentChunk)
  (res : ComplianceResult) :
  F64.nonneg (rule_risk_weight rule) = true ->
  _evaluate_rule rule document_text chunks = Ok res ->
  F64.nonneg (res_risk_score res) = true.
Proof.
  intros Hw. unfold _evaluate_rule.
  destruct (collect_matches rule document_text chunks) as [ms|e];
    [|discriminate].
  cbn [bind].
  assert (Hscaled : forall c, 0 <= c ->
            F64.nonneg (F64.mul (rule_risk_weight rule) (F64.of_Z c)) = true).
  { intros c Hc. apply F64Facts.mul_nonneg; [exact Hw|].
    apply F64Facts.sign_clear_nonneg, F64Facts.of_Z_sign_clear. exact Hc. }
  assert (Hdecide : F64.nonneg (snd (decide rule ms)) = true).
  { unfold decide. destruct ms as [|m ms].
    - destruct (rule_required rule); [apply Hscaled; lia|reflexivity].
    - destruct (F64.geb _ (F64.dec 8 10)); [reflexivity|].
      destruct (F64.geb _ (F64.dec 5 10)); apply Hscaled; lia. }
  destruct (decide rule ms) as [[status missing] risk].
  intros H. injection H as <-. exact Hdecide.
Qed.

Lemma evaluate_rules_risk_nonneg (rules : list ComplianceRule)
  (document_text : string) (chunks : list DocumentChunk)
  (results : list ComplianceResult) :
  (forall rule, In rule rules ->
     F64.leb (F64.of_Z 0) (rule_risk_weight rule) = true) ->
  evaluate_rules rules document_text chunks = Ok results ->
  forall r, In r results -> F64.nonneg (res_risk_score r) = true.
Proof.
  unfold evaluate_rules.
  assert (H : forall acc,
             (forall r, In r acc -> F64.nonneg (res_risk_score r) = true) ->
             (forall rule, In rule rules ->
                F64.leb (F64.of_Z 0) (rule_risk_weight rule) = true) ->
             foldM (fun compliance_results rule =>
                      bind (_evaluate_rule rule document_text chunks)
                        (fun result =>
                           Ok (compliance_results ++ [result])%list))
               rules acc = Ok results ->
             forall r, In r results ->
               F64.nonneg (res_risk_score r) = true).
  { induction rules as [|rule rules IH]; intros acc Hacc Hw Hfold.
    - simpl in Hfold. injection Hfold as <-. exact Hacc.
    - cbn [foldM] in Hfold.
      destruct (_evaluate_rule rule document_text chunks) as [res|e] eqn:Hres;
        [|discriminate].
      cbn [bind] in Hfold. apply (IH (acc ++ [res])%list); [| |exact Hfold].
      + intros r Hr. apply in_app_or in Hr. destruct Hr as [Hr|[<-|[]]].
        * apply Hacc. exact Hr.
        * apply (evaluate_rule_risk_nonneg rule document_text chunks);
            [|exact Hres].
          apply F64Facts.leb_zero_nonneg, Hw. left. reflexivity.
      + intros rule' Hin. apply Hw. right. exact Hin. }
  intros Hw Hfold. apply (H [] (fun r (Hr : In r []) => match Hr with end) Hw Hfold).
Qed.

End Bounds.

(** C2 (amended): for a non-empty list of results the overall score is
    [min(100, int(sum / (100 * rule_count) * 100))], where [int] truncates
    toward zero; it never exceeds 100, and for the results of rules whose
    weights are not below zero it is not below zero.  A single required
    rule of weight 0.9 that is missing gives the score 90, whose category
    is ["Critical"]. *)
Theorem overall_risk_score_truncates :
  (forall rs : list ComplianceResult,
     rs <> [] ->
     _calculate_overall_risk_score rs =
       bind (F64.to_int
               (F64.mul
                  (F64.div (F64.sum (map res_risk_score rs))
                     (F64.of_Z (Z.of_nat (List.length rs) * 100)))
                  (F64.of_Z 100)))
         (fun truncated => Ok (Z.min 100 truncated)))
  /\ (forall (E : Re.Engine) (rules : list ComplianceRule)
        (document_text : string) (chunks : list DocumentChunk)
        (results : list ComplianceResult) (v : Z),
        (forall rule, In rule rules ->
           F64.leb (F64.of_Z 0) (rule_risk_weight rule) = true) ->
        evaluate_rules rules document_text chunks = Ok results ->
        _calculate_overall_risk_score results = Ok v ->
        0 <= v <= 100)
  /\ (forall (E : Re.Engine) (rule : ComplianceRule) (document_text : string)
        (chunks : list DocumentChunk),
        rule_required rule = true ->
        rule_risk_weight rule = F64.dec 9 10 ->
        (forall pattern, In pattern (rule_patterns rule) ->
           exists r, Re.compile pattern = Ok r /\
             forall chunk, In chunk chunks ->
               Re.finditer r (chunk_text chunk) = []) ->
        exists result : ComplianceResult,
          _evaluate_rule rule document_text chunks = Ok result /\
          res_risk_score result = F64.of_Z 90 /\
          _calculate_overall_risk_score [result] = Ok 90 /\
          _get_risk_category 90 = "Critical").
Proof.
  split; [exact overall_risk_score_unfold|]. split.
  - intros E rules document_text chunks results v Hw Heval Hv. split.
    + apply (overall_risk_score_nonneg results v); [|exact Hv].
      apply (evaluate_rules_risk_nonneg rules document_text chunks results
               Hw Heval).
    + apply (overall_risk_score_at_most_100 results v Hv).
  - intros E rule document_text chunks Hreq Hweight Hnone.
    eexists. split.
    + apply evaluate_required_rule_without_match; assumption.
    + simpl. rewrite Hweight. repeat split; vm_compute; reflexivity.
Qed.

Lemma overall_risk_score_truncates_witness :
  Examples.three_results <> [] /\
  _calculate_overall_risk_score Examples.three_results =
    bind (F64.to_int
            (F64.mul
               (F64.div
                  (F64.sum (map res_risk_score Examples.three_results))
                  (F64.of_Z
                     (Z.of_nat (List.length Examples.three_results) * 100)))
               (F64.of_Z 100)))
      (fun truncated => Ok (Z.min 100 truncated)).
Proof.
  split; [discriminate|].
  apply (proj1 overall_risk_score_truncates Examples.three_results).
  discriminate.
Defined.

(** ** Compliance: a rule whose evaluation raises *)

Lemma foldM_app {A B : Type} (f : B -> A -> result B) (xs ys : list A)
  (acc : B) :
  foldM f (xs ++ ys)%list acc = bind (foldM f xs acc) (foldM f ys).
Proof.
  revert acc. induction xs as [|x xs IH]; intros acc; simpl.
  - reflexivity.
  - destruct (f acc x) as [acc'|e]; simpl; [apply IH|reflexivity].
Qed.

Section RuleErrors.

Context {E : Re.Engine}.

Lemma evaluate_rules_prefix_ok (rules : list ComplianceRule)
  (document_text : string) (chunks : list DocumentChunk)
  (acc : list ComplianceResult) :
  (forall r, In r rules ->
     exists res, _evaluate_rule r document_text chunks = Ok res) ->
  exists results,
    foldM (fun compliance_results rule =>
             bind (_evaluate_rule rule document_text chunks)
               (fun result => Ok (compliance_results ++ [result])%list))
      rules acc = Ok results.
Proof.
  revert acc. induction rules as [|r rules IH]; intros acc Hok; simpl.
  - exists acc. reflexivity.
  - destruct (Hok r (or_introl eq_refl)) as [res Hres]. rewrite Hres. simpl.
    apply IH. intros r' Hin. apply Hok. right. exact Hin.
Qed.

(** The loop stops at the first rule whose evaluation raises. *)
Lemma evaluate_rules_raises (before after : list ComplianceRule)
  (rule : ComplianceRule) (document_text : string)
  (chunks : list DocumentChunk) (e : exn) :
  (forall r, In r before ->
     exists res, _evaluate_rule r document_text chunks = Ok res) ->
  _evaluate_rule rule document_text chunks = Raise e ->
  evaluate_rules (before ++ rule :: after)%list document_text chunks = Raise e.
Proof.
  intros Hbefore Hraise. unfold evaluate_rules. rewrite foldM_app.
  destruct (evaluate_rules_prefix_ok before document_text chunks [] Hbefore)
    as [results Hresults].
  rewrite Hresults. simpl. rewrite Hraise. reflexivity.
Qed.

(** C6 (amended): no handler isolates a rule.  When the evaluation of one
    rule raises (the rules before it having been evaluated), the same error
    leaves [analyze_document]: no analysis is returned, the failing rule is
    not reported as REVIEW_REQUIRED, and the rules after it are not
    evaluated. *)
Theorem rule_error_aborts_analysis
  (repos : Repos) (now : string) (document_id : UUID) (org_id : string)
  (requested_playbook : option UUID) (document : Document)
  (playbook : Playbook) (chunks : list DocumentChunk)
  (before after : list ComplianceRule) (rule : ComplianceRule) (e : exn) :
  document_get_by_id repos document_id org_id = Ok (Some document) ->
  match requested_playbook with
  | Some pid => playbook_get_by_id repos pid org_id
  | None => playbook_get_default repos org_id
  end = Ok (Some playbook) ->
  fst (validate_playbook_schema (rules_json playbook)) = true ->
  parse_playbook_rules (rules_json playbook) = Ok (before ++ rule :: after)%list ->
  chunk_get_by_document repos document_id org_id = Ok chunks ->
  (forall r, In r before ->
     exists res,
       _evaluate_rule r (Str.join " " (map chunk_text chunks)) chunks
         = Ok res) ->
  _evaluate_rule rule (Str.join " " (map chunk_text chunks)) chunks
    = Raise e ->
  analyze_document repos now document_id org_id requested_playbook = Raise e.
Proof.
  intros Hdoc Hplaybook Hvalid Hparse Hchunks Hbefore Hraise.
  unfold analyze_document. rewrite Hdoc. cbn [bind]. rewrite Hplaybook.
  cbn [bind].
  destruct (validate_playbook_schema (rules_json playbook))
    as [is_valid errors].
  cbn [fst] in Hvalid. subst is_valid. cbn [negb].
  rewrite Hparse. cbn [bind]. rewrite Hchunks. cbn [bind].
  rewrite (evaluate_rules_raises before after rule _ chunks e Hbefore Hraise).
  reflexivity.
Qed.

End RuleErrors.

(** C6, as stated, fails: the playbook below passes schema validation, its
    first rule has the pattern ["*late fee"], which [re.compile] rejects,
    and its second rule evaluates without error; the analysis raises
    instead of reporting the first rule as REVIEW_REQUIRED. *)
Lemma broken_pattern_aborts_analysis :
  fst (validate_playbook_schema (rules_json Examples.broken_playbook)) = true
  /\ parse_playbook_rules (rules_json Examples.broken_playbook)
       = Ok [Examples.broken_rule; Examples.indemnity_rule]
  /\ (exists res,
        _evaluate_rule (E := Re.Fragment) Examples.indemnity_rule
          "The Supplier shall indemnify and hold harmless the Customer."
          Examples.supplier_chunks = Ok res /\
        res_status res = COMPLIANT)
  /\ analyze_document (E := Re.Fragment) Examples.broken_repos
       "2025-01-01T00:00:00" 1%N "org-1" None
     = Raise (ReError "nothing to repeat").
Proof.
  split; [vm_compute; reflexivity|].
  split; [vm_compute; reflexivity|]. split.
  - eexists. split; [vm_compute; reflexivity|]. vm_compute. reflexivity.
  - vm_compute. reflexivity.
Qed.

Lemma rule_error_aborts_analysis_witness :
  parse_playbook_rules (rules_json Examples.broken_playbook)
    = Ok [Examples.broken_rule; Examples.indemnity_rule] /\
  analyze_document (E := Re.Fragment) Examples.broken_repos
    "2025-01-01T00:00:00" 1%N "org-1" None
  = Raise (ReError "nothing to repeat").
Proof.
  split; [vm_compute; reflexivity|].
  apply (rule_error_aborts_analysis (E := Re.Fragment) Examples.broken_repos
           "2025-01-01T00:00:00" 1%N "org-1" None
           (mkDocument 1%N "Supply Contract") Examples.broken_playbook
           Examples.supplier_chunks [] [Examples.indemnity_rule]
           Examples.broken_rule (ReError "nothing to repeat")).
  - reflexivity.
  - reflexivity.
  - vm_compute. reflexivity.
  - vm_compute. reflexivity.
  - reflexivity.
  - intros r [].
  - vm_compute. reflexivity.
Defined.

(** ** Compliance: match confidence *)

(** The confidence of a match whose text equals the pattern, by the number
    of legal keywords in its context. *)
Lemma exact_match_confidence_by_keywords (pattern context matched : string) :
  Str.lower pattern = Str.lower matched ->
  _calculate_match_confidence pattern context matched =
    F64.min (F64.of_Z 1)
      (F64.add (F64.add (F64.dec 7 10) (F64.dec 2 10))
         (F64.min (F64.dec 1 10)
            (F64.mul
               (F64.of_Z
                  (Z.of_nat
                     (List.length
                        (filter (fun keyword =>
                                   Str.contains keyword (Str.lower context))
                           legal_keywords))))
               (F64.dec 2 100)))).
Proof.
  intros H. unfold _calculate_match_confidence. rewrite H, String.eqb_refl.
  reflexivity.
Qed.

(** With at least one legal keyword in the context, an exact match reaches
    0.9. *)
Lemma exact_match_with_keyword_reaches_0_9
  (pattern context matched keyword : string) :
  Str.lower pattern = Str.lower matched ->
  In keyword legal_keywords ->
  Str.contains keyword (Str.lower context) = true ->
  F64.geb (_calculate_match_confidence pattern context matched)
    (F64.dec 9 10) = true.
Proof.
  intros Hexact Hin Hkw.
  rewrite (exact_match_confidence_by_keywords pattern context matched Hexact).
  unfold legal_keywords in *. cbn [filter].
  repeat (destruct Hin as [<-|Hin]; [rewrite Hkw|]); [..|destruct Hin];
    repeat match goal with
      | |- context [Str.contains ?k (Str.lower context)] =>
          destruct (Str.contains k (Str.lower context))
      end; vm_compute; reflexivity.
Qed.

(** Without any legal keyword in the context, an exact match gets the
    binary64 sum of 0.7 and 0.2, which is below 0.9. *)
Lemma exact_match_without_keyword_confidence
  (pattern context matched : string) :
  Str.lower pattern = Str.lower matched ->
  (forall keyword, In keyword legal_keywords ->
     Str.contains keyword (Str.lower context) = false) ->
  _calculate_match_confidence pattern context matched
    = F64.add (F64.dec 7 10) (F64.dec 2 10) /\
  F64.geb (_calculate_match_confidence pattern context matched)
    (F64.dec 9 10) = false.
Proof.
  intros Hexact Hnone.
  rewrite (exact_match_confidence_by_keywords pattern context matched Hexact).
  unfold legal_keywords. cbn [filter].
  rewrite !Hnone by (unfold legal_keywords; simpl; tauto).
  split; vm_compute; reflexivity.
Qed.

(** C7: the claimed bound fails on the document below, whose text contains
    the phrase.  The match in the second chunk equals the pattern and has
    no legal keyword around it; its confidence is the binary64 sum
    0.7 + 0.2 = 0.8999999999999999, which is below 0.9, and its risk level
    is MEDIUM instead of LOW.  The rule is COMPLIANT with risk score 0 all
    the same. *)
Lemma exact_match_without_keyword_is_below_0_9 :
  let document_text :=
    Str.join " " (map chunk_text Examples.two_clause_chunks) in
  Str.contains "shall indemnify and hold harmless" document_text = true /\
  map_result (map (fun m => (pm_matched_text m,
                             F64.geb (pm_confidence m) (F64.dec 9 10))))
    (_find_pattern_matches (E := Re.Fragment) "indemnify" document_text
       Examples.two_clause_chunks)
  = Ok [("indemnify", true); ("indemnify", false)] /\
  map_result (fun ms => map pm_confidence (tl ms))
    (_find_pattern_matches (E := Re.Fragment) "indemnify" document_text
       Examples.two_clause_chunks)
  = Ok [F64.add (F64.dec 7 10) (F64.dec 2 10)] /\
  F64.ltb (F64.add (F64.dec 7 10) (F64.dec 2 10)) (F64.dec 9 10) = true /\
  map_result (fun r => (res_status r, res_risk_score r,
                        map cm_risk_level (res_matched_clauses r)))
    (_evaluate_rule (E := Re.Fragment) Examples.indemnity_rule document_text
       Examples.two_clause_chunks)
  = Ok (COMPLIANT, F64.of_Z 0, [LOW; MEDIUM]).
Proof. repeat split; vm_compute; reflexivity. Qed.

End ComplianceFacts.

(** ** Document comparison *)

Module ComparisonFacts.

Import Comparison.
Local Open Scope Z_scope.

Lemma similarity_score_by_count (changes : list TextChange) :
  _calculate_similarity_score changes =
    score_of_count (Z.of_nat (List.length changes)).
Proof.
  destruct changes as [|c changes]; [reflexivity|].
  unfold _calculate_similarity_score, score_of_count.
  replace (Z.of_nat (List.length (c :: changes)) =? 0) with false;
    [reflexivity|].
  symmetry. apply Z.eqb_neq. simpl List.length. lia.
Qed.

(** C9, as stated, fails for two identical documents: no change is fewer
    than ten changes, yet the score is 1.0 and not 0.9. *)
Lemma similarity_score_of_no_change_is_not_0_9 :
  _calculate_similarity_score [] = F64.of_Z 1 /\
  F64.eqb (_calculate_similarity_score []) (F64.dec 9 10) = false.
Proof. split; vm_compute; reflexivity. Qed.

(** C9 (amended): the similarity score depends on the number of text
    changes only; it is 1.0 for no change, 0.9 for 1 to 9 changes, 0.7 for
    10 to 49, 0.5 for 50 to 99 and 0.3 from 100 changes on. *)
Theorem similarity_score_buckets (changes : list TextChange) :
  let n := Z.of_nat (List.length changes) in
  (forall other : list TextChange,
     List.length other = List.length changes ->
     _calculate_similarity_score other = _calculate_similarity_score changes)
  /\ (n = 0 -> _calculate_similarity_score changes = F64.of_Z 1)
  /\ (1 <= n < 10 -> _calculate_similarity_score changes = F64.dec 9 10)
  /\ (10 <= n < 50 -> _calculate_similarity_score changes = F64.dec 7 10)
  /\ (50 <= n < 100 -> _calculate_similarity_score changes = F64.dec 5 10)
  /\ (100 <= n -> _calculate_similarity_score changes = F64.dec 3 10).
Proof.
  intros n. subst n. rewrite similarity_score_by_count.
  split; [intros other Hlen; rewrite similarity_score_by_count, Hlen;
          reflexivity|].
  unfold score_of_count.
  repeat split; intros Hn;
    repeat match goal with
      | |- context [?a =? ?b] => destruct (Z.eqb_spec a b); try lia
      | |- context [?a <? ?b] => destruct (Z.ltb_spec a b); try lia
      end; reflexivity.
Qed.

Lemma similarity_score_buckets_witness :
  1 <= Z.of_nat (List.length [Examples.one_change; Examples.one_change]) < 10
  /\ _calculate_similarity_score [Examples.one_change; Examples.one_change]
     = F64.dec 9 10.
Proof.
  split; [simpl; lia|].
  apply (proj1 (proj2 (proj2
           (similarity_score_buckets
              [Examples.one_change; Examples.one_change])))).
  simpl. lia.
Defined.

(** The lookup condition does not depend on the order of the pair. *)
Lemma pair_matches_sym (a b : UUID) (row : DocumentComparison) :
  pair_matches a b row = pair_matches b a row.
Proof. unfold pair_matches. apply orb_comm. Qed.

Lemma get_by_documents_sym (t : table) (a b : UUID) (org_id : string) :
  get_by_documents t a b org_id = get_by_documents t b a org_id.
Proof.
  unfold get_by_documents. f_equal. apply filter_ext.
  intros row. apply pair_matches_sym.
Qed.

(** Reading back what [_store_comparison_result] writes. *)
Lemma parse_text_changes_stored (changes : list TextChange) :
  comprehension parse_text_change (map text_change_json changes) = Ok changes.
Proof.
  induction changes as [|[[] text [line|] [page|] confidence] changes IH];
    [reflexivity|..]; cbn [map comprehension]; rewrite IH; reflexivity.
Qed.

Lemma parse_clause_changes_stored (changes : list ClauseChange) :
  comprehension parse_clause_change (map clause_change_json changes)
  = Ok changes.
Proof.
  induction changes
    as [|[[] clause [old_text|] [new_text|] impact [page|]] changes IH];
    [reflexivity|..]; cbn [map comprehension]; rewrite IH; reflexivity.
Qed.

Lemma risk_assessment_stored (d : jdict) :
  risk_assessment_or_empty (Some (JDict d)) = Ok d.
Proof. reflexivity. Qed.

Lemma parse_stored_comparison_stored (row : DocumentComparison)
  (stored : ComparisonResult) :
  stores row stored -> _parse_stored_comparison row = Ok stored.
Proof.
  intros [Ha [Hb [Hresult [Hrisk Hsummary]]]].
  unfold _parse_stored_comparison. rewrite Hresult, Hrisk, Hsummary, Ha, Hb.
  unfold comparison_result_json. cbn [as_dict bind].
  change (get_or_empty_list "text_changes" _)
    with (JArr (map text_change_json (text_changes stored))).
  change (get_or_empty_list "clause_changes" _)
    with (JArr (map clause_change_json (clause_changes stored))).
  cbn [iterate bind].
  rewrite parse_text_changes_stored, parse_clause_changes_stored.
  destruct stored. reflexivity.
Qed.

(** The one visible row of a pair is what the lookup finds. *)
Lemma filter_single {A : Type} (f : A -> bool) (before after : list A)
  (x : A) :
  f x = true ->
  (forall y, In y (before ++ after) -> f y = false) ->
  filter f (before ++ x :: after) = [x].
Proof.
  intros Hx Hothers. rewrite filter_app. cbn [filter]. rewrite Hx.
  assert (Hnone : forall l, (forall y, In y l -> f y = false) ->
                            filter f l = []).
  { induction l as [|y l IH]; intros H; [reflexivity|].
    cbn [filter]. rewrite (H y (or_introl eq_refl)).
    apply IH. intros z Hz. apply H. right. exact Hz. }
  rewrite (Hnone before), (Hnone after); [reflexivity| |];
    intros y Hy; apply Hothers; apply in_or_app; [right|left]; exact Hy.
Qed.

Lemma get_by_documents_single (before after : table)
  (row : DocumentComparison) (a b : UUID) (org_id : string) :
  dc_org_id row = org_id ->
  pair_matches a b row = true ->
  (forall other, In other (before ++ after) -> dc_org_id other = org_id ->
     pair_matches a b other = false) ->
  get_by_documents (before ++ row :: after) a b org_id = Ok (Some row).
Proof.
  intros Horg Hpair Hothers. unfold get_by_documents, visible.
  assert (Hboth :
            filter (pair_matches a b)
              (filter (fun row => String.eqb (dc_org_id row) org_id)
                 (before ++ row :: after))
            = filter (fun row => (String.eqb (dc_org_id row) org_id
                                  && pair_matches a b row)%bool)
                (before ++ row :: after)).
  { induction (before ++ row :: after) as [|y l IH]; [reflexivity|].
    cbn [filter]. destruct (String.eqb (dc_org_id y) org_id);
      cbn [filter andb]; rewrite IH; reflexivity. }
  rewrite Hboth, (filter_single _ before after row); [reflexivity| |].
  - rewrite Horg, String.eqb_refl, Hpair. reflexivity.
  - intros other Hin.
    destruct (String.eqb (dc_org_id other) org_id) eqn:Hvisible;
      [|reflexivity].
    apply String.eqb_eq in Hvisible. apply (Hothers other Hin Hvisible).
Qed.

(** C8: when the table holds, visible to the organization, one comparison
    of the pair and that row stores a comparison of (B, A), the lookup by
    (A, B) and the lookup by (B, A) both find that row, and
    [compare_documents(A, B)] as well as [compare_documents(B, A)] return
    the stored result, field by field, and leave the table as it is: no
    document is read, nothing is computed and nothing is stored, whatever
    these steps would do. *)
Theorem stored_comparison_lookup_is_order_independent
  (env : Env) (before after : table) (row : DocumentComparison)
  (stored : ComparisonResult) (a b : UUID) (org_id : string)
  (user_id : UUID) :
  let t := (before ++ row :: after)%list in
  document_a_id stored = b ->
  document_b_id stored = a ->
  stores row stored ->
  dc_org_id row = org_id ->
  (forall other, In other (before ++ after) -> dc_org_id other = org_id ->
     pair_matches a b other = false) ->
  get_by_documents t a b org_id = Ok (Some row) /\
  get_by_documents t b a org_id = Ok (Some row) /\
  compare_documents env t a b org_id user_id =
    (Ok {| document_a_id := b;
           document_b_id := a;
           text_changes := text_changes stored;
           clause_changes := clause_changes stored;
           similarity_score := similarity_score stored;
           risk_assessment := risk_assessment stored;
           comparison_summary := comparison_summary stored |}, t) /\
  compare_documents env t b a org_id user_id =
    (Ok {| document_a_id := b;
           document_b_id := a;
           text_changes := text_changes stored;
           clause_changes := clause_changes stored;
           similarity_score := similarity_score stored;
           risk_assessment := risk_assessment stored;
           comparison_summary := comparison_summary stored |}, t).
Proof.
  intros t Hb Ha Hstores Horg Hothers.
  assert (Hpair : pair_matches a b row = true).
  { destruct Hstores as [Hrow_a [Hrow_b _]]. unfold pair_matches.
    rewrite Hrow_a, Hrow_b, Ha, Hb, !N.eqb_refl. apply orb_true_r. }
  assert (Hfound : get_by_documents t a b org_id = Ok (Some row)).
  { apply get_by_documents_single; assumption. }
  assert (Hfound' : get_by_documents t b a org_id = Ok (Some row)).
  { rewrite <- (get_by_documents_sym t a b). exact Hfound. }
  split; [exact Hfound|]. split; [exact Hfound'|].
  unfold compare_documents. rewrite Hfound, Hfound'.
  rewrite (parse_stored_comparison_stored row stored Hstores).
  destruct stored. cbn in Ha, Hb. subst. split; reflexivity.
Qed.

Lemma stored_comparison_lookup_witness :
  let t := [Examples.foreign_row; Examples.stored_row; Examples.empty_row] in
  stores Examples.stored_row Examples.stored_result /\
  compare_documents Examples.failing_env t 1%N 2%N "org-1" 9%N
    = (Ok Examples.stored_result, t) /\
  compare_documents Examples.failing_env t 2%N 1%N "org-1" 9%N
    = (Ok Examples.stored_result, t).
Proof.
  assert (Hstores : stores Examples.stored_row Examples.stored_result).
  { repeat split. }
  split; [exact Hstores|].
  apply (stored_comparison_lookup_is_order_independent Examples.failing_env
           [Examples.foreign_row] [Examples.empty_row] Examples.stored_row
           Examples.stored_result 1%N 2%N "org-1" 9%N eq_refl eq_refl
           Hstores eq_refl).
  intros other [<-|[<-|[]]] Horg; [discriminate Horg|reflexivity].
Defined.

(** A row whose [comparison_result] is NULL is found as well, and reading
    it raises. *)
Lemma stored_comparison_without_result_raises :
  compare_documents Examples.failing_env [Examples.empty_row] 3%N 4%N
    "org-1" 9%N
  = (Raise (AttributeError "object has no attribute 'get'"),
     [Examples.empty_row]).
Proof. reflexivity. Qed.

End ComparisonFacts.

(** ** RAG query *)

Module RagQueryFacts.

Import Rag.
Local Open Scope string_scope.
Local Open Scope Z_scope.

(** A search whose similarity query returns no row yields no result and
    performs the embedding call only. *)
Lemma search_without_candidates (svc : Services) (q org_id : string)
  (document_ids : option (list UUID)) (limit : Z) (threshold : F64.float)
  (include_context : bool) (context_size : Z) (log : list event)
  (v : list F64.float) :
  embed_query svc q = Ok v ->
  chunk_similarity_search svc v org_id document_ids (limit * 2) threshold
    = Ok [] ->
  search svc q org_id document_ids limit threshold include_context
    context_size log = (Ok [], (log ++ [EmbeddingCall q])%list).
Proof.
  intros Hembed Hsearch.
  unfold search, generate_query_embedding, mbind, emit, lift, ret.
  rewrite Hembed, Hsearch. reflexivity.
Qed.

(** C4: when the similarity search returns nothing (no indexed chunk, or
    none above the threshold), the query returns the fixed informative
    answer with confidence 0.0 and no citation, and the only external call
    it makes is the query embedding: no LLM call is added to the log. *)
Theorem query_without_results
  (svc : Services) (elapsed : F64.float) (q org_id plan : string)
  (document_ids : option (list UUID)) (max_results : Z)
  (similarity_threshold : F64.float) (max_context_length : Z)
  (log : list event) (v : list F64.float) :
  embed_query svc q = Ok v ->
  chunk_similarity_search svc v org_id document_ids (max_results * 2)
    similarity_threshold = Ok [] ->
  let run :=
    query svc elapsed q org_id plan document_ids max_results
      similarity_threshold max_context_length log in
  fst run =
    Ok {| answer := no_results_answer;
          citations := [];
          confidence := F64.of_Z 0;
          model_used := "none";
          processing_time := elapsed;
          context_used := "" |}
  /\ snd run = (log ++ [EmbeddingCall q])%list
  /\ filter is_llm_call (snd run) = filter is_llm_call log.
Proof.
  intros Hembed Hsearch run.
  assert (Hrun : run =
    (Ok {| answer := no_results_answer;
           citations := [];
           confidence := F64.of_Z 0;
           model_used := "none";
           processing_time := elapsed;
           context_used := "" |}, (log ++ [EmbeddingCall q])%list)).
  { subst run. unfold query, try_except, mbind.
    rewrite (search_without_candidates svc q org_id document_ids max_results
               similarity_threshold true 2 log v Hembed Hsearch).
    reflexivity. }
  rewrite Hrun. simpl. repeat split.
  rewrite filter_app. simpl. apply app_nil_r.
Qed.

Lemma query_without_results_witness :
  let run :=
    query Examples.empty_index (F64.dec 1 100) "What is the liability cap?"
      "org-1" "pro" None 10 (F64.dec 7 10) 4000 [] in
  fst run =
    Ok {| answer := no_results_answer;
          citations := [];
          confidence := F64.of_Z 0;
          model_used := "none";
          processing_time := F64.dec 1 100;
          context_used := "" |}
  /\ snd run = [EmbeddingCall "What is the liability cap?"]
  /\ filter is_llm_call (snd run) = [].
Proof.
  apply (query_without_results Examples.empty_index (F64.dec 1 100)
           "What is the liability cap?" "org-1" "pro" None 10 (F64.dec 7 10)
           4000 [] [F64.of_Z 1; F64.of_Z 0]); reflexivity.
Defined.

End RagQueryFacts.

(** ** Context window *)

Module ContextFacts.

Import Rag.
Local Open Scope string_scope.
Local Open Scope Z_scope.

Lemma len_nonneg (s : string) : 0 <= Str.len s.
Proof. unfold Str.len. lia. Qed.

Lemma len_append (s t : string) : Str.len (s ++ t) = Str.len s + Str.len t.
Proof.
  unfold Str.len. induction s as [|c s IH]; simpl String.length.
  - simpl. lia.
  - rewrite !Nat2Z.inj_succ. lia.
Qed.

Lemma fold_lines_length (chunks : list DocumentChunk) (header : string) :
  Str.len header <=
  Str.len (fold_left (fun text chunk => text ++ section_line chunk)
             chunks header).
Proof.
  revert header. induction chunks as [|c chunks IH]; intros header; simpl.
  - lia.
  - specialize (IH (header ++ section_line c)). rewrite len_append in IH.
    pose proof (len_nonneg (section_line c)). lia.
Qed.

(** Every section starts with a line break, so it is not empty. *)
Lemma section_text_positive (result : SearchResult) :
  0 < Str.len (section_text result).
Proof.
  unfold section_text.
  eapply Z.lt_le_trans; [|apply fold_lines_length].
  rewrite len_append. pose proof (len_nonneg
    ("--- From: " ++
     match sr_document result with
     | Some d => doc_title d
     | None => "Unknown Document"
     end ++ " ---" ++ nl)).
  change (Str.len nl) with 1. lia.
Qed.

Lemma sections_length_nonneg (results : list SearchResult) :
  0 <= sections_length results.
Proof.
  induction results as [|r results IH]; simpl; [lia|].
  pose proof (section_text_positive r). lia.
Qed.


(** As long as the running total fits, sections are appended in order. *)
Lemma context_parts_fitting (pre rest : list SearchResult) (max : Z)
  (parts : list string) (current : Z) :
  current + sections_length pre <= max ->
  context_parts (pre ++ rest)%list max parts current =
    context_parts rest max (parts ++ map section_text pre)%list
      (current + sections_length pre).
Proof.
  revert parts current. induction pre as [|r pre IH]; intros parts current Hfit.
  - simpl. rewrite app_nil_r, Z.add_0_r. reflexivity.
  - simpl in Hfit. pose proof (sections_length_nonneg pre) as Hpre.
    simpl app. cbn [context_parts].
    destruct (Z.ltb_spec max (current + Str.len (section_text r))); [lia|].
    rewrite IH by lia. simpl. rewrite <- app_assoc. simpl.
    f_equal. lia.
Qed.







End ContextFacts.

(** ** MMR reranking *)

Module MmrFacts.

Import Rag.
Local Open Scope Z_scope.

(** Comparison of binary64 values is antisymmetric. *)
Lemma SFcompare_antisym (x y : F64.float) :
  SFcompare y x = option_map CompOpp (SFcompare x y).
Proof.
  destruct x as [sx|sx| |sx mx ex], y as [sy|sy| |sy my ey]; simpl;
    try reflexivity;
    try (destruct sx; reflexivity);
    try (destruct sy; reflexivity);
    try (destruct sx, sy; reflexivity).
  destruct sx, sy; simpl; try reflexivity;
    rewrite (Z.compare_antisym ex ey);
    destruct (ex ?= ey); simpl; try reflexivity;
    pose proof (Pos.compare_cont_antisym mx my Eq) as H; simpl in H;
    change (PosDef.Pos.compare_cont Eq my mx)
      with (Pos.compare_cont Eq my mx);
    rewrite <- H; try rewrite CompOpp_involutive; reflexivity.
Qed.

Lemma gtb_asym (a b : F64.float) :
  F64.gtb a b = true -> F64.gtb b a = false.
Proof.
  unfold F64.gtb, SFltb. rewrite (SFcompare_antisym b a).
  destruct (SFcompare b a) as [[| |]|]; simpl; congruence.
Qed.

Lemma gtb_irrefl (a : F64.float) : F64.gtb a a = false.
Proof.
  destruct (F64.gtb a a) eqn:H; [|reflexivity].
  rewrite (gtb_asym a a H) in H. discriminate.
Qed.

Section Selection.

Variable score : nat -> F64.float.

(** The candidate that strictly beats every other one is the maximum,
    wherever it stands in the list. *)
Lemma max_by_score_dominant (d : nat) (best : nat) (others : list nat) :
  (forall i, In i (best :: others) -> i <> d ->
     F64.gtb (score d) (score i) = true) ->
  In d (best :: others) ->
  fst (max_by_score (best, score best)
         (map (fun idx => (idx, score idx)) others)) = d.
Proof.
  revert best. induction others as [|x others IH]; intros best Hdom Hin.
  - simpl. destruct Hin as [->|[]]. reflexivity.
  - simpl map. cbn [max_by_score snd].
    destruct (Nat.eq_dec best d) as [->|Hbest].
    + (* the dominant candidate is the current best: it stays *)
      assert (Hx : F64.gtb (score x) (score d) = false).
      { destruct (Nat.eq_dec x d) as [->|Hxd]; [apply gtb_irrefl|].
        apply gtb_asym. apply Hdom; [right; left; reflexivity|exact Hxd]. }
      rewrite Hx. apply IH.
      * intros i Hi. apply Hdom. destruct Hi as [->|Hi];
          [left; reflexivity|right; right; exact Hi].
      * left. reflexivity.
    + destruct Hin as [Heq|Hin]; [congruence|].
      destruct (F64.gtb (score x) (score best)) eqn:Hcmp.
      * apply IH.
        -- intros i Hi. apply Hdom. right. exact Hi.
        -- exact Hin.
      * destruct (Nat.eq_dec x d) as [->|Hxd].
        -- rewrite (Hdom best (or_introl eq_refl) Hbest) in Hcmp.
           discriminate.
        -- apply IH.
           ++ intros i Hi. apply Hdom. destruct Hi as [->|Hi];
                [left; reflexivity|right; right; exact Hi].
           ++ destruct Hin as [Heq|Hin]; [congruence|]. right. exact Hin.
Qed.

End Selection.

Section Loop.

Variable cosine_similarity : list F64.float -> list F64.float -> F64.float.

(** The loop only ever appends to the selection. *)
Lemma mmr_loop_extends (fuel : nat) (lambda_param : F64.float)
  (query_vec : list F64.float) (chunk_vecs : list (list F64.float))
  (limit : Z) (selected remaining : list nat) :
  exists more,
    mmr_loop cosine_similarity fuel lambda_param query_vec chunk_vecs limit
      selected remaining = (selected ++ more)%list.
Proof.
  revert selected remaining.
  induction fuel as [|fuel IH]; intros selected remaining; simpl.
  - exists []. symmetry. apply app_nil_r.
  - destruct (Z.of_nat (List.length selected) <? limit);
      [|exists []; symmetry; apply app_nil_r].
    destruct remaining as [|first others];
      [exists []; symmetry; apply app_nil_r|].
    match goal with
    | |- context [mmr_loop _ fuel _ _ _ _ (selected ++ [?b])%list ?rem] =>
        destruct (IH (selected ++ [b])%list rem) as [more Hmore];
        exists (b :: more); rewrite Hmore, <- app_assoc; reflexivity
    end.
Qed.

Lemma max_by_score_member (best : nat * F64.float)
  (rest : list (nat * F64.float)) :
  In (fst (max_by_score best rest)) (fst best :: map fst rest).
Proof.
  revert best. induction rest as [|x rest IH]; intros best; simpl.
  - left. reflexivity.
  - destruct (IH (if F64.gtb (snd x) (snd best) then x else best))
      as [Hhere|Hlater].
    + rewrite <- Hhere. destruct (F64.gtb (snd x) (snd best)); auto.
    + right. right. exact Hlater.
Qed.

Lemma remove_first_length (x : nat) (l : list nat) :
  In x l -> S (List.length (remove_first x l)) = List.length l.
Proof.
  induction l as [|y l IH]; intros Hin; [destruct Hin|]. simpl.
  destruct (Nat.eqb_spec x y) as [->|Hne]; [reflexivity|].
  destruct Hin as [Heq|Hin]; [congruence|].
  simpl. rewrite (IH Hin). reflexivity.
Qed.

(** Every iteration removes one remaining index, so the number of remaining
    indices is enough fuel: more fuel does not change the selection. *)
Lemma mmr_loop_fuel_irrelevant (fuel fuel' : nat) (lambda_param : F64.float)
  (query_vec : list F64.float) (chunk_vecs : list (list F64.float))
  (limit : Z) (selected remaining : list nat) :
  (List.length remaining <= fuel)%nat ->
  (List.length remaining <= fuel')%nat ->
  mmr_loop cosine_similarity fuel lambda_param query_vec chunk_vecs limit
    selected remaining
  = mmr_loop cosine_similarity fuel' lambda_param query_vec chunk_vecs limit
      selected remaining.
Proof.
  revert fuel' selected remaining.
  induction fuel as [|fuel IH]; intros fuel' selected remaining Hf Hf'.
  - destruct remaining; [|simpl in Hf; lia].
    destruct fuel'; simpl; [reflexivity|].
    destruct (Z.of_nat (List.length selected) <? limit); reflexivity.
  - destruct fuel' as [|fuel'].
    + destruct remaining; [|simpl in Hf'; lia]. simpl.
      destruct (Z.of_nat (List.length selected) <? limit); reflexivity.
    + cbn [mmr_loop].
      destruct (Z.of_nat (List.length selected) <? limit); [|reflexivity].
      destruct remaining as [|first others]; [reflexivity|].
      match goal with
      | |- context [remove_first ?b (first :: others)] =>
          assert (Hb : In b (first :: others))
      end.
      { match goal with
        | |- In (fst (max_by_score ?best ?rest)) _ =>
            pose proof (max_by_score_member best rest) as Hm
        end.
        rewrite map_map in Hm. simpl in Hm. rewrite map_id in Hm. exact Hm. }
      pose proof (remove_first_length _ _ Hb) as Hlen.
      cbn [List.length] in Hf, Hf', Hlen.
      apply IH; lia.
Qed.

(** C3 (amended): when the pool is larger than the limit (and the limit is
    at least 2), MMR selects the first-ranked candidate and then, among the
    remaining ones, a candidate of greatest score
    [lambda * relevance - (1 - lambda) * max similarity to the selection].
    So the distinct chunk is chosen right after the first near-duplicate,
    ahead of every remaining near-duplicate, whenever its score is strictly
    greater than the score of each of them; pairwise similarity above 0.95
    among the near-duplicates does not by itself make it so. *)
Theorem mmr_selects_strictly_best_candidate
  (chunk_results : list (DocumentChunk * F64.float))
  (query_embedding : list F64.float) (limit : Z) (lambda_param : F64.float)
  (first : DocumentChunk * F64.float) (d : nat) :
  limit < Z.of_nat (List.length chunk_results) ->
  2 <= limit ->
  (1 <= d < List.length chunk_results)%nat ->
  let chunk_vecs :=
    map (fun r => embedding_row query_embedding (fst r)) chunk_results in
  let score :=
    mmr_score cosine_similarity lambda_param query_embedding chunk_vecs
      [0%nat] in
  (forall i, (1 <= i < List.length chunk_results)%nat -> i <> d ->
     F64.gtb (score d) (score i) = true) ->
  exists rest,
    _apply_mmr_reranking cosine_similarity chunk_results query_embedding
      limit lambda_param =
    Ok (nth 0 chunk_results first :: nth d chunk_results first :: rest).
Proof.
  intros Hpool Hlimit Hd chunk_vecs score Hdom.
  unfold _apply_mmr_reranking.
  destruct (Z.leb_spec (Z.of_nat (List.length chunk_results)) limit); [lia|].
  destruct chunk_results as [|head tail]; [simpl in Hd; lia|].
  set (results := head :: tail) in *.
  assert (Hlen : exists n, List.length results = S (S n)).
  { simpl in Hpool |- *. destruct tail as [|t tail]; simpl in *; [lia|].
    eexists. reflexivity. }
  destruct Hlen as [n Hlen].
  replace (List.length results - 1)%nat with (S n) by lia.
  rewrite length_seq. cbn [seq mmr_loop List.length].
  destruct (Z.ltb_spec (Z.of_nat 1) limit); [|lia].
  fold chunk_vecs. fold score.
  assert (Hbest :
    fst (max_by_score (1%nat, score 1%nat)
           (map (fun idx => (idx, score idx)) (seq 2 n))) = d).
  { apply max_by_score_dominant.
    - intros i Hi Hid. apply Hdom; [|exact Hid].
      change (1%nat :: seq 2 n) with (seq 1 (S n)) in Hi.
      apply in_seq in Hi. lia.
    - change (1%nat :: seq 2 n) with (seq 1 (S n)). apply in_seq. lia. }
  rewrite Hbest.
  destruct (mmr_loop_extends n lambda_param query_embedding chunk_vecs limit
              ([0%nat] ++ [d])%list (remove_first d (1%nat :: seq 2 n)))
    as [more Hmore].
  rewrite Hmore. simpl app. cbn [map].
  exists (map (fun i => nth i results head) more).
  rewrite (@nth_indep _ results 0%nat first head) by lia.
  rewrite (@nth_indep _ results d first head) by lia.
  reflexivity.
Qed.

End Loop.

(** C3, as stated, fails: three chunks whose pairwise cosine similarity
    exceeds 0.95, one chunk that is at most 0.86 similar to each of them,
    and the limit 3.  After the first near-duplicate the second and the
    third are selected; the distinct chunk is not selected at all. *)
Lemma mmr_prefers_near_duplicates :
  let sim a b :=
    cosine_similarity_rows (embedding_row Examples.mmr_query a)
      (embedding_row Examples.mmr_query b) in
  let above_0_95 x := F64.gtb x (F64.dec 95 100) in
  forallb above_0_95
    [sim Examples.duplicate_1 Examples.duplicate_2;
     sim Examples.duplicate_1 Examples.duplicate_3;
     sim Examples.duplicate_2 Examples.duplicate_3] = true /\
  forallb (fun x => F64.ltb x (F64.dec 86 100))
    [sim Examples.distinct_chunk Examples.duplicate_1;
     sim Examples.distinct_chunk Examples.duplicate_2;
     sim Examples.distinct_chunk Examples.duplicate_3] = true /\
  3 < Z.of_nat (List.length Examples.mmr_pool) /\
  option_map (map (fun r => chunk_no (fst r)))
    match _apply_mmr_reranking cosine_similarity_rows Examples.mmr_pool
            Examples.mmr_query 3 default_lambda with
    | Ok reranked => Some reranked
    | Raise _ => None
    end = Some [0; 1; 2].
Proof. repeat split; vm_compute; reflexivity. Qed.

Lemma mmr_selects_strictly_best_candidate_witness :
  exists rest,
    _apply_mmr_reranking cosine_similarity_rows Examples.diverse_pool
      Examples.mmr_query 2 default_lambda =
    Ok (nth 0 Examples.diverse_pool
          (Examples.distinct_chunk, F64.of_Z 0)
        :: nth 2 Examples.diverse_pool
             (Examples.distinct_chunk, F64.of_Z 0) :: rest).
Proof.
  apply (mmr_selects_strictly_best_candidate cosine_similarity_rows
           Examples.diverse_pool Examples.mmr_query 2 default_lambda
           (Examples.distinct_chunk, F64.of_Z 0) 2).
  - simpl. lia.
  - lia.
  - simpl. lia.
  - intros i Hi Hne. simpl in Hi.
    assert (Hi1 : i = 1%nat) by lia. subst i. vm_compute. reflexivity.
Defined.

End MmrFacts.

(** ** Case-insensitive matching *)

Module CaseFacts.

Import Compliance.
Local Open Scope string_scope.
Local Open Scope Z_scope.

(** *** Lower-casing and the string operations *)

Ltac all_chars c :=
  destruct c as [[] [] [] [] [] [] [] []]; vm_compute; reflexivity.

Lemma lower_char_idem (c : ascii) :
  Str.lower_char (Str.lower_char c) = Str.lower_char c.
Proof. all_chars c. Qed.



Lemma lower_idem (s : string) : Str.lower (Str.lower s) = Str.lower s.
Proof.
  induction s as [|c s IH]; simpl; [reflexivity|].
  rewrite lower_char_idem, IH. reflexivity.
Qed.













(** *** The matcher reads the text through [lower_char] only *)



Section Lowered.












End Lowered.

(** *** Patterns that keep [re.IGNORECASE] *)











(** *** What such a pattern finds *)



(** *** Rule evaluation on texts that differ in case *)

Section AnyEngine.

Context {E : Re.Engine}.









End AnyEngine.




(** The pattern ["indemnify"] finds the clause in upper case. *)
Lemma indemnify_matches_upper_case :
  map_result (map pm_matched_text)
    (_find_pattern_matches (E := Re.Fragment) "indemnify"
       "THE SUPPLIER SHALL INDEMNIFY THE CUSTOMER."
       Examples.upper_case_chunks)
  = Ok ["INDEMNIFY"].
Proof. vm_compute. reflexivity. Qed.


End CaseFacts.

(** ** Matches in the document text and matches in the chunks

    Rule evaluation searches the chunks one by one, while the document text
    is the chunks joined by blanks.  A pattern that looks only at the
    characters it consumes and finds nothing in the document text finds
    nothing in any chunk; an anchored pattern can match in a chunk and not
    in the document text. *)

Module DocumentTextFacts.

Import Compliance.
Local Open Scope string_scope.
Local Open Scope Z_scope.

Section Extension.

(** [u] is what follows the searched text in a longer text. *)
Variable u : list ascii.

(** The same position in the longer text, whatever precedes it. *)
Let extends (st st' : Re.state) : Prop := snd st' = (snd st ++ u)%list.

(** A continuation that succeeds in the longer text wherever another one
    succeeds in the text itself. *)
Let covers (k k' : Re.state -> option (list ascii)) : Prop :=
  forall st st', extends st st' -> k st <> None -> k' st' <> None.

Lemma star_loop_extends
  (body : (Re.state -> option (list ascii)) -> Re.state
          -> option (list ascii)) :
  (forall k k', covers k k' -> covers (body k) (body k')) ->
  forall k k', covers k k' ->
  forall fuel fuel', (fuel <= fuel')%nat ->
    covers (Re.star_loop body k fuel) (Re.star_loop body k' fuel').
Proof.
  intros Hbody k k' Hk fuel.
  induction fuel as [|fuel IH]; intros fuel' Hle st st' Hst H.
  - cbn [Re.star_loop] in H. destruct fuel' as [|fuel'].
    + apply (Hk st st' Hst H).
    + cbn [Re.star_loop]. destruct (body _ st'); [discriminate|].
      apply (Hk st st' Hst H).
  - destruct fuel' as [|fuel']; [lia|].
    cbn [Re.star_loop] in *.
    destruct (body _ st) as [rest|] eqn:Hround.
    + assert (Hlong :
                body (fun st1 =>
                        if Nat.ltb (List.length (snd st1))
                             (List.length (snd st'))
                        then Re.star_loop body k' fuel' st1 else None) st'
                <> None).
      { refine (Hbody _ _ _ st st' Hst _); [|rewrite Hround; discriminate].
        intros st1 st1' Hst1 H1.
        unfold extends in Hst, Hst1. rewrite Hst, Hst1, !length_app.
        destruct (Nat.ltb (List.length (snd st1)) (List.length (snd st)))
          eqn:Hlt; [|congruence].
        apply Nat.ltb_lt in Hlt.
        replace (Nat.ltb _ _) with true
          by (symmetry; apply Nat.ltb_lt; lia).
        apply (IH fuel' ltac:(lia) st1 st1' Hst1 H1). }
      destruct (body _ st'); [discriminate|congruence].
    + destruct (body _ st'); [discriminate|].
      apply (Hk st st' Hst H).
Qed.

Lemma m_extends (r : Re.regex) :
  Re.context_free r = true ->
  forall k k', covers k k' -> covers (Re.m r k) (Re.m r k').
Proof.
  induction r as [|a ic| | |negated|r1 IH1 r2 IH2|r1 IH1 r2 IH2|r IH];
    intros Hr k k' Hk st st' Hst H; cbn [Re.context_free] in Hr;
    try discriminate.
  - apply (Hk st st' Hst H).
  - destruct st as [prev [|c s]]; [exact (False_ind _ (H eq_refl))|].
    destruct st' as [prev' s']. unfold extends in Hst. cbn [snd] in Hst.
    subst s'. cbn [Re.m snd app] in *.
    destruct (Re.atom_match a ic c); [|exact H].
    apply (Hk (Some c, s) (Some c, (s ++ u)%list) eq_refl H).
  - apply andb_prop in Hr. destruct Hr as [H1 H2]. cbn [Re.m] in *.
    apply (IH1 H1 (Re.m r2 k) (Re.m r2 k') (IH2 H2 k k' Hk) st st' Hst H).
  - apply andb_prop in Hr. destruct Hr as [H1 H2]. cbn [Re.m] in *.
    destruct (Re.m r1 k st) eqn:Hfirst.
    + pose proof (IH1 H1 k k' Hk st st' Hst) as Hlong.
      rewrite Hfirst in Hlong.
      destruct (Re.m r1 k' st'); [discriminate|].
      exfalso. apply Hlong; [discriminate|reflexivity].
    + destruct (Re.m r1 k' st'); [discriminate|].
      apply (IH2 H2 k k' Hk st st' Hst H).
  - cbn [Re.m] in *.
    refine (star_loop_extends (Re.m r) (IH Hr) k k' Hk _ _ _ st st' Hst H).
    unfold extends in Hst. rewrite Hst, length_app. lia.
Qed.

Lemma match_at_none_prefix (r : Re.regex) (st st' : Re.state) :
  Re.context_free r = true ->
  extends st st' ->
  Re.match_at r false st' = None -> Re.match_at r false st = None.
Proof.
  intros Hr Hst. unfold Re.match_at. cbn [andb].
  destruct (Re.m r _ st') eqn:Hlong; [discriminate|]. intros _.
  destruct (Re.m r _ st) eqn:Hshort; [|reflexivity].
  exfalso.
  refine (m_extends r Hr _ _ _ st st' Hst _ Hlong);
    [|rewrite Hshort; discriminate].
  intros st1 st1' _ _. discriminate.
Qed.

End Extension.

(** A scan finds nothing exactly when no position has a match. *)
Lemma scan_nil_inv (r : Re.regex) (prev : option ascii) (s : list ascii)
  (pos : nat) :
  Re.scan r prev s pos 0 = [] ->
  forall before after, s = (before ++ after)%list ->
    exists p, Re.match_at r false (p, after) = None.
Proof.
  revert prev pos.
  induction s as [|c s IH]; intros prev pos Hscan before after Hs.
  - destruct before; [|discriminate]. simpl in Hs. subst after.
    exists prev. cbn [Re.scan] in Hscan. unfold Re.attempts in Hscan.
    destruct (Re.match_at r false (prev, [])) as [[|l]|]; [| |reflexivity].
    + destruct (Re.match_at r true (prev, [])) as [[|l]|]; discriminate.
    + discriminate.
  - cbn [Re.scan] in Hscan. apply app_eq_nil in Hscan.
    destruct Hscan as [Hhere Hrest]. unfold Re.attempts in Hhere, Hrest.
    destruct (Re.match_at r false (prev, c :: s)) as [[|l]|] eqn:Hm.
    + destruct (Re.match_at r true (prev, c :: s)) as [[|l]|]; discriminate.
    + discriminate.
    + destruct before as [|b before].
      * simpl in Hs. subst after. exists prev. exact Hm.
      * injection Hs as _ Hs.
        apply (IH (Some c) (S pos) Hrest before after Hs).
Qed.

Lemma scan_nil_intro (r : Re.regex) (prev : option ascii) (s : list ascii)
  (pos : nat) :
  (forall p before after, s = (before ++ after)%list ->
     Re.match_at r false (p, after) = None) ->
  Re.scan r prev s pos 0 = [].
Proof.
  revert prev pos. induction s as [|c s IH]; intros prev pos Hnone.
  - cbn [Re.scan]. unfold Re.attempts.
    rewrite (Hnone prev [] [] eq_refl). reflexivity.
  - cbn [Re.scan]. unfold Re.attempts.
    rewrite (Hnone prev [] (c :: s) eq_refl). cbn [fst snd app].
    apply IH. intros p before after Hs.
    apply (Hnone p (c :: before) after). rewrite Hs. reflexivity.
Qed.

Lemma chars_append (s t : string) :
  Str.chars (s ++ t) = (Str.chars s ++ Str.chars t)%list.
Proof.
  unfold Str.chars. induction s as [|c s IH]; simpl; [reflexivity|].
  rewrite IH. reflexivity.
Qed.

(** Nothing found in a text: nothing found in any part of it, by a pattern
    that looks only at what it consumes. *)
Lemma finditer_nil_in_part (r : Re.regex) (pre text post : string) :
  Re.context_free r = true ->
  Re.finditer (Engine := Re.Fragment) r (pre ++ text ++ post) = [] ->
  Re.finditer (Engine := Re.Fragment) r text = [].
Proof.
  intros Hr. cbn [Re.finditer Re.Fragment]. rewrite !chars_append.
  intros Hscan. apply scan_nil_intro. intros p before after Hs.
  destruct (scan_nil_inv r _ _ 0%nat Hscan
              (Str.chars pre ++ before)%list
              (after ++ Str.chars post)%list) as [p' Hp'].
  { rewrite Hs, <- !app_assoc. reflexivity. }
  apply (match_at_none_prefix (Str.chars post) r (p, after)
           (p', (after ++ Str.chars post)%list) Hr eq_refl Hp').
Qed.

Lemma append_empty (s : string) : s ++ "" = s.
Proof. induction s as [|c s IH]; simpl; congruence. Qed.

Lemma append_assoc (s t v : string) : (s ++ t) ++ v = s ++ t ++ v.
Proof. induction s as [|c s IH]; simpl; congruence. Qed.

Lemma join_part (sep : string) (parts : list string) (x : string) :
  In x parts -> exists pre post, Str.join sep parts = pre ++ x ++ post.
Proof.
  induction parts as [|p parts IH]; intros Hin; [destruct Hin|].
  destruct Hin as [->|Hin].
  - destruct parts as [|q parts].
    + exists "", "". simpl. symmetry. apply append_empty.
    + exists "", (sep ++ Str.join sep (q :: parts)). reflexivity.
  - destruct (IH Hin) as [pre [post Hjoin]].
    destruct parts as [|q parts]; [destruct Hin|].
    exists (p ++ sep ++ pre), post.
    change (Str.join sep (p :: q :: parts))
      with (p ++ sep ++ Str.join sep (q :: parts)).
    rewrite Hjoin, !append_assoc. reflexivity.
Qed.

(** The document text that [analyze_document] builds. *)
Lemma no_match_in_document_text (r : Re.regex)
  (chunks : list DocumentChunk) :
  Re.context_free r = true ->
  Re.finditer (Engine := Re.Fragment) r
    (Str.join " " (map chunk_text chunks)) = [] ->
  forall chunk, In chunk chunks ->
    Re.finditer (Engine := Re.Fragment) r (chunk_text chunk) = [].
Proof.
  intros Hr Hnone chunk Hin.
  destruct (join_part " " (map chunk_text chunks) (chunk_text chunk)
              (in_map chunk_text chunks chunk Hin)) as [pre [post Hjoin]].
  rewrite Hjoin in Hnone. apply (finditer_nil_in_part r pre _ post Hr Hnone).
Qed.

(** C1, as stated, fails for a pattern anchored at the start of the searched
    text.  The pattern ["^indemnify"] finds nothing in the document text
    ["Payment is due in 30 days. Indemnify the Customer against all claims."],
    but the second chunk starts with the clause: the required rule has one
    match of confidence 0.7 and is up for review with risk 27, not reported
    missing. *)
Lemma anchored_pattern_matches_chunk_only :
  let document_text :=
    Str.join " " (map chunk_text Examples.payment_then_indemnity) in
  rule_required Examples.anchored_rule = true /\
  document_text
  = "Payment is due in 30 days. Indemnify the Customer against all claims." /\
  (exists r,
     Re.compile (Engine := Re.Fragment) "^indemnify" = Ok r /\
     Re.finditer (Engine := Re.Fragment) r document_text = []) /\
  map_result verdict
    (_evaluate_rule (E := Re.Fragment) Examples.anchored_rule document_text
       Examples.payment_then_indemnity)
  = Ok (REVIEW_REQUIRED, false, F64.of_Z 27, [(F64.dec 7 10, 1, MEDIUM)]).
Proof.
  cbv zeta. split; [reflexivity|]. split; [reflexivity|]. split.
  - eexists. split; [vm_compute; reflexivity|]. vm_compute. reflexivity.
  - vm_compute. reflexivity.
Qed.

(** A required rule and the document text: when the patterns of the rule
    have no [^], [$], [\b] or [\B] and find nothing in the joined text of
    the chunks, the rule is NON_COMPLIANT with [missing_clause=True] and risk
    score [risk_weight * 100]. *)
Corollary required_rule_absent_from_document_text
  (rule : ComplianceRule) (chunks : list DocumentChunk) :
  let document_text := Str.join " " (map chunk_text chunks) in
  rule_required rule = true ->
  (forall pattern, In pattern (rule_patterns rule) ->
     exists r, Re.compile (Engine := Re.Fragment) pattern = Ok r /\
       Re.context_free r = true /\
       Re.finditer (Engine := Re.Fragment) r document_text = []) ->
  map_result verdict
    (_evaluate_rule (E := Re.Fragment) rule document_text chunks)
  = Ok (NON_COMPLIANT, true,
        F64.mul (rule_risk_weight rule) (F64.of_Z 100), []).
Proof.
  intros document_text Hreq Hnone.
  rewrite (ComplianceFacts.evaluate_required_rule_without_match
             (E := Re.Fragment) rule document_text chunks Hreq);
    [reflexivity|].
  intros pattern Hin. destruct (Hnone pattern Hin) as [r [Hc [Hfree Hr]]].
  exists r. split; [exact Hc|].
  apply no_match_in_document_text; assumption.
Qed.

Lemma required_rule_absent_from_document_text_witness :
  map_result verdict
    (_evaluate_rule (E := Re.Fragment) Examples.indemnity_rule
       (Str.join " " (map chunk_text Examples.silent_chunks))
       Examples.silent_chunks)
  = Ok (NON_COMPLIANT, true, F64.mul (F64.dec 9 10) (F64.of_Z 100), []).
Proof.
  apply (required_rule_absent_from_document_text Examples.indemnity_rule
           Examples.silent_chunks eq_refl).
  intros pattern [<-|[]]. eexists.
  split; [vm_compute; reflexivity|]. split; vm_compute; reflexivity.
Defined.

End DocumentTextFacts.

(** ** Loops that append to a list *)

(** A loop that appends one computed element per input succeeds exactly
    when every element is computed, and returns the elements in order. *)
Lemma foldM_snoc_inv {A B : Type} (f : A -> result B) (xs : list A) :
  forall (acc out : list B),
    foldM (fun acc x => bind (f x) (fun y => Ok (acc ++ [y]))) xs acc = Ok out ->
    exists ys, out = acc ++ ys /\ Forall2 (fun x y => f x = Ok y) xs ys.
Proof.
  induction xs as [|x xs IH]; intros acc out H.
  - simpl in H. injection H as <-. exists []. split; [|constructor].
    symmetry. apply app_nil_r.
  - cbn [foldM] in H. destruct (f x) as [y|e] eqn:Hy; [|discriminate].
    cbn [bind] in H. destruct (IH _ _ H) as [ys [-> Hys]].
    exists (y :: ys). split.
    + rewrite <- app_assoc. reflexivity.
    + constructor; assumption.
Qed.

Lemma foldM_snoc_ok {A B : Type} (f : A -> result B) (xs : list A)
  (ys : list B) :
  Forall2 (fun x y => f x = Ok y) xs ys ->
  forall acc,
    foldM (fun acc x => bind (f x) (fun y => Ok (acc ++ [y]))) xs acc
    = Ok (acc ++ ys).
Proof.
  induction 1 as [|x y xs ys Hy _ IH]; intros acc.
  - simpl. rewrite app_nil_r. reflexivity.
  - cbn [foldM]. rewrite Hy. cbn [bind]. rewrite IH, <- app_assoc.
    reflexivity.
Qed.

(** A loop that appends a computed batch per input. *)
Lemma foldM_extend_inv {A B C : Type} (f : A -> result C) (h : C -> list B)
  (xs : list A) :
  forall (acc out : list B),
    foldM (fun acc x => bind (f x) (fun c => Ok (acc ++ h c))) xs acc = Ok out ->
    exists cs, out = acc ++ flat_map h cs /\
               Forall2 (fun x c => f x = Ok c) xs cs.
Proof.
  induction xs as [|x xs IH]; intros acc out H.
  - simpl in H. injection H as <-. exists []. split; [|constructor].
    symmetry. apply app_nil_r.
  - cbn [foldM] in H. destruct (f x) as [c|e] eqn:Hc; [|discriminate].
    cbn [bind] in H. destruct (IH _ _ H) as [cs [-> Hcs]].
    exists (c :: cs). split.
    + simpl. rewrite <- app_assoc. reflexivity.
    + constructor; assumption.
Qed.

Module AnalysisFacts.

Import Compliance.
Local Open Scope string_scope.
Local Open Scope Z_scope.

Lemma status_eqb_eq (a b : ComplianceStatus) :
  status_eqb a b = true <-> a = b.
Proof. destruct a, b; simpl; split; intros H; congruence. Qed.

Lemma count_status_pos (s : ComplianceStatus) (rs : list ComplianceResult) :
  (0 <? count_status s rs) = true <->
  exists r, In r rs /\ res_status r = s.
Proof.
  unfold count_status. rewrite Z.ltb_lt. split.
  - intros H.
    destruct (filter (fun r => status_eqb (res_status r) s) rs) as [|r l] eqn:Hf;
      [simpl in H; lia|].
    assert (Hin : In r (filter (fun r => status_eqb (res_status r) s) rs))
      by (rewrite Hf; left; reflexivity).
    apply filter_In in Hin. destruct Hin as [Hin Hs].
    exists r. split; [exact Hin|]. apply status_eqb_eq. exact Hs.
  - intros [r [Hin Hs]].
    assert (Hf : In r (filter (fun r => status_eqb (res_status r) s) rs)).
    { apply filter_In. split; [exact Hin|]. apply status_eqb_eq. exact Hs. }
    destruct (filter _ rs); [destruct Hf|]. simpl List.length. lia.
Qed.

Lemma count_status_none (s : ComplianceStatus) (rs : list ComplianceResult) :
  (0 <? count_status s rs) = false <->
  forall r, In r rs -> res_status r <> s.
Proof.
  split.
  - intros H r Hin Hs.
    assert (Hpos : (0 <? count_status s rs) = true)
      by (apply count_status_pos; exists r; split; assumption).
    congruence.
  - intros H. destruct (0 <? count_status s rs) eqn:Hc; [|reflexivity].
    apply count_status_pos in Hc. destruct Hc as [r [Hin Hs]].
    destruct (H r Hin Hs).
Qed.

Lemma status_non_compliant_iff (rs : list ComplianceResult) :
  _determine_compliance_status rs = NON_COMPLIANT <->
  exists r, In r rs /\ res_status r = NON_COMPLIANT.
Proof.
  destruct rs as [|r0 rs].
  - simpl. split; [discriminate|]. intros [r [[] _]].
  - unfold _determine_compliance_status.
    remember (r0 :: rs) as l eqn:Hl. clear Hl.
    destruct (0 <? count_status NON_COMPLIANT l) eqn:Hn.
    + apply count_status_pos in Hn. split; [intros _; exact Hn|reflexivity].
    + pose proof (proj1 (count_status_none _ _) Hn) as Hnone.
      split.
      * destruct (0 <? count_status REVIEW_REQUIRED l); discriminate.
      * intros [r [Hin Hs]]. destruct (Hnone r Hin Hs).
Qed.

Lemma status_review_required_iff (rs : list ComplianceResult) :
  _determine_compliance_status rs = REVIEW_REQUIRED <->
  (forall r, In r rs -> res_status r <> NON_COMPLIANT) /\
  exists r, In r rs /\ res_status r = REVIEW_REQUIRED.
Proof.
  destruct rs as [|r0 rs].
  - simpl. split; [discriminate|]. intros [_ [r [[] _]]].
  - unfold _determine_compliance_status.
    remember (r0 :: rs) as l eqn:Hl. clear Hl.
    destruct (0 <? count_status NON_COMPLIANT l) eqn:Hn.
    + apply count_status_pos in Hn. destruct Hn as [r [Hin Hs]].
      split; [discriminate|]. intros [H _]. destruct (H r Hin Hs).
    + pose proof (proj1 (count_status_none _ _) Hn) as Hnone.
      destruct (0 <? count_status REVIEW_REQUIRED l) eqn:Hr.
      * apply count_status_pos in Hr. split; [|reflexivity].
        intros _. split; assumption.
      * pose proof (proj1 (count_status_none _ _) Hr) as Hrev.
        split; [discriminate|]. intros [_ [r [Hin Hs]]].
        destruct (Hrev r Hin Hs).
Qed.

Lemma status_compliant_iff (rs : list ComplianceResult) :
  _determine_compliance_status rs = COMPLIANT <->
  forall r, In r rs -> res_status r = COMPLIANT.
Proof.
  destruct rs as [|r0 rs].
  - simpl. split; [intros _ r []|reflexivity].
  - unfold _determine_compliance_status.
    remember (r0 :: rs) as l eqn:Hl. clear Hl.
    destruct (0 <? count_status NON_COMPLIANT l) eqn:Hn.
    + apply count_status_pos in Hn. destruct Hn as [r [Hin Hs]].
      split; [discriminate|]. intros H. specialize (H r Hin). congruence.
    + pose proof (proj1 (count_status_none _ _) Hn) as Hnone.
      destruct (0 <? count_status REVIEW_REQUIRED l) eqn:Hr.
      * apply count_status_pos in Hr. destruct Hr as [r [Hin Hs]].
        split; [discriminate|]. intros H. specialize (H r Hin). congruence.
      * pose proof (proj1 (count_status_none _ _) Hr) as Hrev.
        split; [|reflexivity]. intros _ r Hin.
        specialize (Hnone r Hin). specialize (Hrev r Hin).
        destruct (res_status r); congruence.
Qed.

(** The overall status is the worst status among the results:
    NON_COMPLIANT as soon as one result is, otherwise REVIEW_REQUIRED as
    soon as one result is, and COMPLIANT only if every result is (in
    particular for no results at all). *)
Theorem overall_status_is_the_worst_status (rs : list ComplianceResult) :
  (_determine_compliance_status rs = NON_COMPLIANT <->
     exists r, In r rs /\ res_status r = NON_COMPLIANT) /\
  (_determine_compliance_status rs = REVIEW_REQUIRED <->
     (forall r, In r rs -> res_status r <> NON_COMPLIANT) /\
     exists r, In r rs /\ res_status r = REVIEW_REQUIRED) /\
  (_determine_compliance_status rs = COMPLIANT <->
     forall r, In r rs -> res_status r = COMPLIANT).
Proof.
  split; [apply status_non_compliant_iff|].
  split; [apply status_review_required_iff|apply status_compliant_iff].
Qed.

Lemma count_status_partition (rs : list ComplianceResult) :
  count_status COMPLIANT rs + count_status NON_COMPLIANT rs
  + count_status REVIEW_REQUIRED rs = Z.of_nat (List.length rs).
Proof.
  unfold count_status. induction rs as [|r rs IH]; [reflexivity|].
  cbn [filter]. destruct (res_status r); cbn [status_eqb List.length];
    rewrite ?Nat2Z.inj_succ in *; lia.
Qed.

Lemma create_analysis_summary_inv (rs : list ComplianceResult) (overall : Z)
  (now : string) (s : Summary) :
  _create_analysis_summary rs overall now = Ok s ->
  total_rules_evaluated s = Z.of_nat (List.length rs) /\
  compliant_rules s = count_status COMPLIANT rs /\
  non_compliant_rules s = count_status NON_COMPLIANT rs /\
  review_required_rules s = count_status REVIEW_REQUIRED rs /\
  (rs = [] -> compliance_percentage s = 100) /\
  summary_overall_risk_score s = overall /\
  risk_category s = _get_risk_category overall.
Proof.
  unfold _create_analysis_summary.
  destruct (if 0 <? Z.of_nat (List.length rs) then _ else _) as [p|e] eqn:Hp;
    [|discriminate].
  cbn [bind]. intros H. injection H as <-. cbn.
  repeat split. intros ->. simpl in Hp. injection Hp as <-. reflexivity.
Qed.

(** The summary counts every result once: the numbers of compliant,
    non-compliant and review-required rules add up to the number of rules
    evaluated; it repeats the overall score it is given and labels it with
    the category of that score; without any rule the compliance percentage
    is 100. *)
Theorem analysis_summary_counts_every_rule_once
  (rs : list ComplianceResult) (overall : Z) (now : string) (s : Summary) :
  _create_analysis_summary rs overall now = Ok s ->
  total_rules_evaluated s = Z.of_nat (List.length rs) /\
  compliant_rules s + non_compliant_rules s + review_required_rules s
  = total_rules_evaluated s /\
  0 <= compliant_rules s /\ 0 <= non_compliant_rules s /\
  0 <= review_required_rules s /\
  (rs = [] -> compliance_percentage s = 100) /\
  summary_overall_risk_score s = overall /\
  risk_category s = _get_risk_category overall.
Proof.
  intros H. apply create_analysis_summary_inv in H.
  destruct H as [Ht [Hc [Hn [Hr [He [Ho Hcat]]]]]].
  rewrite Ht, Hc, Hn, Hr.
  repeat split; try assumption; try (unfold count_status; lia).
  apply count_status_partition.
Qed.

Lemma overall_status_is_the_worst_status_witness :
  (exists r, In r Examples.three_results /\ res_status r = NON_COMPLIANT) /\
  _determine_compliance_status Examples.three_results = NON_COMPLIANT.
Proof.
  assert (H : exists r, In r Examples.three_results /\
                        res_status r = NON_COMPLIANT).
  { eexists. split; [left; reflexivity|reflexivity]. }
  split; [exact H|].
  apply (proj2 (proj1 (overall_status_is_the_worst_status
                         Examples.three_results))).
  exact H.
Defined.

Lemma analysis_summary_counts_every_rule_once_witness :
  exists s,
    _create_analysis_summary Examples.three_results 31 "2024-05-01T09:30:00"
    = Ok s /\
    total_rules_evaluated s = 3 /\
    compliant_rules s + non_compliant_rules s + review_required_rules s
    = total_rules_evaluated s.
Proof.
  pose proof (analysis_summary_counts_every_rule_once Examples.three_results
                31 "2024-05-01T09:30:00") as H.
  eexists. split; [vm_compute; reflexivity|].
  destruct (H _ ltac:(vm_compute; reflexivity)) as [Ht [Hsum _]].
  split; [exact Ht|exact Hsum].
Defined.

End AnalysisFacts.

(** ** Compliance: the verdict on a rule *)

Module RuleFacts.

Import Compliance.
Local Open Scope string_scope.
Local Open Scope Z_scope.

(** The confidence of any match lies between 0.7 and 1.0. *)
Lemma match_confidence_range (pattern context matched : string) :
  F64.geb (_calculate_match_confidence pattern context matched)
    (F64.dec 7 10) = true /\
  F64.leb (_calculate_match_confidence pattern context matched)
    (F64.of_Z 1) = true.
Proof.
  unfold _calculate_match_confidence.
  pose proof (filter_length_le
                (fun keyword => Str.contains keyword (Str.lower context))
                legal_keywords) as Hle.
  change (List.length legal_keywords) with 10%nat in Hle.
  remember (List.length
              (filter (fun keyword => Str.contains keyword (Str.lower context))
                 legal_keywords)) as n eqn:Hn.
  clear Hn.
  destruct (String.eqb (Str.lower pattern) (Str.lower matched));
    do 11 (destruct n as [|n]; [split; vm_compute; reflexivity|]); lia.
Qed.

Lemma risk_level_of_confident_match (c : F64.float) :
  F64.geb c (F64.dec 7 10) = true ->
  _determine_clause_risk_level c = LOW \/
  _determine_clause_risk_level c = MEDIUM.
Proof.
  intros H. unfold _determine_clause_risk_level.
  destruct (F64.geb c (F64.dec 9 10)); [left; reflexivity|].
  rewrite H. right. reflexivity.
Qed.

Lemma Forall2_In_r {A B : Type} (P : A -> B -> Prop) (xs : list A)
  (ys : list B) (y : B) :
  Forall2 P xs ys -> In y ys -> exists x, In x xs /\ P x y.
Proof.
  induction 1 as [|x0 y0 xs ys H0 _ IH]; intros Hin; [destruct Hin|].
  destruct Hin as [<-|Hin].
  - exists x0. split; [left; reflexivity|exact H0].
  - destruct (IH Hin) as [x [Hx HP]]. exists x. split; [right|]; assumption.
Qed.

Section Rules.

Context {E : Re.Engine}.

Lemma find_pattern_matches_inv (pattern document_text : string)
  (chunks : list DocumentChunk) (ms : list PatternMatch) :
  _find_pattern_matches pattern document_text chunks = Ok ms ->
  forall m, In m ms ->
    exists chunk span, In chunk chunks /\ m = match_entry pattern chunk span.
Proof.
  unfold _find_pattern_matches.
  destruct (Re.compile pattern) as [r|e]; [|discriminate].
  cbn [bind]. intros H. injection H as <-. intros m Hin.
  apply in_flat_map in Hin. destruct Hin as [chunk [Hc Hm]].
  apply in_map_iff in Hm. destruct Hm as [span [<- _]].
  exists chunk, span. split; [exact Hc|reflexivity].
Qed.

Lemma collect_matches_inv (rule : ComplianceRule) (document_text : string)
  (chunks : list DocumentChunk) (cs : list ClauseMatch) :
  collect_matches rule document_text chunks = Ok cs ->
  forall c, In c cs ->
    exists pattern chunk span,
      In pattern (rule_patterns rule) /\ In chunk chunks /\
      c = clause_of_match rule (match_entry pattern chunk span).
Proof.
  unfold collect_matches. intros H.
  apply (foldM_extend_inv
           (fun pattern => _find_pattern_matches pattern document_text chunks)
           (map (clause_of_match rule))) in H.
  destruct H as [mss [-> HF]]. cbn [app]. intros c Hin.
  apply in_flat_map in Hin. destruct Hin as [ms [Hms Hc]].
  apply in_map_iff in Hc. destruct Hc as [m [<- Hm]].
  destruct (Forall2_In_r _ _ _ _ HF Hms) as [pattern [Hp Hfind]].
  destruct (find_pattern_matches_inv _ _ _ _ Hfind m Hm)
    as [chunk [span [Hchunk ->]]].
  exists pattern, chunk, span. repeat split; assumption.
Qed.

Lemma evaluate_rule_inv (rule : ComplianceRule) (document_text : string)
  (chunks : list DocumentChunk) (res : ComplianceResult) :
  _evaluate_rule rule document_text chunks = Ok res ->
  collect_matches rule document_text chunks = Ok (res_matched_clauses res) /\
  decide rule (res_matched_clauses res)
  = (res_status res, res_missing_clause res, res_risk_score res) /\
  res_rule_id res = rule_id rule /\
  res_rule_name res = rule_name rule /\
  res_recommendations res =
    (if status_eqb (res_status res) COMPLIANT then []
     else rule_recommendations rule).
Proof.
  unfold _evaluate_rule.
  destruct (collect_matches rule document_text chunks) as [cs|e];
    [|discriminate].
  cbn [bind]. destruct (decide rule cs) as [[status missing] risk] eqn:Hd.
  intros H. injection H as <-. cbn. rewrite Hd. repeat split.
Qed.

(** Every clause matched for a rule carries the rule's clause type and
    identifier, a page number other than 0, and a confidence between 0.7
    and 1.0; its risk level is therefore LOW or MEDIUM, never HIGH or
    CRITICAL. *)
Theorem matched_clause_is_never_high_risk (rule : ComplianceRule)
  (document_text : string) (chunks : list DocumentChunk)
  (res : ComplianceResult) :
  _evaluate_rule rule document_text chunks = Ok res ->
  forall c, In c (res_matched_clauses res) ->
    cm_clause_type c = rule_clause_type rule /\
    cm_matched_rule c = Some (rule_id rule) /\
    cm_page c <> 0 /\
    F64.geb (cm_confidence c) (F64.dec 7 10) = true /\
    F64.leb (cm_confidence c) (F64.of_Z 1) = true /\
    (cm_risk_level c = LOW \/ cm_risk_level c = MEDIUM).
Proof.
  intros H c Hin. apply evaluate_rule_inv in H. destruct H as [Hc _].
  destruct (collect_matches_inv _ _ _ _ Hc c Hin)
    as [pattern [chunk [span [_ [_ ->]]]]].
  cbn [clause_of_match match_entry cm_clause_type cm_matched_rule cm_page
       cm_confidence cm_risk_level pm_confidence pm_page].
  destruct (match_confidence_range pattern
              (Str.strip
                 (Str.slice (chunk_text chunk)
                    (Z.max 0 (Z.of_nat (fst span) - 100))
                    (Z.min (Str.len (chunk_text chunk))
                       (Z.of_nat (snd span) + 100))))
              (Re.group (chunk_text chunk) span)) as [Hlo Hhi].
  repeat split; try assumption.
  - unfold page_or_1. destruct (chunk_page chunk) as [p|]; [|discriminate].
    destruct (p =? 0) eqn:Hp; [discriminate|]. apply Z.eqb_neq. exact Hp.
  - apply risk_level_of_confident_match. exact Hlo.
Qed.

Lemma compliant_verdict_is_clean (rule : ComplianceRule)
  (document_text : string) (chunks : list DocumentChunk)
  (res : ComplianceResult) :
  _evaluate_rule rule document_text chunks = Ok res ->
  res_status res = COMPLIANT ->
  res_risk_score res = F64.of_Z 0 /\ res_recommendations res = [].
Proof.
  intros H Hc. apply evaluate_rule_inv in H.
  destruct H as [_ [Hd [_ [_ Hrec]]]].
  rewrite Hc in Hrec. split; [|exact Hrec].
  unfold decide in Hd. rewrite Hc in Hd.
  destruct (res_matched_clauses res) as [|c cs].
  - destruct (rule_required rule); congruence.
  - destruct (F64.geb _ (F64.dec 8 10));
      [|destruct (F64.geb _ (F64.dec 5 10))]; congruence.
Qed.

(** The verdict on a rule is coherent: a clause is reported missing exactly
    when the rule is required and nothing matched, and then the rule is
    NON_COMPLIANT; an optional rule without a match is COMPLIANT; a
    COMPLIANT rule has risk score 0 and no recommendations, and any other
    verdict carries the rule's recommendations. *)
Theorem rule_verdict_is_coherent (rule : ComplianceRule)
  (document_text : string) (chunks : list DocumentChunk)
  (res : ComplianceResult) :
  _evaluate_rule rule document_text chunks = Ok res ->
  res_rule_id res = rule_id rule /\
  res_rule_name res = rule_name rule /\
  (res_missing_clause res = true <->
     rule_required rule = true /\ res_matched_clauses res = []) /\
  (res_missing_clause res = true -> res_status res = NON_COMPLIANT) /\
  (rule_required rule = false -> res_matched_clauses res = [] ->
     res_status res = COMPLIANT) /\
  (res_status res = COMPLIANT ->
     res_risk_score res = F64.of_Z 0 /\ res_recommendations res = []) /\
  (res_status res <> COMPLIANT ->
     res_recommendations res = rule_recommendations rule).
Proof.
  intros H. apply evaluate_rule_inv in H.
  destruct H as [_ [Hd [Hid [Hname Hrec]]]].
  split; [exact Hid|]. split; [exact Hname|].
  unfold decide in Hd.
  destruct (res_matched_clauses res) as [|c cs].
  - destruct (rule_required rule); injection Hd as Hs Hm Hr;
      rewrite <- Hs in Hrec; rewrite <- Hs, <- Hm, <- Hr, Hrec; cbn;
      repeat split; intros; try discriminate; try reflexivity; try tauto;
      try congruence.
  - destruct (F64.geb _ (F64.dec 8 10));
      [|destruct (F64.geb _ (F64.dec 5 10))];
      injection Hd as Hs Hm Hr;
      rewrite <- Hs in Hrec; rewrite <- Hs, <- Hm, <- Hr, Hrec; cbn;
      repeat split; intros; try discriminate; try reflexivity; try tauto;
      try congruence;
      match goal with H : _ /\ _ |- _ => destruct H; discriminate end.
Qed.

End Rules.

Lemma matched_clause_is_never_high_risk_witness :
  exists res,
    _evaluate_rule (E := Re.Fragment) Examples.indemnity_rule
      "The Supplier shall indemnify and hold harmless the Customer. Each side will indemnify the other."
      Examples.two_clause_chunks = Ok res /\
    List.length (res_matched_clauses res) = 2%nat /\
    forall c, In c (res_matched_clauses res) ->
      cm_clause_type c = "indemnity" /\
      cm_matched_rule c = Some "indemnity_clause" /\
      cm_page c <> 0 /\
      F64.geb (cm_confidence c) (F64.dec 7 10) = true /\
      F64.leb (cm_confidence c) (F64.of_Z 1) = true /\
      (cm_risk_level c = LOW \/ cm_risk_level c = MEDIUM).
Proof.
  eexists. split; [vm_compute; reflexivity|]. split; [reflexivity|].
  apply (matched_clause_is_never_high_risk (E := Re.Fragment)
           Examples.indemnity_rule
           "The Supplier shall indemnify and hold harmless the Customer. Each side will indemnify the other."
           Examples.two_clause_chunks).
  vm_compute. reflexivity.
Defined.

Lemma rule_verdict_is_coherent_witness :
  exists res,
    _evaluate_rule (E := Re.Fragment) Examples.indemnity_rule
      "This Agreement is governed by the laws of Ohio."
      Examples.silent_chunks = Ok res /\
    res_missing_clause res = true /\
    res_status res = NON_COMPLIANT /\
    res_recommendations res = [JStr "Add mutual indemnity clause"].
Proof.
  eexists. split; [vm_compute; reflexivity|].
  destruct (rule_verdict_is_coherent (E := Re.Fragment)
              Examples.indemnity_rule
              "This Agreement is governed by the laws of Ohio."
              Examples.silent_chunks _ eq_refl)
    as [_ [_ [Hmissing [Hstatus [_ [_ Hrecs]]]]]].
  assert (Hm : res_missing_clause
                 {| res_rule_id := "indemnity_clause";
                    res_rule_name := "Indemnity Clause";
                    res_status := NON_COMPLIANT;
                    res_matched_clauses := [];
                    res_missing_clause := true;
                    res_risk_score :=
                      F64.mul (F64.dec 9 10) (F64.of_Z 100);
                    res_recommendations :=
                      [JStr "Add mutual indemnity clause"] |} = true)
    by reflexivity.
  split; [exact Hm|]. split; [exact (Hstatus Hm)|].
  apply Hrecs. discriminate.
Defined.

End RuleFacts.

(** ** Compliance: the analysis run *)

Module RunFacts.

Import Compliance.
Local Open Scope string_scope.
Local Open Scope Z_scope.

Section Run.

Context {E : Re.Engine}.

(** What a successful run went through. *)
Lemma analyze_document_inv (repos : Repos) (now : string)
  (document_id : UUID) (org_id : string) (requested_playbook : option UUID)
  (a : AnalysisResult) :
  analyze_document repos now document_id org_id requested_playbook = Ok a ->
  exists playbook rules chunks,
    fst (validate_playbook_schema (rules_json playbook)) = true /\
    parse_playbook_rules (rules_json playbook) = Ok rules /\
    chunk_get_by_document repos document_id org_id = Ok chunks /\
    evaluate_rules rules (Str.join " " (map chunk_text chunks)) chunks
    = Ok (compliance_results a) /\
    _calculate_overall_risk_score (compliance_results a)
    = Ok (overall_risk_score a) /\
    compliance_status a
    = _determine_compliance_status (compliance_results a) /\
    missing_clauses a
    = map res_rule_name
        (filter (fun r => (res_missing_clause r
                           && status_eqb (res_status r) NON_COMPLIANT)%bool)
           (compliance_results a)) /\
    an_recommendations a
    = flat_map res_recommendations (compliance_results a) /\
    _create_analysis_summary (compliance_results a) (overall_risk_score a) now
    = Ok (summary a) /\
    an_document_id a = document_id /\
    an_playbook_id a = playbook_id playbook.
Proof.
  unfold analyze_document.
  destruct (document_get_by_id repos document_id org_id) as [[doc|]|e];
    try discriminate.
  cbn [bind].
  destruct (match requested_playbook with
            | Some pid => playbook_get_by_id repos pid org_id
            | None => playbook_get_default repos org_id
            end) as [[playbook|]|e]; try discriminate.
  cbn [bind].
  destruct (validate_playbook_schema (rules_json playbook))
    as [is_valid errors] eqn:Hvalid.
  destruct is_valid; [|discriminate]. cbn [negb].
  destruct (parse_playbook_rules (rules_json playbook)) as [rules|e] eqn:Hp;
    [|discriminate].
  cbn [bind].
  destruct (chunk_get_by_document repos document_id org_id)
    as [chunks|e] eqn:Hc; [|discriminate].
  cbn [bind].
  destruct (evaluate_rules rules _ chunks) as [results|e] eqn:He;
    [|discriminate].
  cbn [bind].
  destruct (_calculate_overall_risk_score results) as [overall|e] eqn:Ho;
    [|discriminate].
  cbn [bind].
  destruct (_create_analysis_summary results overall now) as [s|e] eqn:Hs;
    [|discriminate].
  cbn [bind]. intros H. injection H as <-.
  exists playbook, rules, chunks. rewrite Hvalid.
  repeat split; assumption.
Qed.

Lemma evaluate_rules_inv (rules : list ComplianceRule)
  (document_text : string) (chunks : list DocumentChunk)
  (results : list ComplianceResult) :
  evaluate_rules rules document_text chunks = Ok results ->
  Forall2 (fun rule res => _evaluate_rule rule document_text chunks = Ok res)
    rules results.
Proof.
  unfold evaluate_rules. intros H.
  apply (foldM_snoc_inv
           (fun rule => _evaluate_rule rule document_text chunks)) in H.
  destruct H as [ys [-> HF]]. exact HF.
Qed.

End Run.

Lemma filter_none {A : Type} (f : A -> bool) (l : list A) :
  (forall x, In x l -> f x = false) -> filter f l = [].
Proof.
  induction l as [|x l IH]; intros H; [reflexivity|].
  cbn [filter]. rewrite (H x (or_introl eq_refl)).
  apply IH. intros y Hy. apply H. right. exact Hy.
Qed.

Lemma sum_of_zeros (xs : list F64.float) :
  (forall x, In x xs -> x = F64.of_Z 0) -> F64.sum xs = F64.of_Z 0.
Proof.
  unfold F64.sum. induction xs as [|x xs IH]; intros H; [reflexivity|].
  cbn [fold_left]. rewrite (H x (or_introl eq_refl)).
  change (F64.add (F64.of_Z 0) (F64.of_Z 0)) with (F64.of_Z 0).
  apply IH. intros y Hy. apply H. right. exact Hy.
Qed.

Lemma zero_quotient_truncates_to_0 (d : F64.float) (v : Z) :
  F64.to_int (F64.mul (F64.div (F64.of_Z 0) d) (F64.of_Z 100)) = Ok v ->
  v = 0.
Proof.
  change (F64.of_Z 0) with (S754_zero false).
  destruct d as [s|s| |s m e]; try destruct s; vm_compute;
    intros H; congruence.
Qed.

Lemma overall_risk_score_of_zero_risks (rs : list ComplianceResult) (v : Z) :
  (forall r, In r rs -> res_risk_score r = F64.of_Z 0) ->
  _calculate_overall_risk_score rs = Ok v -> v = 0.
Proof.
  intros Hz. destruct rs as [|r rs]; [intros H; injection H as <-; reflexivity|].
  unfold _calculate_overall_risk_score.
  rewrite sum_of_zeros.
  - destruct (0 <? _).
    + destruct (F64.to_int _) as [t|e] eqn:Ht; [|discriminate].
      cbn [bind]. intros H. injection H as <-.
      rewrite (zero_quotient_truncates_to_0 _ _ Ht). reflexivity.
    + cbn [bind]. intros H. injection H as <-. reflexivity.
  - intros x Hx. apply in_map_iff in Hx. destruct Hx as [r' [<- Hr']].
    apply Hz. exact Hr'.
Qed.

Section Outcome.

Context {E : Re.Engine}.

(** An analysis that lists a missing clause is NON_COMPLIANT, and an
    analysis whose overall status is COMPLIANT has overall risk score 0, no
    recommendations and no missing clauses.  The overall score never exceeds
    100, and the summary counts one verdict per evaluated rule. *)
Theorem compliant_analysis_is_clean (repos : Repos) (now : string)
  (document_id : UUID) (org_id : string) (requested_playbook : option UUID)
  (a : AnalysisResult) :
  analyze_document repos now document_id org_id requested_playbook = Ok a ->
  (missing_clauses a <> [] -> compliance_status a = NON_COMPLIANT) /\
  (compliance_status a = COMPLIANT ->
     overall_risk_score a = 0 /\ an_recommendations a = [] /\
     missing_clauses a = []) /\
  overall_risk_score a <= 100 /\
  summary_overall_risk_score (summary a) = overall_risk_score a /\
  total_rules_evaluated (summary a)
  = Z.of_nat (List.length (compliance_results a)).
Proof.
  intros H. apply analyze_document_inv in H.
  destruct H as [playbook [rules [chunks [_ [_ [_ [Heval [Hov [Hst [Hmiss
                 [Hrec [Hsum _]]]]]]]]]]]].
  apply evaluate_rules_inv in Heval.
  pose proof (AnalysisFacts.status_non_compliant_iff
                (compliance_results a)) as Hnon.
  pose proof (AnalysisFacts.status_compliant_iff
                (compliance_results a)) as Hcomp.
  split; [|split; [|split; [|split]]].
  - intros Hne. rewrite Hst. apply Hnon.
    destruct (filter _ (compliance_results a)) as [|r l] eqn:Hf;
      [rewrite Hmiss in Hne; destruct (Hne eq_refl)|].
    assert (Hin : In r (filter
                          (fun r => (res_missing_clause r
                                     && status_eqb (res_status r)
                                          NON_COMPLIANT)%bool)
                          (compliance_results a)))
      by (rewrite Hf; left; reflexivity).
    apply filter_In in Hin. destruct Hin as [Hin Hb].
    apply andb_true_iff in Hb. destruct Hb as [_ Hb].
    exists r. split; [exact Hin|]. apply AnalysisFacts.status_eqb_eq. exact Hb.
  - intros Hc. rewrite Hst in Hc.
    pose proof (proj1 Hcomp Hc) as Hall.
    assert (Hclean : forall r, In r (compliance_results a) ->
              res_risk_score r = F64.of_Z 0 /\ res_recommendations r = []).
    { intros r Hin.
      destruct (RuleFacts.Forall2_In_r _ _ _ _ Heval Hin) as [rule [_ Hr]].
      apply (RuleFacts.compliant_verdict_is_clean _ _ _ _ Hr).
      apply Hall. exact Hin. }
    split; [|split].
    + apply (overall_risk_score_of_zero_risks (compliance_results a));
        [|exact Hov].
      intros r Hin. apply (Hclean r Hin).
    + rewrite Hrec. apply flat_map_nil_all. intros r Hin. apply (Hclean r Hin).
    + rewrite Hmiss.
      replace (filter _ (compliance_results a)) with (@nil ComplianceResult);
        [reflexivity|].
      symmetry. apply filter_none.
      intros r Hin. rewrite (Hall r Hin). apply andb_false_r.
  - apply (ComplianceFacts.overall_risk_score_at_most_100 _ _ Hov).
  - apply AnalysisFacts.create_analysis_summary_inv in Hsum. apply Hsum.
  - apply AnalysisFacts.create_analysis_summary_inv in Hsum. apply Hsum.
Qed.

End Outcome.

Lemma compliant_analysis_is_clean_witness :
  exists a,
    analyze_document (E := Re.Fragment) Scenarios.supplier_repos
      "2024-05-01T09:30:00" 1%N "org-1" None = Ok a /\
    compliance_status a = COMPLIANT /\
    overall_risk_score a = 0 /\ an_recommendations a = [] /\
    missing_clauses a = [].
Proof.
  pose proof (compliant_analysis_is_clean (E := Re.Fragment)
                Scenarios.supplier_repos "2024-05-01T09:30:00" 1%N "org-1"
                None) as H.
  eexists. split; [vm_compute; reflexivity|].
  split; [reflexivity|].
  apply (H _ ltac:(vm_compute; reflexivity)). reflexivity.
Defined.

End RunFacts.

(** ** Compliance: the playbook schema *)

Module SchemaFacts.

Import Compliance.
Local Open Scope string_scope.
Local Open Scope Z_scope.

Lemma check_field_nil (rule : jdict) (field : string) (ok : json -> bool)
  (msg : string) (v : json) :
  check_field rule field ok msg = [] -> jget field rule = Some v ->
  ok v = true.
Proof.
  unfold check_field. intros H Hv. rewrite Hv in H.
  destruct (ok v); [reflexivity|discriminate].
Qed.

Lemma missing_field_is_reported (rule : jdict) (index : nat)
  (field : string) :
  In field ["id"; "name"; "clause_type"; "required"; "patterns"; "risk_weight"] -> jget field rule = None ->
  _validate_rule_schema rule index <> [].
Proof.
  intros Hin Hnone Hnil. unfold _validate_rule_schema in Hnil.
  apply app_eq_nil in Hnil. destruct Hnil as [Hreq _].
  assert (Hall : forall f, In f ["id"; "name"; "clause_type"; "required"; "patterns"; "risk_weight"] -> jhas f rule = true).
  { intros f Hf.
    destruct (jhas f rule) eqn:Hh; [reflexivity|].
    exfalso.
    assert (Hsome : In (("Rule " ++ Str.of_int (Z.of_nat index))
                        ++ ": Missing required field '" ++ f ++ "'")
                      (@nil string)).
    { rewrite <- Hreq. apply in_flat_map. exists f. split; [exact Hf|].
      rewrite Hh. left. reflexivity. }
    destruct Hsome. }
  specialize (Hall field Hin). unfold jhas in Hall. rewrite Hnone in Hall.
  discriminate.
Qed.

Lemma forallb_is_str_parse (ps : list json) :
  forallb is_str ps = true ->
  forall acc, exists strs,
    foldM (fun acc p =>
             match p with
             | JStr s => Ok (acc ++ [s])%list
             | _ => Raise (TypeError "patterns")
             end) ps acc = Ok (acc ++ strs)%list /\
    map JStr strs = ps.
Proof.
  induction ps as [|p ps IH]; intros H acc.
  - exists []. rewrite app_nil_r. split; reflexivity.
  - cbn [forallb] in H. apply andb_true_iff in H. destruct H as [Hp Hps].
    destruct p; try discriminate.
    destruct (IH Hps (acc ++ [s])%list) as [strs [Hf Hm]].
    exists (s :: strs). cbn [foldM bind]. rewrite Hf, <- app_assoc.
    split; [reflexivity|]. simpl. rewrite Hm. reflexivity.
Qed.

(** A rule entry without schema errors is parsed, and the parsed rule has
    the entry's fields. *)
Lemma valid_rule_parses (rule : jdict) (index : nat) :
  _validate_rule_schema rule index = [] ->
  exists parsed,
    parse_rule rule = Ok parsed /\
    jget "id" rule = Some (JStr (rule_id parsed)) /\
    jget "name" rule = Some (JStr (rule_name parsed)) /\
    jget "clause_type" rule = Some (JStr (rule_clause_type parsed)) /\
    jget "required" rule = Some (JBool (rule_required parsed)) /\
    jget "patterns" rule = Some (JArr (map JStr (rule_patterns parsed))) /\
    F64.leb (F64.of_Z 0) (rule_risk_weight parsed) = true /\
    F64.leb (rule_risk_weight parsed) (F64.of_Z 1) = true.
Proof.
  intros Hnil.
  assert (Hhas : forall f, In f ["id"; "name"; "clause_type"; "required"; "patterns"; "risk_weight"] ->
            exists v, jget f rule = Some v).
  { intros f Hf. destruct (jget f rule) as [v|] eqn:Hv; [exists v; reflexivity|].
    destruct (missing_field_is_reported rule index f Hf Hv Hnil). }
  unfold _validate_rule_schema in Hnil.
  apply app_eq_nil in Hnil. destruct Hnil as [_ Hnil].
  apply app_eq_nil in Hnil. destruct Hnil as [Hid Hnil].
  apply app_eq_nil in Hnil. destruct Hnil as [Hname Hnil].
  apply app_eq_nil in Hnil. destruct Hnil as [Hct Hnil].
  apply app_eq_nil in Hnil. destruct Hnil as [Hreq Hnil].
  apply app_eq_nil in Hnil. destruct Hnil as [Hpat Hnil].
  apply app_eq_nil in Hnil. destruct Hnil as [Hw _].
  destruct (Hhas "id") as [vid Hvid]; [simpl; tauto|].
  destruct (Hhas "name") as [vname Hvname]; [simpl; tauto|].
  destruct (Hhas "clause_type") as [vct Hvct]; [simpl; tauto|].
  destruct (Hhas "required") as [vreq Hvreq]; [simpl; tauto|].
  destruct (Hhas "patterns") as [vpat Hvpat]; [simpl; tauto|].
  destruct (Hhas "risk_weight") as [vw Hvw]; [simpl; tauto|].
  pose proof (check_field_nil _ _ _ _ _ Hid Hvid) as Tid.
  pose proof (check_field_nil _ _ _ _ _ Hname Hvname) as Tname.
  pose proof (check_field_nil _ _ _ _ _ Hct Hvct) as Tct.
  pose proof (check_field_nil _ _ _ _ _ Hreq Hvreq) as Treq.
  destruct vid as [| | | |id| |]; try discriminate Tid.
  destruct vname as [| | | |name| |]; try discriminate Tname.
  destruct vct as [| | | |ct| |]; try discriminate Tct.
  destruct vreq as [|req| | | | |]; try discriminate Treq.
  rewrite Hvpat in Hpat. rewrite Hvw in Hw.
  destruct vpat as [| | | | |ps|]; try discriminate Hpat.
  destruct (forallb is_str ps) eqn:Hps; [|discriminate Hpat].
  destruct (forallb_is_str_parse ps Hps []) as [strs [Hfold Hstrs]].
  destruct (is_number vw) eqn:Hnum; [|discriminate Hw]. cbn [negb] in Hw.
  destruct (F64.leb (F64.of_Z 0) (number_value vw)
            && F64.leb (number_value vw) (F64.of_Z 1))%bool eqn:Hrange;
    [|discriminate Hw].
  apply andb_true_iff in Hrange. destruct Hrange as [Hlo Hhi].
  unfold parse_rule, get_str.
  rewrite Hvid, Hvname, Hvct, Hvreq, Hvpat, Hvw, Hfold, Hnum. cbn [bind app].
  eexists. split; [reflexivity|]. cbn. rewrite Hstrs.
  repeat split; assumption.
Qed.

Lemma valid_rules_parse (rules : list jdict) :
  forall index, validate_rules rules index = [] ->
  exists parsed,
    Forall2 (fun rule p => parse_rule rule = Ok p) rules parsed /\
    Forall (fun p => F64.leb (F64.of_Z 0) (rule_risk_weight p) = true /\
                     F64.leb (rule_risk_weight p) (F64.of_Z 1) = true) parsed.
Proof.
  induction rules as [|rule rules IH]; intros index H.
  - exists []. split; constructor.
  - cbn [validate_rules] in H. apply app_eq_nil in H. destruct H as [H1 H2].
    destruct (IH _ H2) as [parsed [HF HW]].
    destruct (valid_rule_parses rule index H1)
      as [p [Hp [_ [_ [_ [_ [_ [Hlo Hhi]]]]]]]].
    exists (p :: parsed). split; constructor; try assumption.
    split; assumption.
Qed.

Lemma valid_playbook_inv (rules_json : jdict) :
  fst (validate_playbook_schema rules_json) = true ->
  jhas "version" rules_json = true /\ jhas "name" rules_json = true /\
  exists rules, jget "rules" rules_json = Some (JArr rules) /\
                validate_rules (rule_dicts rules) 0 = [].
Proof.
  unfold validate_playbook_schema. cbn [fst].
  destruct (_ ++ _)%list as [|e es] eqn:Herr; [|discriminate].
  intros _. apply app_eq_nil in Herr. destruct Herr as [Htop Hrules].
  cbn [flat_map] in Htop.
  destruct (jhas "version" rules_json); [|discriminate Htop].
  destruct (jhas "name" rules_json); [|discriminate Htop].
  unfold jhas in Htop.
  destruct (jget "rules" rules_json) as [v|]; [|discriminate Htop].
  destruct v; try discriminate Hrules.
  repeat split. exists l. split; [reflexivity|exact Hrules].
Qed.

(** A playbook that passes schema validation is parsed without error: one
    rule per entry of its ["rules"] array, in order, each with a risk
    weight between 0 and 1. *)
Theorem validated_playbook_parses (rules_json : jdict) :
  fst (validate_playbook_schema rules_json) = true ->
  exists entries parsed,
    jget "rules" rules_json = Some (JArr entries) /\
    parse_playbook_rules rules_json = Ok parsed /\
    List.length parsed = List.length entries /\
    Forall2 (fun entry p => parse_rule entry = Ok p)
      (rule_dicts entries) parsed /\
    Forall (fun p => F64.leb (F64.of_Z 0) (rule_risk_weight p) = true /\
                     F64.leb (rule_risk_weight p) (F64.of_Z 1) = true) parsed.
Proof.
  intros H. apply valid_playbook_inv in H.
  destruct H as [_ [_ [entries [Hget Hvalid]]]].
  destruct (valid_rules_parse _ _ Hvalid) as [parsed [HF HW]].
  exists entries, parsed. split; [exact Hget|].
  unfold parse_playbook_rules. rewrite Hget.
  rewrite (foldM_snoc_ok parse_rule _ _ HF []). cbn [app].
  repeat split; try assumption.
  apply Forall2_length in HF. rewrite <- HF. unfold rule_dicts.
  apply length_map.
Qed.


Section Rejection.

Context {E : Re.Engine}.


End Rejection.

Lemma validated_playbook_parses_witness :
  fst (validate_playbook_schema (rules_json Examples.broken_playbook)) = true /\
  exists entries parsed,
    jget "rules" (rules_json Examples.broken_playbook) = Some (JArr entries) /\
    parse_playbook_rules (rules_json Examples.broken_playbook) = Ok parsed /\
    List.length parsed = List.length entries /\
    Forall2 (fun entry p => parse_rule entry = Ok p)
      (rule_dicts entries) parsed /\
    Forall (fun p => F64.leb (F64.of_Z 0) (rule_risk_weight p) = true /\
                     F64.leb (rule_risk_weight p) (F64.of_Z 1) = true) parsed.
Proof.
  split; [vm_compute; reflexivity|].
  apply (validated_playbook_parses (rules_json Examples.broken_playbook)).
  vm_compute. reflexivity.
Defined.


End SchemaFacts.

(** ** RAG: re-ranking *)

Module RerankFacts.

Import Rag.
Local Open Scope Z_scope.

Lemma remove_first_perm (x : nat) (l : list nat) :
  In x l -> Permutation l (x :: remove_first x l).
Proof.
  induction l as [|y l IH]; intros Hin; [destruct Hin|]. simpl.
  destruct (Nat.eqb_spec x y) as [->|Hne]; [reflexivity|].
  destruct Hin as [Heq|Hin]; [congruence|].
  rewrite perm_swap. apply perm_skip. apply IH. exact Hin.
Qed.

Section Loop.

Variable cosine_similarity : list F64.float -> list F64.float -> F64.float.

(** The loop moves one index at a time from the remaining indices to the
    selection, until the selection has [limit] entries or nothing remains. *)
Lemma mmr_loop_selection (lambda_param : F64.float)
  (query_vec : list F64.float) (chunk_vecs : list (list F64.float))
  (limit : Z) (fuel : nat) :
  forall selected remaining,
    (List.length remaining <= fuel)%nat ->
    NoDup (selected ++ remaining) ->
    let out :=
      mmr_loop cosine_similarity fuel lambda_param query_vec chunk_vecs limit
        selected remaining in
    NoDup out /\ incl out (selected ++ remaining) /\
    Z.of_nat (List.length out) =
      (if Z.of_nat (List.length selected) <? limit
       then Z.min limit
              (Z.of_nat (List.length selected + List.length remaining))
       else Z.of_nat (List.length selected)).
Proof.
  induction fuel as [|fuel IH]; intros selected remaining Hfuel Hnd out.
  - destruct remaining; [|simpl in Hfuel; lia].
    subst out. cbn [mmr_loop]. rewrite app_nil_r in *.
    split; [exact Hnd|]. split; [apply incl_refl|].
    destruct (Z.ltb_spec (Z.of_nat (List.length selected)) limit);
      simpl List.length; lia.
  - subst out. cbn [mmr_loop].
    destruct (Z.ltb_spec (Z.of_nat (List.length selected)) limit) as [Hlt|Hge].
    + destruct remaining as [|first others].
      * rewrite app_nil_r in *. split; [exact Hnd|].
        split; [apply incl_refl|]. simpl List.length. lia.
      * match goal with
        | |- context [remove_first ?b (first :: others)] =>
            set (best := b)
        end.
        assert (Hb : In best (first :: others)).
        { subst best.
          match goal with
          | |- In (fst (max_by_score ?b0 ?rest)) _ =>
              pose proof (MmrFacts.max_by_score_member b0 rest) as Hm
          end.
          rewrite map_map in Hm. simpl in Hm. rewrite map_id in Hm. exact Hm. }
        pose proof (remove_first_perm best _ Hb) as Hperm.
        pose proof (MmrFacts.remove_first_length best _ Hb) as Hlen.
        assert (Hperm' : Permutation (selected ++ first :: others)
                           ((selected ++ [best])
                            ++ remove_first best (first :: others))).
        { rewrite <- app_assoc. apply Permutation_app_head. exact Hperm. }
        destruct (IH (selected ++ [best])%list
                    (remove_first best (first :: others)))
          as [Hnd' [Hincl Hcount]].
        -- cbn [List.length] in Hfuel, Hlen. lia.
        -- apply (Permutation_NoDup Hperm'). exact Hnd.
        -- split; [exact Hnd'|]. split.
           ++ intros i Hi. apply (Permutation_in i (Permutation_sym Hperm')).
              apply Hincl. exact Hi.
           ++ rewrite Hcount. rewrite length_app. cbn [List.length] in *.
              destruct (Z.ltb_spec
                          (Z.of_nat (List.length selected + 1)) limit); lia.
    + split; [apply (NoDup_app_remove_r _ _ Hnd)|].
      split; [apply incl_appl, incl_refl|reflexivity].
Qed.

Lemma reranking_selects_by_index
  (chunk_results : list (DocumentChunk * F64.float))
  (query_embedding : list F64.float) (limit : Z) (lambda_param : F64.float) :
  chunk_results <> [] ->
  limit < Z.of_nat (List.length chunk_results) ->
  exists indices reranked,
    _apply_mmr_reranking cosine_similarity chunk_results query_embedding
      limit lambda_param = Ok reranked /\
    NoDup indices /\
    hd_error indices = Some 0%nat /\
    Forall2 (fun i r => nth_error chunk_results i = Some r)
      indices reranked /\
    Z.of_nat (List.length reranked) = Z.max 1 limit.
Proof.
  intros Hne Hpool. unfold _apply_mmr_reranking.
  destruct (Z.leb_spec (Z.of_nat (List.length chunk_results)) limit); [lia|].
  destruct chunk_results as [|head tail]; [contradiction|].
  set (results := head :: tail) in *.
  set (chunk_vecs :=
         map (fun r => embedding_row query_embedding (fst r)) results).
  rewrite length_seq.
  set (n := (List.length results - 1)%nat).
  destruct (mmr_loop_selection lambda_param query_embedding chunk_vecs limit
              n [0%nat] (seq 1 n)) as [Hnd [Hincl Hcount]].
  - rewrite length_seq. lia.
  - change ([0%nat] ++ seq 1 n)%list with (seq 0 (S n)). apply seq_NoDup.
  - destruct (MmrFacts.mmr_loop_extends cosine_similarity n lambda_param
                query_embedding chunk_vecs limit [0%nat] (seq 1 n))
      as [more Hmore].
    set (out := mmr_loop cosine_similarity n lambda_param query_embedding
                  chunk_vecs limit [0%nat] (seq 1 n)) in *.
    exists out, (map (fun i => nth i results head) out).
    split; [reflexivity|]. split; [exact Hnd|].
    split; [rewrite Hmore; reflexivity|]. split.
    + assert (Hrange : forall i, In i out -> (i < List.length results)%nat).
      { intros i Hi. apply Hincl in Hi.
        change ([0%nat] ++ seq 1 n)%list with (seq 0 (S n)) in Hi.
        apply in_seq in Hi. subst n. simpl List.length in *. lia. }
      clear Hmore Hcount Hnd Hincl. induction out as [|i out IH];
        [constructor|].
      cbn [map]. constructor.
      * apply nth_error_nth'. apply Hrange. left. reflexivity.
      * apply IH. intros j Hj. apply Hrange. right. exact Hj.
    + rewrite length_map, Hcount, length_seq. cbn [List.length].
      subst n. simpl List.length in *.
      destruct (Z.ltb_spec (Z.of_nat 1) limit); lia.
Qed.

Lemma reranking_keeps_fitting_pool
  (chunk_results : list (DocumentChunk * F64.float))
  (query_embedding : list F64.float) (limit : Z) (lambda_param : F64.float) :
  Z.of_nat (List.length chunk_results) <= limit ->
  _apply_mmr_reranking cosine_similarity chunk_results query_embedding
    limit lambda_param = Ok chunk_results.
Proof.
  intros Hfit. unfold _apply_mmr_reranking.
  destruct (Z.leb_spec (Z.of_nat (List.length chunk_results)) limit);
    [reflexivity|lia].
Qed.

(** Reranking never invents, repeats or loses track of a candidate.  A pool
    that fits the limit is returned as it is.  From a larger pool it returns
    candidates at pairwise distinct positions of the pool, the first-ranked
    candidate first, and exactly [limit] of them; for a limit below 1 it
    still returns the first-ranked candidate. *)
Theorem reranking_returns_limit_distinct_candidates
  (chunk_results : list (DocumentChunk * F64.float))
  (query_embedding : list F64.float) (limit : Z) (lambda_param : F64.float) :
  (Z.of_nat (List.length chunk_results) <= limit ->
   _apply_mmr_reranking cosine_similarity chunk_results query_embedding
     limit lambda_param = Ok chunk_results) /\
  (chunk_results <> [] ->
   limit < Z.of_nat (List.length chunk_results) ->
   exists indices reranked,
     _apply_mmr_reranking cosine_similarity chunk_results query_embedding
       limit lambda_param = Ok reranked /\
     NoDup indices /\
     hd_error indices = Some 0%nat /\
     Forall2 (fun i r => nth_error chunk_results i = Some r)
       indices reranked /\
     Z.of_nat (List.length reranked) = Z.max 1 limit).
Proof.
  split; [apply reranking_keeps_fitting_pool|apply reranking_selects_by_index].
Qed.

End Loop.

End RerankFacts.

(** ** RAG: search *)

Module SearchFacts.

Import Rag.
Local Open Scope string_scope.
Local Open Scope Z_scope.
Local Open Scope rag_scope.

Lemma mapM_inv {A B : Type} (f : A -> M B) (xs : list A) :
  forall log ys log',
    mapM f xs log = (Ok ys, log') ->
    Forall2 (fun x y => exists l l', f x l = (Ok y, l')) xs ys.
Proof.
  induction xs as [|x xs IH]; intros log ys log' H.
  - cbn in H. injection H as <- _. constructor.
  - cbn [mapM] in H. unfold mbind in H.
    destruct (f x log) as [[y|e] l1] eqn:Hy; [|discriminate].
    destruct (mapM f xs l1) as [[ys'|e] l2] eqn:Hys; [|discriminate].
    cbn in H. injection H as <- _. constructor.
    + exists log, l1. exact Hy.
    + apply (IH _ _ _ Hys).
Qed.

Section Search.

Variable svc : Services.

(** A search returns at most [limit] results (one result if the limit is
    below 1 and candidates were found), and each result is one of the
    candidates of the similarity search, with the score it was found
    with. *)
Theorem search_returns_at_most_limit_candidates
  (query org_id : string) (document_ids : option (list UUID)) (limit : Z)
  (similarity_threshold : F64.float) (include_context : bool)
  (context_size : Z) (log log' : list event)
  (results : list SearchResult) :
  search svc query org_id document_ids limit similarity_threshold
    include_context context_size log = (Ok results, log') ->
  Z.of_nat (List.length results) <= Z.max 1 limit /\
  log' = (log ++ [EmbeddingCall query])%list /\
  exists query_embedding candidates,
    embed_query svc query = Ok query_embedding /\
    chunk_similarity_search svc query_embedding org_id document_ids
      (limit * 2) similarity_threshold = Ok candidates /\
    (candidates = [] -> results = []) /\
    forall r, In r results ->
      In (sr_chunk r, sr_similarity_score r) candidates.
Proof.
  unfold search, generate_query_embedding, mbind, emit, lift.
  destruct (embed_query svc query) as [query_embedding|e] eqn:Hemb;
    [|discriminate].
  destruct (chunk_similarity_search svc query_embedding org_id document_ids
              (limit * 2) similarity_threshold) as [candidates|e] eqn:Hsearch;
    [|discriminate].
  destruct candidates as [|c candidates].
  - unfold ret. cbv beta. intros H. injection H as <- <-.
    split; [simpl; lia|]. split; [reflexivity|].
    exists query_embedding, []. repeat split; try reflexivity;
      try assumption.
    intros r [].
  - set (pool := c :: candidates) in *.
    destruct (_apply_mmr_reranking (cosine svc) pool query_embedding limit
                default_lambda) as [reranked|e] eqn:Hrerank; [|discriminate].
    intros H.
    assert (Hlog : log' = (log ++ [EmbeddingCall query])%list).
    { revert H. generalize (log ++ [EmbeddingCall query])%list.
      generalize results. clear.
      induction reranked as [|[chunk score] reranked IH];
        intros results l H.
      - cbn in H. injection H as _ <-. reflexivity.
      - cbn [mapM] in H. unfold mbind, lift, ret in H.
        destruct (rag_document_get_by_id svc (chunk_document_id chunk) org_id);
          [|discriminate].
        destruct include_context.
        + destruct (chunk_get_nearby_chunks svc (chunk_id chunk) org_id
                      context_size); [|discriminate].
          match type of H with
          | context [mapM ?f reranked l] =>
              destruct (mapM f reranked l) as [[ys|e] l2] eqn:Hys;
                [|discriminate]
          end.
          injection H as _ <-. apply (IH _ _ Hys).
        + match type of H with
          | context [mapM ?f reranked l] =>
              destruct (mapM f reranked l) as [[ys|e] l2] eqn:Hys;
                [|discriminate]
          end.
          injection H as _ <-. apply (IH _ _ Hys). }
    apply mapM_inv in H.
    assert (Hsub : forall r, In r reranked -> In r pool).
    { destruct (Z.leb_spec (Z.of_nat (List.length pool)) limit) as [Hfit|Hbig].
      - rewrite (RerankFacts.reranking_keeps_fitting_pool (cosine svc) pool
                   query_embedding limit default_lambda Hfit) in Hrerank.
        injection Hrerank as <-. trivial.
      - destruct (RerankFacts.reranking_selects_by_index (cosine svc) pool
                    query_embedding limit default_lambda)
          as [indices [reranked' [Hr [_ [_ [Hnth _]]]]]];
          [discriminate|exact Hbig|].
        rewrite Hr in Hrerank. injection Hrerank as <-.
        intros r Hr'.
        destruct (RuleFacts.Forall2_In_r _ _ _ _ Hnth Hr') as [i [_ Hi]].
        apply (nth_error_In _ _ Hi). }
    assert (Hlen : Z.of_nat (List.length reranked) <= Z.max 1 limit).
    { destruct (Z.leb_spec (Z.of_nat (List.length pool)) limit) as [Hfit|Hbig].
      - rewrite (RerankFacts.reranking_keeps_fitting_pool (cosine svc) pool
                   query_embedding limit default_lambda Hfit) in Hrerank.
        injection Hrerank as <-. lia.
      - destruct (RerankFacts.reranking_selects_by_index (cosine svc) pool
                    query_embedding limit default_lambda)
          as [indices [reranked' [Hr [_ [_ [_ Hcount]]]]]];
          [discriminate|exact Hbig|].
        rewrite Hr in Hrerank. injection Hrerank as <-. lia. }
    split; [rewrite <- (Forall2_length H); exact Hlen|].
    split; [exact Hlog|].
    exists query_embedding, pool. repeat split; try reflexivity;
      try assumption.
    + discriminate.
    + intros r Hr.
      destruct (RuleFacts.Forall2_In_r _ _ _ _ H Hr)
        as [[chunk score] [Hin [l [l' Hf]]]].
      unfold mbind, lift, ret in Hf.
      destruct (rag_document_get_by_id svc (chunk_document_id chunk) org_id);
        [|discriminate].
      destruct include_context.
      * destruct (chunk_get_nearby_chunks svc (chunk_id chunk) org_id
                    context_size); [|discriminate].
        injection Hf as <- _. apply Hsub. exact Hin.
      * injection Hf as <- _. apply Hsub. exact Hin.
Qed.

End Search.

Lemma search_returns_at_most_limit_candidates_witness :
  exists results log',
    Rag.search Scenarios.small_index "indemnity" "org-1" None 1
      (F64.dec 7 10) false 2 [] = (Ok results, log') /\
    Z.of_nat (List.length results) <= 1 /\
    log' = [Rag.EmbeddingCall "indemnity"].
Proof.
  pose proof (search_returns_at_most_limit_candidates
                Scenarios.small_index "indemnity" "org-1" None 1
                (F64.dec 7 10) false 2 []) as H.
  eexists. eexists. split; [vm_compute; reflexivity|].
  destruct (H _ _ ltac:(vm_compute; reflexivity)) as [Hlen [Hlog _]].
  split; [exact Hlen|exact Hlog].
Defined.

End SearchFacts.

(** ** RAG: citations *)

Module CitationFacts.

Import Rag RagNotions.
Local Open Scope string_scope.
Local Open Scope Z_scope.

Lemma insert_citation_perm (c : Citation) (l : list Citation) :
  Permutation (c :: l) (insert_citation c l).
Proof.
  induction l as [|d l IH]; simpl; [reflexivity|].
  destruct (F64.ltb (cit_relevance_score d) (cit_relevance_score c));
    [reflexivity|].
  rewrite perm_swap. apply perm_skip. exact IH.
Qed.

Lemma insert_citation_sorted (c : Citation) (l : list Citation) :
  Sorted not_below l -> Sorted not_below (insert_citation c l).
Proof.
  induction l as [|d l IH]; intros Hs; simpl.
  - repeat constructor.
  - destruct (F64.ltb (cit_relevance_score d) (cit_relevance_score c)) eqn:Hlt.
    + constructor; [exact Hs|]. constructor. unfold not_below.
      apply (MmrFacts.gtb_asym (cit_relevance_score c) (cit_relevance_score d)).
      exact Hlt.
    + inversion Hs as [|? ? Hl Hd]; subst. constructor; [apply IH; exact Hl|].
      destruct l as [|d' l]; simpl.
      * constructor. exact Hlt.
      * destruct (F64.ltb (cit_relevance_score d') (cit_relevance_score c)).
        -- constructor. exact Hlt.
        -- inversion Hd; subst. constructor. assumption.
Qed.

Lemma take_length_le (n : nat) (s : string) :
  (String.length (Str.take n s) <= n)%nat.
Proof.
  revert s. induction n as [|n IH]; intros s; [simpl; lia|].
  destruct s as [|c s]; simpl; [lia|]. specialize (IH s). lia.
Qed.

Lemma slice_to_length_le (s : string) (j : Z) :
  0 <= j -> Str.len (Str.slice_to s j) <= j.
Proof.
  intros Hj. unfold Str.slice_to, Str.slice, Str.len.
  pose proof (take_length_le (Str.clip s j - Str.clip s 0)
                (Str.drop (Str.clip s 0) s)) as Hle.
  unfold Str.clip in *. unfold Str.len in *.
  destruct (Z.ltb_spec j 0); [lia|].
  change (0 <? 0) with false in *. cbv iota in *.
  lia.
Qed.

Lemma citation_excerpt_length (result : SearchResult) (d : Document) :
  Str.len (cit_text (citation_of result d)) <= 203.
Proof.
  unfold citation_of. cbn [cit_text].
  destruct (Z.ltb_spec 200 (Str.len (chunk_text (sr_chunk result)))).
  - rewrite ContextFacts.len_append.
    pose proof (slice_to_length_le (chunk_text (sr_chunk result)) 200).
    change (Str.len "...") with 3. lia.
  - lia.
Qed.

Lemma cited_count (search_results : list SearchResult) :
  List.length
    (flat_map (fun result =>
                 match sr_document result with
                 | Some d => [citation_of result d]
                 | None => []
                 end) search_results)
  = List.length (filter (fun result =>
                           match sr_document result with
                           | Some _ => true
                           | None => false
                           end) search_results).
Proof.
  induction search_results as [|r rs IH]; [reflexivity|].
  cbn [flat_map filter]. destruct (sr_document r); simpl; rewrite ?IH;
    reflexivity.
Qed.

(** Citations are produced for the results that have a document, one
    each, and come out ordered by relevance, highest first: no citation is
    below the one that follows it.  A citation's excerpt is never longer
    than 203 characters. *)
Theorem citations_are_ranked_excerpts (search_results : list SearchResult)
  (response_text : string) :
  let cited :=
    flat_map (fun result =>
                match sr_document result with
                | Some d => [citation_of result d]
                | None => []
                end) search_results in
  Sorted not_below (extract_citations search_results response_text) /\
  Permutation cited (extract_citations search_results response_text) /\
  List.length (extract_citations search_results response_text)
  = List.length (filter (fun result =>
                           match sr_document result with
                           | Some _ => true
                           | None => false
                           end) search_results) /\
  forall c, In c (extract_citations search_results response_text) ->
    Str.len (cit_text c) <= 203.
Proof.
  intros cited. unfold extract_citations. fold cited.
  assert (H : forall cs acc,
             Sorted not_below acc ->
             Sorted not_below
               (fold_left (fun acc c => insert_citation c acc) cs acc) /\
             Permutation (cs ++ acc)%list
               (fold_left (fun acc c => insert_citation c acc) cs acc)).
  { induction cs as [|c cs IH]; intros acc Hacc; simpl.
    - split; [exact Hacc|reflexivity].
    - destruct (IH (insert_citation c acc)
                  (insert_citation_sorted c acc Hacc)) as [Hs Hp].
      split; [exact Hs|].
      rewrite <- Hp. rewrite <- insert_citation_perm.
      apply Permutation_middle. }
  destruct (H cited [] (Sorted_nil _)) as [Hs Hp].
  rewrite app_nil_r in Hp.
  split; [exact Hs|]. split; [exact Hp|]. split.
  - rewrite <- (Permutation_length Hp). apply cited_count.
  - intros c Hc. apply (Permutation_in c (Permutation_sym Hp)) in Hc.
    subst cited. apply in_flat_map in Hc. destruct Hc as [r [_ Hc]].
    destruct (sr_document r) as [d|]; [|destruct Hc].
    destruct Hc as [<-|[]]. apply citation_excerpt_length.
Qed.

End CitationFacts.

(** ** RAG: the generated answer *)

Module AnswerFacts.

Import Rag.
Local Open Scope string_scope.
Local Open Scope Z_scope.

Lemma calculate_confidence_range (response context : string) :
  F64.leb (F64.dec 4 10) (_calculate_confidence response context) = true /\
  F64.leb (_calculate_confidence response context) (F64.dec 8 10) = true.
Proof.
  unfold _calculate_confidence.
  destruct (Str.contains "page" (Str.lower response)
            || Str.contains "section" (Str.lower response))%bool;
    destruct (200 <? Str.len response);
    destruct (existsb _ uncertainty_phrases);
    split; vm_compute; reflexivity.
Qed.

(** The confidence heuristic only ever yields a value between 0.4 and 0.8:
    the clamp to [0, 1] is never active, no answer is rated above 0.8, and
    the rating does not depend on the retrieved context. *)
Theorem answer_confidence_is_between_0_4_and_0_8 (response context : string) :
  F64.leb (F64.dec 4 10) (_calculate_confidence response context) = true /\
  F64.leb (_calculate_confidence response context) (F64.dec 8 10) = true /\
  F64.ltb (_calculate_confidence response context) (F64.of_Z 1) = true /\
  _calculate_confidence response context = _calculate_confidence response "".
Proof.
  destruct (calculate_confidence_range response context) as [Hlo Hhi].
  split; [exact Hlo|]. split; [exact Hhi|]. split; [|reflexivity].
  unfold _calculate_confidence.
  destruct (Str.contains "page" (Str.lower response)
            || Str.contains "section" (Str.lower response))%bool;
    destruct (200 <? Str.len response);
    destruct (existsb _ uncertainty_phrases);
    vm_compute; reflexivity.
Qed.

Section Answer.

Variable svc : Services.

Lemma make_api_call_log (model sys usr : string) (log : list event) :
  _make_api_call svc model sys usr log
  = (messages_create svc model sys usr, (log ++ [LLMCall model])%list).
Proof. reflexivity. Qed.

Lemma generate_response_cases (query context plan : string)
  (log : list event) :
  let primary := _get_model_for_plan plan in
  let prompt := user_prompt query context in
  let answer_of model :=
    Compliance.map_result
      (fun response =>
         (response, model, _calculate_confidence response context))
      (messages_create svc model system_prompt prompt) in
  generate_response svc query context plan log =
    match messages_create svc primary system_prompt prompt with
    | Ok _ => (answer_of primary, (log ++ [LLMCall primary])%list)
    | Raise e =>
        if String.eqb primary fallback_model then
          (Raise e, (log ++ [LLMCall primary])%list)
        else
          (answer_of fallback_model,
           (log ++ [LLMCall primary; LLMCall fallback_model])%list)
    end.
Proof.
  intros primary prompt answer_of.
  unfold generate_response, try_except, mbind, ret, raise.
  fold primary. fold prompt. rewrite make_api_call_log.
  subst answer_of. cbv beta.
  destruct (messages_create svc primary system_prompt prompt) as [r|e];
    [reflexivity|].
  destruct (String.eqb primary fallback_model); cbn [negb]; [reflexivity|].
  rewrite make_api_call_log, <- app_assoc.
  destruct (messages_create svc fallback_model system_prompt prompt);
    reflexivity.
Qed.

(** Generating an answer calls the language model once, with the model of
    the plan, and a second time, with the fallback model, only if the first
    call failed and the plan's model is not the fallback model itself.  An
    answer is attributed to the model that was called last and is the
    response of that call, rated by the confidence heuristic. *)
Theorem generate_response_calls_model_at_most_twice
  (query context plan : string) (log : list event) :
  let primary := _get_model_for_plan plan in
  let prompt := user_prompt query context in
  exists calls,
    snd (generate_response svc query context plan log) = (log ++ calls)%list /\
    (calls = [LLMCall primary] \/
     (calls = [LLMCall primary; LLMCall fallback_model] /\
      primary <> fallback_model /\
      exists e, messages_create svc primary system_prompt prompt = Raise e)) /\
    forall response model confidence,
      fst (generate_response svc query context plan log)
      = Ok (response, model, confidence) ->
      last calls (LLMCall primary) = LLMCall model /\
      messages_create svc model system_prompt prompt = Ok response /\
      confidence = _calculate_confidence response context.
Proof.
  intros primary prompt.
  rewrite generate_response_cases. fold primary. fold prompt.
  destruct (messages_create svc primary system_prompt prompt) as [r|e] eqn:Hp.
  - exists [LLMCall primary]. split; [reflexivity|]. split; [left; reflexivity|].
    cbn [fst Compliance.map_result]. intros response model confidence H.
    injection H as <- <- <-. repeat split. exact Hp.
  - destruct (String.eqb primary fallback_model) eqn:Heq.
    + exists [LLMCall primary]. split; [reflexivity|].
      split; [left; reflexivity|]. cbn [fst]. discriminate.
    + exists [LLMCall primary; LLMCall fallback_model].
      split; [reflexivity|]. split.
      * right. split; [reflexivity|]. split.
        -- apply String.eqb_neq. exact Heq.
        -- exists e. reflexivity.
      * cbn [fst]. intros response model confidence H.
        destruct (messages_create svc fallback_model system_prompt prompt)
          as [r|e'] eqn:Hf; [|discriminate].
        cbn [Compliance.map_result] in H. injection H as <- <- <-.
        repeat split. exact Hf.
Qed.

End Answer.

End AnswerFacts.

(** ** RAG: the query as a whole *)

Module QueryFacts.

Import Rag.
Local Open Scope string_scope.
Local Open Scope Z_scope.
Local Open Scope rag_scope.

Lemma mapM_log {A B : Type} (f : A -> M B) (xs : list A) :
  (forall x l, snd (f x l) = l) ->
  forall log, snd (mapM f xs log) = log.
Proof.
  intros Hf. induction xs as [|x xs IH]; intros log; [reflexivity|].
  cbn [mapM]. unfold mbind. specialize (Hf x log).
  destruct (f x log) as [[y|e] l1]; cbn [snd] in Hf; subst l1;
    [|reflexivity].
  specialize (IH log). destruct (mapM f xs log) as [[ys|e] l2];
    cbn [snd] in IH; subst l2; reflexivity.
Qed.

Section Query.

Variable svc : Services.

(** Whatever its outcome, a search makes exactly one embedding call. *)
Lemma search_log (query org_id : string) (document_ids : option (list UUID))
  (limit : Z) (similarity_threshold : F64.float) (include_context : bool)
  (context_size : Z) (log : list event) :
  snd (search svc query org_id document_ids limit similarity_threshold
         include_context context_size log)
  = (log ++ [EmbeddingCall query])%list.
Proof.
  unfold search, generate_query_embedding, mbind, emit, lift.
  destruct (embed_query svc query) as [query_embedding|e]; [|reflexivity].
  destruct (chunk_similarity_search svc query_embedding org_id document_ids
              (limit * 2) similarity_threshold) as [[|c candidates]|e];
    try reflexivity.
  destruct (_apply_mmr_reranking _ _ _ _ _) as [reranked|e]; [|reflexivity].
  apply mapM_log. intros [chunk score] l. unfold mbind, lift, ret.
  destruct (rag_document_get_by_id svc (chunk_document_id chunk) org_id);
    [|reflexivity].
  destruct include_context; [|reflexivity].
  destruct (chunk_get_nearby_chunks svc (chunk_id chunk) org_id context_size);
    reflexivity.
Qed.


(** The outcomes of a query, by the outcome of its search and of the
    generation of the answer. *)
Lemma query_cases (elapsed : F64.float) (q org_id plan : string)
  (document_ids : option (list UUID)) (max_results : Z)
  (similarity_threshold : F64.float) (max_context_length : Z)
  (log : list event) :
  let searched :=
    search svc q org_id document_ids max_results similarity_threshold true 2
      log in
  let failure e :=
    {| answer :=
         "I encountered an error while processing your question: "
         ++ exn_message e
         ++ ". Please try again or contact support if the issue persists.";
       citations := [];
       confidence := F64.of_Z 0;
       model_used := "error";
       processing_time := elapsed;
       context_used := "" |} in
  query svc elapsed q org_id plan document_ids max_results
    similarity_threshold max_context_length log =
  match fst searched with
  | Raise e => (Ok (failure e), snd searched)
  | Ok [] =>
      (Ok {| answer := no_results_answer;
             citations := [];
             confidence := F64.of_Z 0;
             model_used := "none";
             processing_time := elapsed;
             context_used := "" |}, snd searched)
  | Ok (r :: rs) =>
      let context := get_context_window (r :: rs) max_context_length in
      let generated := generate_response svc q context plan (snd searched) in
      match fst generated with
      | Raise e => (Ok (failure e), snd generated)
      | Ok (answer, model_used, confidence) =>
          (Ok {| answer := answer;
                 citations := extract_citations (r :: rs) answer;
                 confidence := confidence;
                 model_used := model_used;
                 processing_time := elapsed;
                 context_used :=
                   if 500 <? Str.len context
                   then Str.slice_to context 500 ++ "..." else context |},
           snd generated)
      end
  end.
Proof.
  intros searched failure. unfold query, try_except, mbind, ret.
  fold searched. destruct searched as [[[|r rs]|e] l1]; cbn [fst snd];
    try reflexivity.
  destruct (generate_response svc q _ plan l1) as [[[[a m] c]|e] l2];
    reflexivity.
Qed.


(** The external calls of a query: exactly one embedding call, for the
    question as asked, followed by at most two calls of the language model;
    none when the search fails or finds nothing. *)
Theorem query_call_budget (elapsed : F64.float) (q org_id plan : string)
  (document_ids : option (list UUID)) (max_results : Z)
  (similarity_threshold : F64.float) (max_context_length : Z)
  (log : list event) :
  exists calls,
    snd (query svc elapsed q org_id plan document_ids max_results
           similarity_threshold max_context_length log)
    = (log ++ EmbeddingCall q :: calls)%list /\
    forallb is_llm_call calls = true /\
    (List.length calls <= 2)%nat /\
    (match fst (search svc q org_id document_ids max_results
                  similarity_threshold true 2 log) with
     | Ok (_ :: _) => False
     | _ => True
     end -> calls = []).
Proof.
  rewrite query_cases.
  pose proof (search_log q org_id document_ids max_results
                similarity_threshold true 2 log) as Hlog.
  destruct (fst (search svc q org_id document_ids max_results
                   similarity_threshold true 2 log)) as [[|r0 rs]|e].
  - exists []. cbn [snd]. rewrite Hlog. repeat split. simpl. lia.
  - cbv zeta.
    set (context := get_context_window (r0 :: rs) max_context_length).
    assert (Hcalls : exists calls,
              snd (generate_response svc q context plan
                     (snd (search svc q org_id document_ids max_results
                             similarity_threshold true 2 log)))
              = ((log ++ [EmbeddingCall q]) ++ calls)%list /\
              forallb is_llm_call calls = true /\
              (List.length calls <= 2)%nat).
    { rewrite AnswerFacts.generate_response_cases, Hlog.
      destruct (messages_create svc (_get_model_for_plan plan) system_prompt
                  (user_prompt q context)).
      - eexists. split; [reflexivity|]. split; [reflexivity|simpl; lia].
      - destruct (String.eqb (_get_model_for_plan plan) fallback_model).
        + eexists. split; [reflexivity|]. split; [reflexivity|simpl; lia].
        + eexists. split; [reflexivity|]. split; [reflexivity|simpl; lia]. }
    destruct Hcalls as [calls [Hsnd [Hall Hlen]]].
    exists calls.
    destruct (fst (generate_response svc q context plan _))
      as [[[a m] c]|e]; cbn [snd]; rewrite Hsnd, <- app_assoc;
      (split; [reflexivity|]); (split; [exact Hall|]);
      (split; [exact Hlen|]); intros [].
  - exists []. cbn [snd]. rewrite Hlog. repeat split. simpl. lia.
Qed.

End Query.

End QueryFacts.

(** ** RAG: length of the context window *)

Module WindowFacts.

Import Rag RagNotions.
Local Open Scope string_scope.
Local Open Scope Z_scope.

Lemma total_length_app (xs ys : list string) :
  total_length (xs ++ ys) = total_length xs + total_length ys.
Proof.
  unfold total_length. induction xs as [|x xs IH]; simpl; [reflexivity|].
  rewrite IH. lia.
Qed.

Lemma join_length (sep : string) (parts : list string) :
  parts <> [] ->
  Str.len (Str.join sep parts)
  = total_length parts + (Z.of_nat (List.length parts) - 1) * Str.len sep.
Proof.
  induction parts as [|p parts IH]; intros Hne; [contradiction|].
  destruct parts as [|q parts].
  - simpl. lia.
  - change (Str.join sep (p :: q :: parts))
      with (p ++ sep ++ Str.join sep (q :: parts)).
    rewrite !ContextFacts.len_append, IH by discriminate.
    cbn [total_length fold_right List.length].
    rewrite !Nat2Z.inj_succ. unfold total_length. lia.
Qed.

(** The loop keeps the total of the section lengths within the limit and
    adds at most one part per result. *)
Lemma context_parts_total (search_results : list SearchResult)
  (max_context_length : Z) :
  100 <= max_context_length ->
  forall parts current,
    current = total_length parts ->
    current <= max_context_length ->
    let out :=
      context_parts search_results max_context_length parts current in
    total_length out <= max_context_length /\
    (List.length out <= List.length parts + List.length search_results)%nat.
Proof.
  intros Hmax.
  induction search_results as [|r rs IH]; intros parts current Hcur Hfit out.
  - subst out. cbn [context_parts]. subst current. simpl. lia.
  - subst out. cbn [context_parts].
    destruct (Z.ltb_spec max_context_length
                (current + Str.len (section_text r))) as [Hover|Hok].
    + destruct (Z.eqb_spec current 0) as [Hzero|Hnz].
      * rewrite total_length_app, length_app. cbn [total_length fold_right].
        rewrite ContextFacts.len_append.
        pose proof (CitationFacts.slice_to_length_le (section_text r)
                      (max_context_length - 100)).
        change (Str.len truncation_notice) with 20.
        cbn [List.length]. fold (total_length parts). lia.
      * cbn [List.length]. lia.
    + destruct (IH (parts ++ [section_text r])%list
                  (current + Str.len (section_text r))) as [Ht Hl].
      * rewrite total_length_app. cbn [total_length fold_right]. lia.
      * exact Hok.
      * split; [exact Ht|]. rewrite length_app in Hl. cbn [List.length] in *.
        lia.
Qed.

Lemma context_window_bound (search_results : list SearchResult)
  (max_context_length : Z) :
  100 <= max_context_length ->
  Str.len (get_context_window search_results max_context_length)
  <= max_context_length
     + Z.max 0 (Z.of_nat (List.length search_results) - 1).
Proof.
  intros Hmax. unfold get_context_window.
  destruct (context_parts_total search_results max_context_length Hmax [] 0
              eq_refl) as [Ht Hl]; [lia|].
  revert Ht Hl.
  destruct (context_parts search_results max_context_length [] 0)
    as [|p parts]; intros Ht Hl.
  - change (Str.len (Str.join nl [])) with 0. lia.
  - rewrite join_length by discriminate. change (Str.len nl) with 1.
    cbn [List.length] in *. lia.
Qed.

Lemma total_length_sections (search_results : list SearchResult) :
  total_length (map section_text search_results)
  = sections_length search_results.
Proof.
  unfold total_length, sections_length.
  induction search_results as [|r rs IH]; simpl; [reflexivity|].
  rewrite IH. reflexivity.
Qed.

Lemma context_window_length_when_fitting (search_results : list SearchResult)
  (max_context_length : Z) :
  search_results <> [] ->
  sections_length search_results <= max_context_length ->
  Str.len (get_context_window search_results max_context_length)
  = sections_length search_results
    + (Z.of_nat (List.length search_results) - 1).
Proof.
  intros Hne Hfit. unfold get_context_window.
  pose proof (ContextFacts.context_parts_fitting search_results []
                max_context_length [] 0) as H.
  rewrite app_nil_r in H. rewrite H by lia. cbn [context_parts app].
  rewrite join_length.
  - rewrite length_map, total_length_sections. change (Str.len nl) with 1.
    lia.
  - destruct search_results; [contradiction|discriminate].
Qed.

Lemma take_length (n : nat) (s : string) :
  String.length (Str.take n s) = Nat.min n (String.length s).
Proof.
  revert s. induction n as [|n IH]; intros s; [reflexivity|].
  destruct s as [|c s]; [reflexivity|]. simpl. rewrite IH. reflexivity.
Qed.

(** [s[:j]] for a negative [j] drops the last [-j] characters. *)
Lemma slice_to_negative_length (s : string) (j : Z) :
  j < 0 -> Str.len (Str.slice_to s j) = Z.max 0 (Str.len s + j).
Proof.
  intros Hj. unfold Str.slice_to, Str.slice.
  assert (H0 : Str.clip s 0 = 0%nat).
  { unfold Str.clip. change (0 <? 0) with false. cbv iota.
    unfold Str.len. lia. }
  rewrite H0, Nat.sub_0_r. cbn [Str.drop].
  unfold Str.len at 1. rewrite take_length.
  unfold Str.clip. destruct (Z.ltb_spec j 0); [|lia].
  unfold Str.len. lia.
Qed.

(** For a limit of at least 100 characters the context holds at most
    [max_context_length] characters of sections; the line breaks that join
    the sections are not counted against the limit, so the context can
    exceed it by one character per result after the first, and does so when
    the sections fill the limit exactly.  For a limit below 100 the
    truncation of an oversized first section cuts 100 minus the limit
    characters off its end, whatever its length, and appends the marker. *)
Theorem context_window_length (search_results : list SearchResult)
  (max_context_length : Z) :
  (100 <= max_context_length ->
   Str.len (get_context_window search_results max_context_length)
   <= max_context_length
      + Z.max 0 (Z.of_nat (List.length search_results) - 1)) /\
  (search_results <> [] ->
   sections_length search_results <= max_context_length ->
   Str.len (get_context_window search_results max_context_length)
   = sections_length search_results
     + (Z.of_nat (List.length search_results) - 1)) /\
  (forall first rest,
     search_results = first :: rest ->
     max_context_length < Str.len (section_text first) ->
     max_context_length < 100 ->
     Str.len (get_context_window search_results max_context_length)
     = Z.max 0 (Str.len (section_text first) - (100 - max_context_length))
       + 20).
Proof.
  split; [apply context_window_bound|].
  split; [apply context_window_length_when_fitting|].
  intros first rest -> Hover Hsmall. unfold get_context_window.
  cbn [context_parts].
  destruct (Z.ltb_spec max_context_length
              (0 + Str.len (section_text first))); [|lia].
  cbn [Z.eqb app Str.join].
  rewrite ContextFacts.len_append, slice_to_negative_length by lia.
  change (Str.len truncation_notice) with 20. lia.
Qed.

End WindowFacts.

(** ** Comparison: text changes *)

Module TextDiffFacts.

Import Comparison ComparisonDetail.
Local Open Scope string_scope.
Local Open Scope Z_scope.

(** What the loop over the diff lines yields, from line count [line_num]
    on. *)
Lemma diff_changes_spec (diff : list string) :
  forall line_num,
    Sorted line_before (diff_changes diff line_num) /\
    (List.length (diff_changes diff line_num) <= List.length diff)%nat /\
    forall c, In c (diff_changes diff line_num) ->
      (exists k, tc_line_number c = Some k /\
                 line_num < k <= line_num + Z.of_nat (List.length diff)) /\
      tc_page_number c = None /\
      tc_confidence c = F64.of_Z 1 /\
      exists line,
        In line diff /\ tc_text c = Str.drop 1 line /\
        ((tc_change_type c = ADDED /\ Str.startswith "+" line = true) \/
         (tc_change_type c = REMOVED /\ Str.startswith "-" line = true)).
Proof.
  induction diff as [|line rest IH]; intros line_num.
  - simpl. split; [constructor|]. split; [lia|]. intros c [].
  - cbn [diff_changes].
    destruct (Str.startswith "+++" line || Str.startswith "---" line
              || Str.startswith "@@" line)%bool.
    + destruct (IH line_num) as [Hs [Hl Hc]].
      split; [exact Hs|]. split; [cbn [List.length]; lia|].
      intros c Hin. destruct (Hc c Hin) as [[k [Hk Hr]] [Hp [Hconf Hline]]].
      split; [exists k; split; [exact Hk|cbn [List.length]; lia]|].
      split; [exact Hp|]. split; [exact Hconf|].
      destruct Hline as [l [Hl1 Hl2]]. exists l. split; [right; exact Hl1|].
      exact Hl2.
    + destruct (IH (line_num + 1)) as [Hs [Hl Hc]].
      assert (Hrest : forall c, In c (diff_changes rest (line_num + 1)) ->
                (exists k, tc_line_number c = Some k /\
                   line_num < k <=
                     line_num + Z.of_nat (List.length (line :: rest))) /\
                tc_page_number c = None /\
                tc_confidence c = F64.of_Z 1 /\
                exists l,
                  In l (line :: rest) /\ tc_text c = Str.drop 1 l /\
                  ((tc_change_type c = ADDED /\ Str.startswith "+" l = true) \/
                   (tc_change_type c = REMOVED /\
                    Str.startswith "-" l = true))).
      { intros c Hin.
        destruct (Hc c Hin) as [[k [Hk Hr]] [Hp [Hconf Hline]]].
        split; [exists k; split; [exact Hk|cbn [List.length]; lia]|].
        split; [exact Hp|]. split; [exact Hconf|].
        destruct Hline as [l [Hl1 Hl2]]. exists l.
        split; [right; exact Hl1|exact Hl2]. }
      assert (Hhd : forall c0,
                tc_line_number c0 = Some (line_num + 1) ->
                HdRel line_before c0 (diff_changes rest (line_num + 1))).
      { intros c0 Hc0.
        destruct (diff_changes rest (line_num + 1)) as [|d ds] eqn:Hd;
          constructor.
        destruct (Hc d (or_introl eq_refl)) as [[k [Hk Hr]] _].
        unfold line_before. rewrite Hc0, Hk. lia. }
      destruct (Str.startswith "+" line) eqn:Hplus;
        [|destruct (Str.startswith "-" line) eqn:Hminus].
      * split; [constructor; [exact Hs|apply Hhd; reflexivity]|].
        split; [cbn [List.length]; lia|].
        intros c [<-|Hin]; [|apply Hrest; exact Hin].
        cbn. split; [exists (line_num + 1); split; [reflexivity|lia]|].
        repeat split. exists line. split; [left; reflexivity|].
        split; [reflexivity|]. left. split; [reflexivity|exact Hplus].
      * split; [constructor; [exact Hs|apply Hhd; reflexivity]|].
        split; [cbn [List.length]; lia|].
        intros c [<-|Hin]; [|apply Hrest; exact Hin].
        cbn. split; [exists (line_num + 1); split; [reflexivity|lia]|].
        repeat split. exists line. split; [left; reflexivity|].
        split; [reflexivity|]. right. split; [reflexivity|exact Hminus].
      * split; [exact Hs|]. split; [cbn [List.length]; lia|]. exact Hrest.
Qed.

Section Service.

Variable env : Env.

(** The text changes of a comparison are additions and removals only, each
    taken from a line of the unified diff without its first character, with
    confidence 1.0 and no page number; their line numbers count the diff
    lines (headers excluded) from 1 and strictly increase. *)
Theorem text_changes_are_numbered_additions_and_removals
  (chunks_a chunks_b : list DocumentChunk) :
  let diff :=
    unified_diff env
      (split_on Re.newline (_combine_chunks_to_text chunks_a))
      (split_on Re.newline (_combine_chunks_to_text chunks_b)) in
  let changes := _compare_text_content env chunks_a chunks_b in
  Sorted line_before changes /\
  (List.length changes <= List.length diff)%nat /\
  forall c, In c changes ->
    (exists k, tc_line_number c = Some k /\
               1 <= k <= Z.of_nat (List.length diff)) /\
    tc_page_number c = None /\
    tc_confidence c = F64.of_Z 1 /\
    exists line,
      In line diff /\ tc_text c = Str.drop 1 line /\
      ((tc_change_type c = ADDED /\ Str.startswith "+" line = true) \/
       (tc_change_type c = REMOVED /\ Str.startswith "-" line = true)).
Proof.
  intros diff changes. subst changes. unfold _compare_text_content.
  fold diff. destruct (diff_changes_spec diff 0) as [Hs [Hl Hc]].
  split; [exact Hs|]. split; [exact Hl|].
  intros c Hin. destruct (Hc c Hin) as [[k [Hk Hr]] Hrest].
  split; [exists k; split; [exact Hk|lia]|exact Hrest].
Qed.

End Service.

Lemma startswith_append (p s t : string) :
  Str.startswith p s = true -> Str.startswith p (s ++ t) = true.
Proof.
  revert s. induction p as [|a p IH]; intros s H; [reflexivity|].
  destruct s as [|b s]; [discriminate|]. simpl in *.
  apply andb_true_iff in H. destruct H as [Hab Hps].
  rewrite Hab, (IH s Hps). reflexivity.
Qed.

(** A removed line whose own text begins with two dashes, and an added line
    whose own text begins with two plus signs, look like the file headers
    of the diff: they are skipped, are not reported as changes and do not
    advance the line count. *)
Theorem change_that_looks_like_a_header_is_dropped (text : string)
  (rest : list string) (line_num : Z) :
  (Str.startswith "--" text = true ->
   diff_changes (("-" ++ text) :: rest) line_num
   = diff_changes rest line_num) /\
  (Str.startswith "++" text = true ->
   diff_changes (("+" ++ text) :: rest) line_num
   = diff_changes rest line_num).
Proof.
  split; intros H; cbn [diff_changes];
    destruct text as [|a [|b text]]; cbn [Str.startswith] in H;
    try discriminate H;
    try (rewrite andb_false_r in H; discriminate H);
    apply andb_true_iff in H; destruct H as [Ha H];
    apply andb_true_iff in H; destruct H as [Hb _];
    apply Ascii.eqb_eq in Ha; apply Ascii.eqb_eq in Hb; subst a b;
    reflexivity.
Qed.

End TextDiffFacts.

(** ** Comparison: the summary *)

Module SummaryFacts.

Import Comparison ComparisonDetail.
Local Open Scope string_scope.
Local Open Scope Z_scope.

Lemma startswith_refl (p : string) : Str.startswith p p = true.
Proof.
  induction p as [|a p IH]; [reflexivity|]. simpl.
  rewrite Ascii.eqb_refl. exact IH.
Qed.

Lemma startswith_join_head (sep p : string) (rest : list string) :
  Str.startswith p (Str.join sep (p :: rest)) = true.
Proof.
  destruct rest as [|q rest].
  - simpl. apply startswith_refl.
  - change (Str.join sep (p :: q :: rest))
      with (p ++ sep ++ Str.join sep (q :: rest)).
    apply TextDiffFacts.startswith_append. apply startswith_refl.
Qed.

(** The opening sentence of the summary, by the similarity score. *)
Lemma summary_opening (text_changes : list TextChange)
  (clause_changes : list ClauseChange) (similarity_score : F64.float) :
  Str.startswith
    (if F64.gtb similarity_score (F64.dec 9 10) then
       "The documents are very similar with minimal changes."
     else if F64.gtb similarity_score (F64.dec 7 10) then
       "The documents have moderate differences."
     else "The documents have significant differences.")
    (_generate_comparison_summary text_changes clause_changes
       similarity_score) = true.
Proof.
  unfold _generate_comparison_summary. cbv zeta. cbn [app].
  apply startswith_join_head.
Qed.

(** The summary of a fresh comparison opens by the number of text changes:
    "very similar" only when there is none, "moderate differences" for one
    to nine, and "significant differences" from ten on (the scores 0.9 and
    0.7 of the similarity buckets do not exceed the thresholds 0.9 and 0.7
    of the summary). *)
Theorem summary_opening_follows_change_count (text_changes : list TextChange)
  (clause_changes : list ClauseChange) :
  let summary :=
    _generate_comparison_summary text_changes clause_changes
      (_calculate_similarity_score text_changes) in
  let n := Z.of_nat (List.length text_changes) in
  (n = 0 ->
   Str.startswith "The documents are very similar with minimal changes."
     summary = true) /\
  (1 <= n < 10 ->
   Str.startswith "The documents have moderate differences." summary = true) /\
  (10 <= n ->
   Str.startswith "The documents have significant differences." summary
   = true).
Proof.
  intros summary n.
  pose proof (summary_opening text_changes clause_changes
                (_calculate_similarity_score text_changes)) as H.
  fold summary in H.
  rewrite ComparisonFacts.similarity_score_by_count in H. fold n in H.
  unfold score_of_count in H.
  split; [|split]; intros Hn.
  - destruct (Z.eqb_spec n 0); [|lia]. exact H.
  - destruct (Z.eqb_spec n 0); [lia|].
    destruct (Z.ltb_spec n 10); [|lia]. exact H.
  - destruct (Z.eqb_spec n 0); [lia|].
    destruct (Z.ltb_spec n 10); [lia|].
    destruct (Z.ltb_spec n 50); [exact H|].
    destruct (Z.ltb_spec n 100); exact H.
Qed.

End SummaryFacts.

(** ** Comparison: clause changes *)

Module ClauseDiffFacts.

Import Comparison ComparisonDetail.
Local Open Scope string_scope.
Local Open Scope Z_scope.

Lemma group_get_append (key k : string) (clause : Clause) (grouped : groups) :
  group_get key (group_append k clause grouped) =
    if String.eqb k key then (group_get key grouped ++ [clause])%list
    else group_get key grouped.
Proof.
  induction grouped as [|[k' cs] rest IH]; cbn [group_append group_get].
  - destruct (String.eqb k key); reflexivity.
  - destruct (String.eqb_spec k' k) as [->|Hne]; cbn [group_get].
    + destruct (String.eqb k key); reflexivity.
    + destruct (String.eqb_spec k' key) as [->|Hne'].
      * destruct (String.eqb_spec k key) as [->|_]; [congruence|reflexivity].
      * exact IH.
Qed.

Lemma group_get_fold (key : string) (clauses : list Clause) :
  forall grouped,
    group_get key
      (fold_left
         (fun grouped clause =>
            group_append (type_or_unknown clause) clause grouped)
         clauses grouped)
    = (group_get key grouped ++ of_type key clauses)%list.
Proof.
  induction clauses as [|c cs IH]; intros grouped; cbn [fold_left].
  - unfold of_type. simpl. rewrite app_nil_r. reflexivity.
  - rewrite IH, group_get_append. unfold of_type. cbn [filter].
    destruct (String.eqb (type_or_unknown c) key);
      [rewrite <- app_assoc|]; reflexivity.
Qed.

(** Grouping keeps, for every type, the clauses of that type in document
    order. *)
Lemma group_get_grouped (key : string) (clauses : list Clause) :
  group_get key (_group_clauses_by_type clauses) = of_type key clauses.
Proof. unfold _group_clauses_by_type. rewrite group_get_fold. reflexivity. Qed.

Lemma group_keys_append (k : string) (clause : Clause) (grouped : groups)
  (key : string) :
  In key (map fst (group_append k clause grouped)) <->
  key = k \/ In key (map fst grouped).
Proof.
  induction grouped as [|[k' cs] rest IH]; cbn [group_append map fst In].
  - split; [intros [H|[]]; left; congruence|intros [H|[]]; left; congruence].
  - destruct (String.eqb_spec k' k) as [->|Hne]; cbn [map fst In].
    + split; [tauto|]. intros [->|H]; [left; reflexivity|exact H].
    + rewrite IH. split; intros H; tauto.
Qed.

Lemma group_keys (clauses : list Clause) (key : string) :
  In key (map fst (_group_clauses_by_type clauses)) <->
  exists clause, In clause clauses /\ type_or_unknown clause = key.
Proof.
  unfold _group_clauses_by_type.
  assert (H : forall grouped,
             In key (map fst
                       (fold_left
                          (fun grouped clause =>
                             group_append (type_or_unknown clause) clause
                               grouped) clauses grouped)) <->
             In key (map fst grouped) \/
             exists clause, In clause clauses /\ type_or_unknown clause = key).
  { induction clauses as [|c cs IH]; intros grouped; cbn [fold_left].
    - split; [tauto|]. intros [H|[c [[] _]]]. exact H.
    - rewrite IH, group_keys_append. split.
      + intros [[->|H]|[c' [Hin Hk]]].
        * right. exists c. split; [left|]; reflexivity.
        * left. exact H.
        * right. exists c'. split; [right|]; assumption.
      + intros [H|[c' [[<-|Hin] Hk]]].
        * left. right. exact H.
        * left. left. symmetry. exact Hk.
        * right. exists c'. split; assumption. }
  rewrite H. split; [intros [[]|H']; exact H'|intros H'; right; exact H'].
Qed.

Lemma of_type_In (key : string) (clauses : list Clause) (clause : Clause) :
  In clause (of_type key clauses) <->
  In clause clauses /\ type_or_unknown clause = key.
Proof.
  unfold of_type. rewrite filter_In.
  split; intros [H1 H2]; (split; [exact H1|]); apply String.eqb_eq; exact H2.
Qed.

Section Clauses.

Variable ratio : string -> string -> F64.float.
Variable iteration_order : list string -> list string.

(** The changes reported for one clause type. *)
Lemma changes_for_type_cases (clauses_a clauses_b : list Clause)
  (clause_type : string) (change : ClauseChange) :
  In change
    (changes_for_type ratio (_group_clauses_by_type clauses_a)
       (_group_clauses_by_type clauses_b) clause_type) ->
  cc_clause_type change = clause_type /\
  cc_risk_impact change
  = _assess_clause_risk_impact clause_type (cc_change_type change) /\
  match cc_change_type change with
  | ADDED =>
      of_type clause_type clauses_a = [] /\
      cc_old_text change = None /\
      exists clause,
        In clause (of_type clause_type clauses_b) /\
        cc_new_text change = Some (clause_text clause) /\
        cc_page_number change = clause_page clause
  | REMOVED =>
      of_type clause_type clauses_b = [] /\
      cc_new_text change = None /\
      exists clause,
        In clause (of_type clause_type clauses_a) /\
        cc_old_text change = Some (clause_text clause) /\
        cc_page_number change = clause_page clause
  | MODIFIED =>
      exists first_a first_b,
        hd_error (of_type clause_type clauses_a) = Some first_a /\
        hd_error (of_type clause_type clauses_b) = Some first_b /\
        cc_old_text change = Some (clause_text first_a) /\
        cc_new_text change = Some (clause_text first_b) /\
        cc_page_number change = clause_page first_b /\
        F64.ltb (ratio (clause_text first_a) (clause_text first_b))
          (F64.dec 8 10) = true
  | UNCHANGED => False
  end.
Proof.
  unfold changes_for_type. rewrite !group_get_grouped.
  destruct (of_type clause_type clauses_a) as [|a0 as_] eqn:Ha;
    destruct (of_type clause_type clauses_b) as [|b0 bs] eqn:Hb.
  - intros [].
  - intros Hin. apply in_map_iff in Hin. destruct Hin as [c [<- Hc]].
    cbn. repeat split. exists c. repeat split. exact Hc.
  - intros Hin. apply in_map_iff in Hin. destruct Hin as [c [<- Hc]].
    cbn. repeat split. exists c. repeat split. exact Hc.
  - unfold _compare_clause_texts.
    destruct (F64.ltb (ratio (clause_text a0) (clause_text b0))
                (F64.dec 8 10)) eqn:Hr; [|intros []].
    intros [<-|[]]. cbn. repeat split. exists a0, b0. repeat split.
    exact Hr.
Qed.

(** Every clause change is justified by the clauses of its type: an
    addition by a clause of the second document whose type the first
    document lacks, a removal by a clause of the first document whose type
    the second lacks, a modification by the first clauses of a type that
    both documents have and whose texts are less than 0.8 similar.  Its
    risk impact is the one assessed for its type and kind of change, and no
    change is UNCHANGED. *)
Theorem clause_change_is_justified (clauses_a clauses_b : list Clause)
  (change : ClauseChange) :
  In change (_compare_clauses ratio iteration_order clauses_a clauses_b) ->
  cc_risk_impact change
  = _assess_clause_risk_impact (cc_clause_type change)
      (cc_change_type change) /\
  match cc_change_type change with
  | ADDED =>
      of_type (cc_clause_type change) clauses_a = [] /\
      cc_old_text change = None /\
      exists clause,
        In clause clauses_b /\
        type_or_unknown clause = cc_clause_type change /\
        cc_new_text change = Some (clause_text clause) /\
        cc_page_number change = clause_page clause
  | REMOVED =>
      of_type (cc_clause_type change) clauses_b = [] /\
      cc_new_text change = None /\
      exists clause,
        In clause clauses_a /\
        type_or_unknown clause = cc_clause_type change /\
        cc_old_text change = Some (clause_text clause) /\
        cc_page_number change = clause_page clause
  | MODIFIED =>
      exists first_a first_b,
        hd_error (of_type (cc_clause_type change) clauses_a) = Some first_a /\
        hd_error (of_type (cc_clause_type change) clauses_b) = Some first_b /\
        cc_old_text change = Some (clause_text first_a) /\
        cc_new_text change = Some (clause_text first_b) /\
        cc_page_number change = clause_page first_b /\
        F64.ltb (ratio (clause_text first_a) (clause_text first_b))
          (F64.dec 8 10) = true
  | UNCHANGED => False
  end.
Proof.
  unfold _compare_clauses. intros Hin. apply in_flat_map in Hin.
  destruct Hin as [clause_type [_ Hin]].
  apply changes_for_type_cases in Hin.
  destruct Hin as [Htype [Hrisk Hkind]]. rewrite Htype.
  split; [exact Hrisk|].
  destruct (cc_change_type change).
  - destruct Hkind as [Ha [Hold [c [Hc [Hnew Hpage]]]]].
    apply of_type_In in Hc. destruct Hc as [Hc Ht].
    repeat split; try assumption. exists c. repeat split; assumption.
  - destruct Hkind as [Hb [Hnew [c [Hc [Hold Hpage]]]]].
    apply of_type_In in Hc. destruct Hc as [Hc Ht].
    repeat split; try assumption. exists c. repeat split; assumption.
  - exact Hkind.
  - exact Hkind.
Qed.

Lemma changes_for_type_typed (a b : groups) (clause_type : string)
  (change : ClauseChange) :
  In change (changes_for_type ratio a b clause_type) ->
  cc_clause_type change = clause_type.
Proof.
  unfold changes_for_type, _compare_clause_texts.
  destruct (group_get clause_type a) as [|a0 as_];
    destruct (group_get clause_type b) as [|b0 bs].
  - intros [].
  - intros Hin. apply in_map_iff in Hin. destruct Hin as [c [<- _]].
    reflexivity.
  - intros Hin. apply in_map_iff in Hin. destruct Hin as [c [<- _]].
    reflexivity.
  - destruct (F64.ltb _ _); [|intros []]. intros [<-|[]]. reflexivity.
Qed.

Lemma changes_of_type_count (a b : groups) (key : string)
  (types : list string) :
  NoDup types ->
  (List.length
     (filter (fun change => String.eqb (cc_clause_type change) key)
        (flat_map (changes_for_type ratio a b) types))
   <= List.length (changes_for_type ratio a b key))%nat.
Proof.
  induction 1 as [|t types Hnotin Hnd IH]; cbn [flat_map]; [simpl; lia|].
  rewrite filter_app, length_app.
  destruct (String.eqb_spec t key) as [->|Hne].
  - assert (Hrest : filter
                      (fun change => String.eqb (cc_clause_type change) key)
                      (flat_map (changes_for_type ratio a b) types) = []).
    { clear IH Hnd. induction types as [|u types IHt]; [reflexivity|].
      cbn [flat_map]. rewrite filter_app, IHt;
        [|intros Hin; apply Hnotin; right; exact Hin].
      rewrite app_nil_r.
      assert (Hu : u <> key)
        by (intros ->; apply Hnotin; left; reflexivity).
      generalize (changes_for_type_typed a b u).
      induction (changes_for_type ratio a b u) as [|c cs IHc]; intros Hty;
        [reflexivity|].
      cbn [filter]. rewrite (Hty c (or_introl eq_refl)).
      destruct (String.eqb_spec u key); [contradiction|].
      apply IHc. intros c' Hc'. apply Hty. right. exact Hc'. }
    rewrite Hrest. cbn [List.length].
    pose proof (filter_length_le
                  (fun change => String.eqb (cc_clause_type change) key)
                  (changes_for_type ratio a b key)). lia.
  - assert (Hhere : filter
                      (fun change => String.eqb (cc_clause_type change) key)
                      (changes_for_type ratio a b t) = []).
    { generalize (changes_for_type_typed a b t).
      induction (changes_for_type ratio a b t) as [|c cs IHc]; intros Hty;
        [reflexivity|].
      cbn [filter]. rewrite (Hty c (or_introl eq_refl)).
      destruct (String.eqb_spec t key); [contradiction|].
      apply IHc. intros c' Hc'. apply Hty. right. exact Hc'. }
    rewrite Hhere. cbn [List.length]. exact IH.
Qed.

(** When every clause type is visited (in whatever order), each clause of
    a type that only one of the documents has is reported, as ADDED or as
    REMOVED; for a type that both documents have, at most one change is
    reported, however many clauses of that type there are. *)
Theorem clause_changes_cover_types_not_clauses
  (clauses_a clauses_b : list Clause) :
  (forall types, Permutation types (iteration_order types)) ->
  let changes := _compare_clauses ratio iteration_order clauses_a clauses_b in
  (forall clause,
     In clause clauses_b ->
     of_type (type_or_unknown clause) clauses_a = [] ->
     In {| cc_change_type := ADDED;
           cc_clause_type := type_or_unknown clause;
           cc_old_text := None;
           cc_new_text := Some (clause_text clause);
           cc_risk_impact :=
             _assess_clause_risk_impact (type_or_unknown clause) ADDED;
           cc_page_number := clause_page clause |} changes) /\
  (forall clause,
     In clause clauses_a ->
     of_type (type_or_unknown clause) clauses_b = [] ->
     In {| cc_change_type := REMOVED;
           cc_clause_type := type_or_unknown clause;
           cc_old_text := Some (clause_text clause);
           cc_new_text := None;
           cc_risk_impact :=
             _assess_clause_risk_impact (type_or_unknown clause) REMOVED;
           cc_page_number := clause_page clause |} changes) /\
  (forall clause_type,
     of_type clause_type clauses_a <> [] ->
     of_type clause_type clauses_b <> [] ->
     (List.length
        (filter (fun change => String.eqb (cc_clause_type change) clause_type)
           changes) <= 1)%nat).
Proof.
  intros Horder changes. subst changes. unfold _compare_clauses.
  set (a := _group_clauses_by_type clauses_a).
  set (b := _group_clauses_by_type clauses_b).
  assert (Hvisit : forall key,
            In key (map fst a) \/ In key (map fst b) ->
            In key (iteration_order (all_clause_types a b))).
  { intros key Hkey. apply (Permutation_in key (Horder _)).
    unfold all_clause_types. apply nodup_In. apply in_or_app. exact Hkey. }
  split; [|split].
  - intros clause Hin Hnone. apply in_flat_map.
    exists (type_or_unknown clause). split.
    + apply Hvisit. right. apply group_keys. exists clause.
      split; [exact Hin|reflexivity].
    + unfold changes_for_type. subst a b. rewrite !group_get_grouped, Hnone.
      assert (Hc : In clause (of_type (type_or_unknown clause) clauses_b))
        by (apply of_type_In; split; [exact Hin|reflexivity]).
      destruct (of_type (type_or_unknown clause) clauses_b) as [|b0 bs];
        [destruct Hc|].
      apply in_map_iff. exists clause. split; [reflexivity|exact Hc].
  - intros clause Hin Hnone. apply in_flat_map.
    exists (type_or_unknown clause). split.
    + apply Hvisit. left. apply group_keys. exists clause.
      split; [exact Hin|reflexivity].
    + unfold changes_for_type. subst a b. rewrite !group_get_grouped, Hnone.
      assert (Hc : In clause (of_type (type_or_unknown clause) clauses_a))
        by (apply of_type_In; split; [exact Hin|reflexivity]).
      destruct (of_type (type_or_unknown clause) clauses_a) as [|a0 as_];
        [destruct Hc|].
      apply in_map_iff. exists clause. split; [reflexivity|exact Hc].
  - intros clause_type Ha Hb.
    eapply Nat.le_trans.
    + apply changes_of_type_count.
      apply (Permutation_NoDup (Horder _)). unfold all_clause_types.
      apply NoDup_nodup.
    + unfold changes_for_type, _compare_clause_texts. subst a b.
      rewrite !group_get_grouped.
      destruct (of_type clause_type clauses_a) as [|a0 as_]; [contradiction|].
      destruct (of_type clause_type clauses_b) as [|b0 bs]; [contradiction|].
      destruct (F64.ltb _ _); simpl; lia.
Qed.

End Clauses.

Lemma clause_change_is_justified_witness :
  In Scenarios.removed_liability
    (ComparisonDetail._compare_clauses Scenarios.all_or_nothing
       Scenarios.in_order Scenarios.clauses_v1 Scenarios.clauses_v2) /\
  ComparisonDetail.of_type "liability" Scenarios.clauses_v2 = [].
Proof.
  assert (H : In Scenarios.removed_liability
                (ComparisonDetail._compare_clauses Scenarios.all_or_nothing
                   Scenarios.in_order Scenarios.clauses_v1
                   Scenarios.clauses_v2)).
  { vm_compute. auto. }
  split; [exact H|].
  apply (clause_change_is_justified Scenarios.all_or_nothing
           Scenarios.in_order Scenarios.clauses_v1 Scenarios.clauses_v2
           Scenarios.removed_liability H).
Defined.

Lemma clause_changes_cover_types_not_clauses_witness :
  (forall types, Permutation types (Scenarios.in_order types)) /\
  In Scenarios.added_warranty
    (ComparisonDetail._compare_clauses Scenarios.all_or_nothing
       Scenarios.in_order Scenarios.clauses_v1 Scenarios.clauses_v2).
Proof.
  assert (H : forall types, Permutation types (Scenarios.in_order types)).
  { intros types. reflexivity. }
  split; [exact H|].
  apply (proj1 (clause_changes_cover_types_not_clauses
                  Scenarios.all_or_nothing Scenarios.in_order
                  Scenarios.clauses_v1 Scenarios.clauses_v2 H)
           (Scenarios.clause_of "warranty"
              "The Supplier warrants the goods for one year.")).
  - simpl. auto.
  - reflexivity.
Defined.

End ClauseDiffFacts.

(** ** Comparison: risk of the changes *)

Module ChangeRiskFacts.

Import Comparison ComparisonDetail.
Local Open Scope string_scope.
Local Open Scope Z_scope.

Lemma tally_fold (changes : list ClauseChange) :
  forall tally,
    let final := fold_left tally_change changes tally in
    clauses_added final = clauses_added tally + count_kind ADDED changes /\
    clauses_removed final
    = clauses_removed tally + count_kind REMOVED changes /\
    clauses_modified final
    = clauses_modified tally + count_kind MODIFIED changes /\
    List.length (high_risk_changes final)
    = (List.length (high_risk_changes tally)
       + List.length (filter is_high_risk_change changes))%nat.
Proof.
  unfold count_kind.
  induction changes as [|c cs IH]; intros tally; cbv zeta.
  - simpl. repeat split; lia.
  - cbn [fold_left].
    destruct (IH (tally_change tally c)) as [Ha [Hr [Hm Hh]]].
    cbv zeta in Ha, Hr, Hm, Hh.
    rewrite Ha, Hr, Hm, Hh. clear IH Ha Hr Hm Hh.
    unfold tally_change, is_high_risk_change. cbn [filter].
    destruct (cc_change_type c); cbn [change_type_eqb orb andb];
      try destruct (str_in (Str.lower (cc_clause_type c))
                      high_risk_clause_types);
      cbn [clauses_added clauses_removed clauses_modified high_risk_changes
           List.length];
      rewrite ?length_app; cbn [List.length];
      rewrite ?Nat2Z.inj_succ; repeat split; lia.
Qed.

(** The risk assessment of a comparison counts the clause changes by kind
    and rates the comparison by its removals and modifications of
    high-risk clause types: "high" for more than three of them, "medium"
    for one to three, "low" for none.  Added clauses never raise the risk,
    and without removed, modified or high-risk changes there is no
    recommendation. *)
Theorem change_risk_follows_high_risk_changes
  (clause_changes : list ClauseChange) (text_changes : list TextChange) :
  let assessment := _assess_change_risks clause_changes text_changes in
  let high := Z.of_nat (List.length
                          (filter is_high_risk_change clause_changes)) in
  jget "overall_risk" assessment
  = Some (JStr (if 3 <? high then "high"
                else if 0 <? high then "medium" else "low")) /\
  jget "change_summary" assessment
  = Some (JDict
            [("clauses_added", JInt (count_kind ADDED clause_changes));
             ("clauses_removed", JInt (count_kind REMOVED clause_changes));
             ("clauses_modified", JInt (count_kind MODIFIED clause_changes));
             ("text_changes", JInt (Z.of_nat (List.length text_changes)))]) /\
  (exists entries,
     jget "high_risk_changes" assessment = Some (JArr entries) /\
     Z.of_nat (List.length entries) = high) /\
  (count_kind REMOVED clause_changes = 0 ->
   count_kind MODIFIED clause_changes = 0 ->
   jget "overall_risk" assessment = Some (JStr "low") /\
   jget "recommendations" assessment = Some (JArr [])).
Proof.
  intros assessment high. subst assessment. unfold _assess_change_risks.
  destruct (tally_fold clause_changes
              {| clauses_added := 0; clauses_removed := 0;
                 clauses_modified := 0; high_risk_changes := [] |})
    as [Ha [Hr [Hm Hh]]].
  cbv zeta in Ha, Hr, Hm, Hh.
  cbn [clauses_added clauses_removed clauses_modified high_risk_changes
       List.length] in Ha, Hr, Hm, Hh.
  set (final := fold_left tally_change clause_changes _) in *.
  cbv zeta. cbn [jget String.eqb Ascii.eqb Bool.eqb].
  rewrite Ha, Hr, Hm, Hh. rewrite !Z.add_0_l, Nat.add_0_l. fold high.
  split; [reflexivity|]. split; [reflexivity|].
  split; [exists (high_risk_changes final); split; [reflexivity|]|].
  - subst high. rewrite Hh. reflexivity.
  - intros Hrem Hmod. rewrite Hrem, Hmod.
    assert (Hhigh : high = 0).
    { subst high. unfold count_kind in Hrem, Hmod.
      assert (Hnil : filter is_high_risk_change clause_changes = []).
      { clear - Hrem Hmod.
        induction clause_changes as [|c cs IH]; [reflexivity|].
        cbn [filter] in *. unfold is_high_risk_change at 1.
        destruct (cc_change_type c); cbn [change_type_eqb orb andb] in *;
          cbn [List.length] in *; try lia; apply IH; assumption. }
      rewrite Hnil. reflexivity. }
    rewrite Hhigh. split; reflexivity.
Qed.

End ChangeRiskFacts.

(** ** Comparison: storing a result *)

Module StoreFacts.

Import Comparison ComparisonDetail ComparisonStore.
Local Open Scope string_scope.
Local Open Scope Z_scope.

Section Store.

Variable uuid_of_string : string -> result UUID.
Variable insert_row : jdict -> table -> result unit * table.

(** The call [create(comparison_data, org_id)] passes two positional
    arguments to a method that takes keyword arguments only. *)
Lemma store_comparison_result_raises (t : table)
  (comparison : ComparisonResult) (org_id : string) (user_id : UUID) :
  exists e,
    _store_comparison_result uuid_of_string insert_row t comparison org_id
      user_id = (Raise e, t).
Proof.
  unfold _store_comparison_result, create.
  destruct (uuid_of_string org_id) as [org|e]; eexists; reflexivity.
Qed.

Variable get_with_chunks :
  UUID -> string -> result (option (list DocumentChunk)).
Variable clauses_by_document : UUID -> string -> result (list Clause).
Variable unified_diff : list string -> list string -> list string.
Variable ratio : string -> string -> F64.float.
Variable iteration_order : list string -> list string.

(** A comparison that is not on record is computed but never returned or
    stored: storing it fails, before any row is written, because the
    repository's [create] is called with positional arguments (or because
    the organization id is not a well-formed UUID).  So the table is never
    changed by [compare_documents], every comparison it returns is the
    decoded stored row, and without a stored row it raises; if a document
    is missing, the error is the [ValueError] for missing documents. *)
Theorem fresh_comparison_is_never_stored (t : table) (a b : UUID)
  (org_id : string) (user_id : UUID) :
  let env :=
    service_env uuid_of_string insert_row get_with_chunks clauses_by_document
      unified_diff ratio iteration_order in
  snd (compare_documents env t a b org_id user_id) = t /\
  (forall comparison,
     fst (compare_documents env t a b org_id user_id) = Ok comparison ->
     exists row,
       get_by_documents t a b org_id = Ok (Some row) /\
       _parse_stored_comparison row = Ok comparison) /\
  (get_by_documents t a b org_id = Ok None ->
   (exists e, fst (compare_documents env t a b org_id user_id) = Raise e) /\
   (forall doc_a doc_b,
      get_with_chunks a org_id = Ok doc_a ->
      get_with_chunks b org_id = Ok doc_b ->
      doc_a = None \/ doc_b = None ->
      fst (compare_documents env t a b org_id user_id)
      = Raise (ValueError "One or both documents not found"))).
Proof.
  intros env. unfold compare_documents.
  destruct (get_by_documents t a b org_id) as [[row|]|e] eqn:Hlookup.
  - split; [reflexivity|]. split; [|discriminate].
    intros comparison H. exists row. split; [reflexivity|exact H].
  - assert (Hfresh :
      snd (compare_fresh env t a b org_id user_id) = t /\
      (exists e, fst (compare_fresh env t a b org_id user_id) = Raise e) /\
      (forall doc_a doc_b,
         get_with_chunks a org_id = Ok doc_a ->
         get_with_chunks b org_id = Ok doc_b ->
         doc_a = None \/ doc_b = None ->
         fst (compare_fresh env t a b org_id user_id)
         = Raise (ValueError "One or both documents not found"))).
    { unfold compare_fresh.
      change (Comparison.get_with_chunks env) with get_with_chunks.
      change (Comparison.clauses_by_document env) with clauses_by_document.
      destruct (get_with_chunks a org_id) as [[doc_a|]|ea];
        destruct (get_with_chunks b org_id) as [[doc_b|]|eb];
        try (split; [reflexivity|]; split; [eexists; reflexivity|];
             intros da db Ha Hb [-> | ->]; try discriminate; reflexivity).
      destruct (clauses_by_document a org_id) as [clauses_a|ea];
        [|split; [reflexivity|]; split; [eexists; reflexivity|];
          intros da db Ha Hb [-> | ->]; discriminate].
      destruct (clauses_by_document b org_id) as [clauses_b|eb];
        [|split; [reflexivity|]; split; [eexists; reflexivity|];
          intros da db Ha Hb [-> | ->]; discriminate].
      match goal with
      | |- context [Comparison._store_comparison_result env t ?r org_id
                      user_id] =>
          change (Comparison._store_comparison_result env t r org_id user_id)
            with (_store_comparison_result uuid_of_string insert_row t r
                    org_id user_id);
          destruct (store_comparison_result_raises t r org_id user_id)
            as [e He]; rewrite He
      end.
      split; [reflexivity|]. split; [exists e; reflexivity|].
      intros da db Ha Hb [-> | ->]; discriminate. }
    destruct Hfresh as [Ht [[e He] Hmissing]].
    split; [exact Ht|]. split.
    + intros comparison H. rewrite He in H. discriminate.
    + intros _. split; [exists e; exact He|exact Hmissing].
  - split; [reflexivity|]. split; discriminate.
Qed.

End Store.

End StoreFacts.

(** ** Comparison: the listing queries *)

Module RepositoryFacts.

Import Comparison ComparisonStore.
Local Open Scope string_scope.
Local Open Scope Z_scope.










End RepositoryFacts.

(** ** Risk scoring *)

Module RiskScoringFacts.

Import Compliance RiskScoring.
Local Open Scope string_scope.
Local Open Scope Z_scope.

Lemma ltb_leb (a b : F64.float) : SFltb a b = true -> SFleb a b = true.
Proof.
  unfold SFltb, SFleb. destruct (SFcompare a b) as [[| |]|]; congruence.
Qed.

(** [min(1.0, max(0.0, c))] lies between 0 and 1 for every [c], also for
    one that is not a number. *)
Lemma clamp_range (c : F64.float) :
  F64.leb (F64.of_Z 0) (F64.min (F64.of_Z 1) (F64.max (F64.of_Z 0) c)) = true /\
  F64.leb (F64.min (F64.of_Z 1) (F64.max (F64.of_Z 0) c)) (F64.of_Z 1) = true.
Proof.
  unfold F64.max, F64.gtb.
  destruct (SFltb (F64.of_Z 0) c) eqn:Hpos.
  - unfold F64.min, F64.ltb. destruct (SFltb c (F64.of_Z 1)) eqn:Hlt.
    + split; [apply ltb_leb; exact Hpos|apply ltb_leb; exact Hlt].
    + split; vm_compute; reflexivity.
  - split; vm_compute; reflexivity.
Qed.

Lemma accumulate_factors_factors (rs : list ComplianceResult) :
  fst (fst (accumulate_factors rs)) = map _create_risk_factor rs.
Proof.
  unfold accumulate_factors.
  assert (H : forall state,
             fst (fst (fold_left
                         (fun state result =>
                            let '(risk_factors, total_weighted_score,
                                  total_weight) := state in
                            let factor := _create_risk_factor result in
                            ((risk_factors ++ [factor])%list,
                             F64.add total_weighted_score
                               (F64.mul (factor_score factor)
                                  (factor_weight factor)),
                             F64.add total_weight (factor_weight factor)))
                         rs state))
             = (fst (fst state) ++ map _create_risk_factor rs)%list).
  { induction rs as [|r rs IH]; intros [[fs tws] tw]; cbn [fold_left].
    - simpl. rewrite app_nil_r. reflexivity.
    - rewrite IH. cbn [fst map]. rewrite <- app_assoc. reflexivity. }
  rewrite H. reflexivity.
Qed.

Lemma risk_category_thresholds (score : Z) :
  (_get_risk_category score = RiskCategory.CRITICAL <-> 80 <= score) /\
  (_get_risk_category score = RiskCategory.HIGH <-> 60 <= score < 80) /\
  (_get_risk_category score = RiskCategory.MEDIUM <-> 30 <= score < 60) /\
  (_get_risk_category score = RiskCategory.LOW <-> score < 30).
Proof.
  unfold _get_risk_category.
  destruct (Z.leb_spec 80 score); [|destruct (Z.leb_spec 60 score);
    [|destruct (Z.leb_spec 30 score)]];
    repeat split; intros; try discriminate; try reflexivity; lia.
Qed.

(** A risk score, when one is computed, is an integer between 0 and 100
    whose category follows the thresholds 80, 60 and 30; it carries one
    risk factor per compliance result, in order, and a confidence between
    0 and 1.  Without compliance results the score is 0, LOW, with
    confidence 1. *)
Theorem risk_score_is_within_bounds (compliance_results : list ComplianceResult)
  (score : RiskScore) :
  calculate_risk_score compliance_results = Ok score ->
  0 <= overall_score score <= 100 /\
  (category score = RiskCategory.CRITICAL <-> 80 <= overall_score score) /\
  (category score = RiskCategory.HIGH <-> 60 <= overall_score score < 80) /\
  (category score = RiskCategory.MEDIUM <-> 30 <= overall_score score < 60) /\
  (category score = RiskCategory.LOW <-> overall_score score < 30) /\
  factors score = map _create_risk_factor compliance_results /\
  F64.leb (F64.of_Z 0) (confidence score) = true /\
  F64.leb (confidence score) (F64.of_Z 1) = true /\
  (compliance_results = [] ->
   overall_score score = 0 /\ confidence score = F64.of_Z 1).
Proof.
  destruct compliance_results as [|r rs].
  - intros H. injection H as <-. cbn.
    repeat split; intros; try discriminate; try reflexivity; try lia.
  - unfold calculate_risk_score.
    pose proof (accumulate_factors_factors (r :: rs)) as Hf.
    destruct (accumulate_factors (r :: rs)) as [[fs tws] tw].
    cbn [fst] in Hf.
    destruct (F64.to_int _) as [truncated|e]; [|discriminate].
    cbn [bind]. intros H. injection H as <-.
    cbn [overall_score category confidence factors].
    pose proof (risk_category_thresholds (Z.min 100 (Z.max 0 truncated)))
      as [Hc [Hh [Hm Hl]]].
    split; [lia|]. split; [exact Hc|]. split; [exact Hh|].
    split; [exact Hm|]. split; [exact Hl|]. split; [exact Hf|].
    split; [|split; [|discriminate]];
      unfold _calculate_confidence; apply clamp_range.
Qed.

Lemma status_cases (s : ComplianceStatus) :
  s = COMPLIANT \/ s = NON_COMPLIANT \/ s = REVIEW_REQUIRED.
Proof. destruct s; tauto. Qed.

(** The priority of a rule's recommendations: URGENT exactly for a
    NON_COMPLIANT rule that is one of the four critical rules or belongs to
    a document of CRITICAL risk; HIGH for any other NON_COMPLIANT rule and
    for a REVIEW_REQUIRED rule of a CRITICAL document; MEDIUM for any other
    REVIEW_REQUIRED rule; LOW exactly for a COMPLIANT rule. *)
Theorem recommendation_priority_by_status (rule_id : string)
  (status : ComplianceStatus) (risk_category : RiskCategory.t) :
  let priority :=
    _determine_recommendation_priority rule_id status risk_category in
  let critical_rule :=
    str_in rule_id
      ["indemnity_clause"; "liability_cap"; "data_security";
       "intellectual_property"] in
  (priority = RecommendationPriority.URGENT <->
     status = NON_COMPLIANT /\
     (critical_rule = true \/ risk_category = RiskCategory.CRITICAL)) /\
  (priority = RecommendationPriority.HIGH <->
     (status = NON_COMPLIANT /\ critical_rule = false /\
      risk_category <> RiskCategory.CRITICAL) \/
     (status = REVIEW_REQUIRED /\ risk_category = RiskCategory.CRITICAL)) /\
  (priority = RecommendationPriority.MEDIUM <->
     status = REVIEW_REQUIRED /\ risk_category <> RiskCategory.CRITICAL) /\
  (priority = RecommendationPriority.LOW <-> status = COMPLIANT).
Proof.
  intros priority critical_rule. subst priority.
  unfold _determine_recommendation_priority. fold critical_rule.
  destruct critical_rule, status, risk_category; cbn;
    intuition (try discriminate; try congruence).
Qed.

Lemma risk_score_is_within_bounds_witness :
  exists score,
    RiskScoring.calculate_risk_score Scenarios.advised_results = Ok score /\
    0 <= RiskScoring.overall_score score <= 100.
Proof.
  pose proof (risk_score_is_within_bounds
                Scenarios.advised_results) as H.
  eexists. split; [vm_compute; reflexivity|].
  apply (H _ ltac:(vm_compute; reflexivity)).
Defined.

End RiskScoringFacts.

(** ** Risk scoring: multipliers *)

Module RiskMultiplierFacts.

Import Compliance RiskScoring.
Local Open Scope string_scope.
Local Open Scope Z_scope.

(** No match has a confidence below 0.6. *)
Lemma match_confidence_not_low (pattern context matched : string) :
  F64.ltb (_calculate_match_confidence pattern context matched)
    (F64.dec 6 10) = false.
Proof.
  unfold _calculate_match_confidence.
  pose proof (filter_length_le
                (fun keyword => Str.contains keyword (Str.lower context))
                legal_keywords) as Hle.
  change (List.length legal_keywords) with 10%nat in Hle.
  remember (List.length
              (filter (fun keyword => Str.contains keyword (Str.lower context))
                 legal_keywords)) as n eqn:Hn.
  clear Hn.
  destruct (String.eqb (Str.lower pattern) (Str.lower matched));
    do 11 (destruct n as [|n]; [vm_compute; reflexivity|]); lia.
Qed.

Section Engine.

Context {E : Re.Engine}.

Lemma evaluated_rule_has_no_low_confidence_match (rule : ComplianceRule)
  (document_text : string) (chunks : list DocumentChunk)
  (res : ComplianceResult) :
  _evaluate_rule rule document_text chunks = Ok res ->
  existsb (fun m => F64.ltb (cm_confidence m) (F64.dec 6 10))
    (res_matched_clauses res) = false.
Proof.
  intros H. apply RuleFacts.evaluate_rule_inv in H. destruct H as [Hc _].
  destruct (existsb _ (res_matched_clauses res)) eqn:Hex; [|reflexivity].
  apply existsb_exists in Hex. destruct Hex as [m [Hin Hlow]].
  destruct (RuleFacts.collect_matches_inv _ _ _ _ Hc m Hin)
    as [pattern [chunk [span [_ [_ ->]]]]].
  cbn [clause_of_match match_entry cm_confidence pm_confidence] in Hlow.
  rewrite match_confidence_not_low in Hlow. discriminate.
Qed.

(** For the results of the compliance engine the low-confidence multiplier
    of the risk score is never applied, because no match has a confidence
    below 0.6: the score is scaled by 1, plus 0.2 for each missing clause
    of a critical rule, plus 0.15 if three or more rules are
    NON_COMPLIANT. *)
Theorem low_confidence_multiplier_never_applies
  (rules : list ComplianceRule) (document_text : string)
  (chunks : list DocumentChunk) (results : list ComplianceResult)
  (base_score : F64.float) :
  evaluate_rules rules document_text chunks = Ok results ->
  low_confidence_matches results = [] /\
  _apply_risk_multipliers base_score results =
    F64.mul base_score
      (let multiplier :=
         match critical_missing results with
         | [] => F64.of_Z 1
         | _ :: _ =>
             F64.add (F64.of_Z 1)
               (F64.mul (F64.dec 2 10)
                  (F64.of_Z
                     (Z.of_nat (List.length (critical_missing results)))))
         end in
       if 3 <=? count_status NON_COMPLIANT results
       then F64.add multiplier (F64.dec 15 100) else multiplier).
Proof.
  intros H. apply RunFacts.evaluate_rules_inv in H.
  assert (Hnone : low_confidence_matches results = []).
  { unfold low_confidence_matches. apply RunFacts.filter_none.
    intros r Hin.
    destruct (RuleFacts.Forall2_In_r _ _ _ _ H Hin) as [rule [_ Hr]].
    destruct (res_matched_clauses r) eqn:Hm; [reflexivity|].
    rewrite <- Hm.
    apply (evaluated_rule_has_no_low_confidence_match _ _ _ _ Hr). }
  split; [exact Hnone|].
  unfold _apply_risk_multipliers. rewrite Hnone. reflexivity.
Qed.

End Engine.

Lemma low_confidence_multiplier_never_applies_witness :
  exists results,
    Compliance.evaluate_rules (E := Re.Fragment) [Examples.indemnity_rule]
      "The Supplier shall indemnify and hold harmless the Customer."
      Examples.supplier_chunks = Ok results /\
    RiskScoring.low_confidence_matches results = [].
Proof.
  pose proof (low_confidence_multiplier_never_applies
                (E := Re.Fragment) [Examples.indemnity_rule]
                "The Supplier shall indemnify and hold harmless the Customer."
                Examples.supplier_chunks) as H.
  eexists. split; [vm_compute; reflexivity|].
  apply (H _ (F64.of_Z 50) ltac:(vm_compute; reflexivity)).
Defined.

End RiskMultiplierFacts.

(** ** Risk scoring: recommendations *)

Module RecommendationFacts.

Import Compliance RiskScoring.
Local Open Scope string_scope.
Local Open Scope Z_scope.

Lemma key_ltb_true (a b : Z * Z) :
  key_ltb a b = true <->
  fst a < fst b \/ (fst a = fst b /\ snd a < snd b).
Proof.
  unfold key_ltb. rewrite orb_true_iff, andb_true_iff.
  rewrite !Z.ltb_lt, Z.eqb_eq. reflexivity.
Qed.

Lemma key_ltb_false (a b : Z * Z) :
  key_ltb a b = false <->
  fst b < fst a \/ (fst a = fst b /\ snd b <= snd a).
Proof.
  destruct (key_ltb a b) eqn:H.
  - apply key_ltb_true in H. split; [discriminate|]. lia.
  - split; [|reflexivity]. intros _.
    destruct (Z.lt_trichotomy (fst a) (fst b)) as [Hlt|[Heq|Hgt]].
    + assert (key_ltb a b = true) by (apply key_ltb_true; lia). congruence.
    + destruct (Z.lt_ge_cases (snd a) (snd b)) as [Hs|Hs].
      * assert (key_ltb a b = true) by (apply key_ltb_true; lia). congruence.
      * right. lia.
    + left. exact Hgt.
Qed.

Lemma ranked_before_trans (a b c : Recommendation) :
  ranked_before a b -> ranked_before b c -> ranked_before a c.
Proof.
  unfold ranked_before. rewrite !key_ltb_false. lia.
Qed.

Lemma insert_recommendation_perm (r : Recommendation)
  (l : list Recommendation) :
  Permutation (r :: l) (insert_recommendation r l).
Proof.
  induction l as [|d l IH]; simpl; [reflexivity|].
  destruct (key_ltb (sort_key d) (sort_key r)); [reflexivity|].
  rewrite perm_swap. apply perm_skip. exact IH.
Qed.

Lemma insert_recommendation_sorted (r : Recommendation)
  (l : list Recommendation) :
  StronglySorted ranked_before l ->
  StronglySorted ranked_before (insert_recommendation r l).
Proof.
  induction l as [|d l IH]; intros Hs; simpl.
  - repeat constructor.
  - inversion Hs as [|? ? Hl Hd]; subst.
    destruct (key_ltb (sort_key d) (sort_key r)) eqn:Hlt.
    + assert (Hrd : ranked_before r d).
      { unfold ranked_before. apply key_ltb_false.
        apply key_ltb_true in Hlt. lia. }
      constructor; [exact Hs|]. constructor; [exact Hrd|].
      apply Forall_forall. intros x Hx.
      rewrite Forall_forall in Hd.
      apply (ranked_before_trans r d x Hrd (Hd x Hx)).
    + constructor; [apply IH; exact Hl|].
      apply Forall_forall. intros x Hx.
      apply (Permutation_in x (Permutation_sym
                                 (insert_recommendation_perm r l))) in Hx.
      destruct Hx as [<-|Hx]; [exact Hlt|].
      rewrite Forall_forall in Hd. apply Hd. exact Hx.
Qed.

Lemma sort_recommendations_spec (l : list Recommendation) :
  StronglySorted ranked_before (sort_recommendations l) /\
  Permutation l (sort_recommendations l).
Proof.
  unfold sort_recommendations.
  assert (H : forall acc,
             StronglySorted ranked_before acc ->
             StronglySorted ranked_before
               (fold_left (fun sorted r => insert_recommendation r sorted)
                  l acc) /\
             Permutation (l ++ acc)%list
               (fold_left (fun sorted r => insert_recommendation r sorted)
                  l acc)).
  { induction l as [|r l IH]; intros acc Hacc; simpl.
    - split; [exact Hacc|reflexivity].
    - destruct (IH (insert_recommendation r acc)
                  (insert_recommendation_sorted r acc Hacc)) as [Hs Hp].
      split; [exact Hs|].
      rewrite <- Hp. rewrite <- insert_recommendation_perm.
      apply Permutation_middle. }
  destruct (H [] (SSorted_nil _)) as [Hs Hp].
  rewrite app_nil_r in Hp. split; assumption.
Qed.

Lemma recommendations_from_inv (r : ComplianceResult)
  (priority : RecommendationPriority.t)
  (rule_recommendations : list (string * Details)) (texts : list json) :
  forall i recs,
    recommendations_from r priority rule_recommendations i texts = Ok recs ->
    map rec_description recs = texts /\
    forall recommendation, In recommendation recs ->
      rec_title recommendation = "Address " ++ res_rule_name r /\
      rec_priority recommendation = priority /\
      rec_category recommendation = _categorize_risk_factor (res_rule_id r) /\
      rec_clause_types recommendation = [res_rule_id r].
Proof.
  induction texts as [|text texts IH]; intros i recs H.
  - simpl in H. injection H as <-. split; [reflexivity|]. intros x [].
  - cbn [recommendations_from] in H.
    destruct (details_of rule_recommendations text) as [details|e];
      [|discriminate].
    cbn [bind] in H.
    destruct (recommendations_from r priority rule_recommendations (i + 1)
                texts) as [others|e] eqn:Ho; [|discriminate].
    cbn [bind] in H. injection H as <-.
    destruct (IH _ _ Ho) as [Hmap Hall].
    split; [cbn; rewrite Hmap; reflexivity|].
    intros x [<-|Hx]; [cbn; repeat split|apply Hall; exact Hx].
Qed.

Lemma collected_recommendations (risk_score : RiskScore)
  (rs : list ComplianceResult) :
  forall acc out,
    foldM (fun recommendations result =>
             if negb (status_eqb (res_status result) COMPLIANT) then
               bind (_create_recommendations_for_rule result risk_score)
                 (fun recs => Ok (recommendations ++ recs)%list)
             else Ok recommendations) rs acc = Ok out ->
    exists made,
      out = (acc ++ made)%list /\
      map rec_description made
      = flat_map res_recommendations
          (filter (fun r => negb (status_eqb (res_status r) COMPLIANT)) rs) /\
      forall recommendation, In recommendation made ->
        exists r, In r rs /\ res_status r <> COMPLIANT /\
                  made_for risk_score r recommendation.
Proof.
  induction rs as [|r rs IH]; intros acc out H.
  - simpl in H. injection H as <-. exists []. rewrite app_nil_r.
    split; [reflexivity|]. split; [reflexivity|]. intros x [].
  - cbn [foldM] in H. cbn [filter].
    destruct (negb (status_eqb (res_status r) COMPLIANT)) eqn:Hst.
    + destruct (_create_recommendations_for_rule r risk_score)
        as [recs|e] eqn:Hr; [|discriminate].
      cbn [bind] in H. destruct (IH _ _ H) as [made [-> [Hmap Hall]]].
      unfold _create_recommendations_for_rule in Hr.
      apply recommendations_from_inv in Hr. destruct Hr as [Hdesc Hfields].
      exists (recs ++ made)%list. split; [rewrite app_assoc; reflexivity|].
      split.
      * rewrite map_app, Hdesc, Hmap. reflexivity.
      * intros x Hx. apply in_app_or in Hx. destruct Hx as [Hx|Hx].
        -- exists r. split; [left; reflexivity|]. split.
           ++ intros Hc. rewrite Hc in Hst. discriminate.
           ++ destruct (Hfields x Hx) as [Ht [Hp [Hc Hty]]].
              unfold made_for. repeat split; try assumption.
              rewrite <- Hdesc. apply in_map. exact Hx.
        -- destruct (Hall x Hx) as [r' [Hin Hr']]. exists r'.
           split; [right; exact Hin|exact Hr'].
    + cbn [bind] in H. destruct (IH _ _ H) as [made [-> [Hmap Hall]]].
      exists made. split; [reflexivity|]. split; [exact Hmap|].
      intros x Hx. destruct (Hall x Hx) as [r' [Hin Hr']]. exists r'.
      split; [right; exact Hin|exact Hr'].
Qed.

(** The recommendations come out ranked by priority and then by impact,
    highest first.  They are the strategic recommendations together with
    one recommendation for each recommendation text of each result that is
    not COMPLIANT, carrying the priority determined for that result; a
    COMPLIANT result contributes none.  For a document of CRITICAL risk the
    first recommendation is URGENT. *)
Theorem recommendations_are_ranked (compliance_results : list ComplianceResult)
  (risk_score : RiskScore) (recommendations : list Recommendation) :
  generate_recommendations compliance_results risk_score = Ok recommendations ->
  StronglySorted ranked_before recommendations /\
  (exists made,
     Permutation
       (made ++ _generate_strategic_recommendations risk_score)
       recommendations /\
     map rec_description made
     = flat_map res_recommendations
         (filter (fun r => negb (status_eqb (res_status r) COMPLIANT))
            compliance_results) /\
     forall recommendation, In recommendation made ->
       exists r, In r compliance_results /\ res_status r <> COMPLIANT /\
                 made_for risk_score r recommendation) /\
  (category risk_score = RiskCategory.CRITICAL ->
   exists first rest,
     recommendations = first :: rest /\
     rec_priority first = RecommendationPriority.URGENT).
Proof.
  unfold generate_recommendations.
  destruct (foldM _ compliance_results []) as [collected|e] eqn:Hfold;
    [|discriminate].
  cbn [bind]. intros H. injection H as <-.
  apply collected_recommendations in Hfold.
  destruct Hfold as [made [-> [Hmap Hall]]]. cbn [app].
  destruct (sort_recommendations_spec
              (made ++ _generate_strategic_recommendations risk_score))
    as [Hs Hp].
  split; [exact Hs|]. split.
  - exists made. split; [exact Hp|]. split; [exact Hmap|exact Hall].
  - intros Hcrit.
    set (sorted := sort_recommendations
                     (made ++ _generate_strategic_recommendations risk_score))
      in *.
    assert (Hurgent : exists u, In u sorted /\
              rec_priority u = RecommendationPriority.URGENT).
    { unfold _generate_strategic_recommendations in Hp.
      rewrite Hcrit in Hp.
      eexists. split.
      - apply (Permutation_in _ Hp). apply in_or_app. right.
        left. reflexivity.
      - reflexivity. }
    destruct Hurgent as [u [Hu Hup]].
    destruct sorted as [|first rest]; [destruct Hu|].
    exists first, rest. split; [reflexivity|].
    destruct Hu as [->|Hu]; [exact Hup|].
    inversion Hs as [|? ? _ Hfirst]; subst.
    rewrite Forall_forall in Hfirst. specialize (Hfirst u Hu).
    unfold ranked_before in Hfirst. apply key_ltb_false in Hfirst.
    unfold sort_key in Hfirst. cbn [fst snd] in Hfirst. rewrite Hup in Hfirst.
    destruct (rec_priority first); cbn in Hfirst; try reflexivity; lia.
Qed.

Lemma recommendations_are_ranked_witness :
  exists recommendations,
    RiskScoring.generate_recommendations Scenarios.advised_results
      Scenarios.critical_score = Ok recommendations /\
    StronglySorted RiskScoring.ranked_before recommendations.
Proof.
  pose proof (recommendations_are_ranked
                Scenarios.advised_results Scenarios.critical_score) as H.
  eexists. split; [vm_compute; reflexivity|].
  apply (H _ ltac:(vm_compute; reflexivity)).
Defined.

End RecommendationFacts.
